(** * Niflheim-X (TypeScript): conversation orchestration, tools, memory

    A shallow embedding of the TypeScript package of niflheim-x:
    - [memory.ts]        (DictMemory, SQLiteMemory, createMemoryBackend),
    - [simple-agent.ts]  (SimpleDictMemory, Agent),
    - [tools.ts]         (ToolRegistry),
    - [llm/base.ts]      (BaseLLM.validateMessages, OpenAILLM, AnthropicLLM),
    together with the properties of these functions that the specification
    states.

    Conventions.  A JavaScript property that may be missing or [undefined]
    is an [option]; arrays are lists; [number]s that count or index are [Z];
    strings are [string]s (text is ASCII, or UTF-8 bytes that the code
    never inspects).  Code that can throw runs in [Exc]; code that also
    changes the agent's memory or talks to the outside runs in a state
    monad that keeps the state when an exception is thrown, as JavaScript
    does. *)

From Stdlib Require Import ZArith List String Ascii Bool Lia DecimalString.
From stdpp Require Import base gmap strings.
Import ListNotations.

Local Open Scope string_scope.
Local Open Scope list_scope.
Local Open Scope Z_scope.

(** ** JavaScript primitives used by the code *)

Module JS.

(** [Array.prototype.slice(start)], the end left out: a negative [start]
    counts from the end of the array, and both are clamped to the array.
    [-0] is [0], so [slice(-0)] is the whole array. *)
Definition slice_from {A : Type} (start : Z) (l : list A) : list A :=
  let len := Z.of_nat (length l) in
  let k := if start <? 0 then Z.max (len + start) 0 else Z.min start len in
  skipn (Z.to_nat k) l.

Definition newline : ascii := ascii_of_nat 10.
Definition quote : ascii := ascii_of_nat 34.
Definition backslash : ascii := ascii_of_nat 92.

(** White space of [String.prototype.trim] within ASCII: TAB, LF, VT, FF,
    CR and the space. *)
Definition is_trim_space (c : ascii) : bool :=
  let n := nat_of_ascii c in
  ((9 <=? n)%nat && (n <=? 13)%nat) || (n =? 32)%nat.

Fixpoint trim_start (s : string) : string :=
  match s with
  | String c r => if is_trim_space c then trim_start r else s
  | EmptyString => EmptyString
  end.

Definition string_rev (s : string) : string :=
  string_of_list_ascii (rev (list_ascii_of_string s)).

Definition trim (s : string) : string :=
  string_rev (trim_start (string_rev (trim_start s))).

(** [s.split('\n')]: never the empty array; the empty string gives one
    empty piece. *)
Fixpoint split_newline (s : string) : list string :=
  match s with
  | EmptyString => [EmptyString]
  | String c r =>
      let parts := split_newline r in
      if Ascii.eqb c newline then EmptyString :: parts
      else match parts with
           | p :: ps => String c p :: ps
           | [] => [String c EmptyString]
           end
  end.

(** [s.startsWith(p)] *)
Definition startsWith (p s : string) : bool := String.prefix p s.

(** [s.slice(n)] for [0 <= n] *)
Fixpoint string_drop (n : nat) (s : string) : string :=
  match n, s with
  | O, _ => s
  | S n', String _ r => string_drop n' r
  | S _, EmptyString => EmptyString
  end.

(** A string is truthy when it is not empty. *)
Definition truthy_string (s : string) : bool :=
  match s with EmptyString => false | String _ _ => true end.

(** Truthiness of a string that may be missing. *)
Definition truthy_opt_string (o : option string) : bool :=
  match o with Some s => truthy_string s | None => false end.

(** Writing JSON text in this file: every apostrophe stands for a double
    quote. *)
Fixpoint dq (s : string) : string :=
  match s with
  | EmptyString => EmptyString
  | String c r => String (if Ascii.eqb c "'"%char then quote else c) (dq r)
  end.

End JS.

(** ** Exceptions *)

(** What a [catch] clause can receive: an [Error] object, of which the code
    reads [message]; any other value, of which the code takes [String(_)];
    or a value of which no text can be had, because reading its [message]
    or converting it to a string throws in turn (an object without
    prototype, an object whose [toString] throws, an error whose [message]
    is a getter that throws).  [raised] is what is thrown then. *)
Inductive Thrown : Type :=
| ErrorObject (message : string)
| OtherValue (as_string : string)
| Unprintable (raised : Thrown).

Inductive Exc (A : Type) : Type :=
| Returns (a : A)
| Throws (e : Thrown).
Arguments Returns {A} a.
Arguments Throws {A} e.

Definition exc_bind {A B : Type} (c : Exc A) (k : A -> Exc B) : Exc B :=
  match c with
  | Returns a => k a
  | Throws e => Throws e
  end.

(** [try { c } catch (error) { h error }] *)
Definition exc_catch {A : Type} (c : Exc A) (h : Thrown -> Exc A) : Exc A :=
  match c with
  | Returns a => Returns a
  | Throws e => h e
  end.

(** [error instanceof Error ? error.message : String(error)] *)
Definition error_text (e : Thrown) : Exc string :=
  match e with
  | ErrorObject message => Returns message
  | OtherValue s => Returns s
  | Unprintable raised => Throws raised
  end.

(** [xs.map(f)] for an [f] that can throw: the first exception ends it. *)
Fixpoint exc_map {A B : Type} (f : A -> Exc B) (xs : list A) : Exc (list B) :=
  match xs with
  | [] => Returns []
  | x :: rest =>
      exc_bind (f x) (fun y =>
      exc_bind (exc_map f rest) (fun ys => Returns (y :: ys)))
  end.

(** ** State and exceptions

    A computation that reads and changes a state of type [S] and either
    returns or throws.  The state reached when an exception is thrown is
    kept: what was done before the [throw] stays done. *)
Definition SE (S A : Type) : Type := S -> Exc A * S.

Definition se_ret {S A : Type} (a : A) : SE S A := fun s => (Returns a, s).

Definition se_bind {S A B : Type} (c : SE S A) (k : A -> SE S B) : SE S B :=
  fun s =>
    match c s with
    | (Returns a, s') => k a s'
    | (Throws e, s') => (Throws e, s')
    end.

Definition se_throw {S A : Type} (e : Thrown) : SE S A :=
  fun s => (Throws e, s).

(** [try { c } catch (error) { h error }] *)
Definition se_catch {S A : Type} (c : SE S A) (h : Thrown -> SE S A)
  : SE S A :=
  fun s =>
    match c s with
    | (Returns a, s') => (Returns a, s')
    | (Throws e, s') => h e s'
    end.

Definition se_lift {S A : Type} (x : Exc A) : SE S A := fun s => (x, s).

Definition se_get {S : Type} : SE S S := fun s => (Returns s, s).

Definition se_modify {S : Type} (f : S -> S) : SE S unit :=
  fun s => (Returns tt, f s).

(** [for (const x of xs) { body x }] *)
Fixpoint se_for {S A : Type} (xs : list A) (body : A -> SE S unit)
  : SE S unit :=
  match xs with
  | [] => se_ret tt
  | x :: rest => se_bind (body x) (fun _ => se_for rest body)
  end.

Declare Scope se_scope.
Delimit Scope se_scope with se.
Notation "x <- c ;; k" := (se_bind c (fun x => k))
  (at level 100, c at next level, right associativity) : se_scope.
Notation "c ;; k" := (se_bind c (fun _ => k))
  (at level 100, right associativity) : se_scope.

(** ** JSON values, [JSON.parse], [JSON.stringify], property access *)

Module Json.

(** A parsed JSON value.  A number keeps its lexeme: no arithmetic is done
    on numbers here.  An object keeps its members in the order of the text;
    reading a key takes its last occurrence, as [JSON.parse] does. *)
#[warnings="-register-all"]
Inductive json : Type :=
| JNull
| JBool (b : bool)
| JNumber (lexeme : string)
| JString (s : string)
| JArray (items : list json)
| JObject (members : list (string * json)).

Definition code (c : ascii) : nat := nat_of_ascii c.

Definition is_ws (c : ascii) : bool :=
  let n := code c in
  (n =? 32)%nat || (n =? 9)%nat || (n =? 10)%nat || (n =? 13)%nat.

Fixpoint skip_ws (s : list ascii) : list ascii :=
  match s with
  | c :: r => if is_ws c then skip_ws r else s
  | [] => []
  end.

Definition is_digit (c : ascii) : bool :=
  let n := code c in (48 <=? n)%nat && (n <=? 57)%nat.

Fixpoint take_digits (s : list ascii) : list ascii * list ascii :=
  match s with
  | c :: r =>
      if is_digit c
      then let (ds, rest) := take_digits r in (c :: ds, rest)
      else ([], s)
  | [] => ([], [])
  end.

Definition is_char (c : ascii) (n : nat) : bool := (code c =? n)%nat.

(** A number: an optional minus sign; then a single zero, or a non-zero
    digit and more digits; then optionally a point and digits; then
    optionally an exponent with its sign and digits. *)
Definition parse_number (s : list ascii) : option (list ascii * list ascii) :=
  let (sign, s1) :=
    match s with
    | c :: r => if is_char c 45 then ([c], r) else ([], s)
    | [] => ([], s)
    end in
  let int_part :=
    match s1 with
    | c :: r =>
        if is_char c 48 then Some ([c], r)
        else if is_digit c then Some (take_digits s1)
        else None
    | [] => None
    end in
  match int_part with
  | None => None
  | Some (ds, s2) =>
      let frac_part :=
        match s2 with
        | c :: r =>
            if is_char c 46
            then match take_digits r with
                 | ([], _) => None
                 | (fs, s3) => Some (c :: fs, s3)
                 end
            else Some ([], s2)
        | [] => Some ([], s2)
        end in
      match frac_part with
      | None => None
      | Some (fs, s3) =>
          let exp_part :=
            match s3 with
            | c :: r =>
                if is_char c 101 || is_char c 69
                then
                  let (sg, r') :=
                    match r with
                    | d :: r0 =>
                        if is_char d 43 || is_char d 45 then ([d], r0)
                        else ([], r)
                    | [] => ([], r)
                    end in
                  match take_digits r' with
                  | ([], _) => None
                  | (es, s4) => Some (c :: sg ++ es, s4)
                  end
                else Some ([], s3)
            | [] => Some ([], s3)
            end in
          match exp_part with
          | None => None
          | Some (es, s4) => Some (sign ++ ds ++ fs ++ es, s4)
          end
      end
  end.

Definition hex_val (c : ascii) : option nat :=
  let n := code c in
  if (48 <=? n)%nat && (n <=? 57)%nat then Some (n - 48)%nat
  else if (65 <=? n)%nat && (n <=? 70)%nat then Some (n - 55)%nat
  else if (97 <=? n)%nat && (n <=? 102)%nat then Some (n - 87)%nat
  else None.

(** The UTF-8 bytes of the code unit of a [\u] escape (a surrogate half is
    encoded on its own). *)
Definition utf8 (n : nat) : list ascii :=
  if (n <? 128)%nat then [ascii_of_nat n]
  else if (n <? 2048)%nat
  then [ascii_of_nat (192 + n / 64); ascii_of_nat (128 + n mod 64)]
  else [ascii_of_nat (224 + n / 4096);
        ascii_of_nat (128 + (n / 64) mod 64);
        ascii_of_nat (128 + n mod 64)].

Definition simple_escape (c : ascii) : option ascii :=
  let n := code c in
  if (n =? 34)%nat then Some (ascii_of_nat 34)
  else if (n =? 92)%nat then Some (ascii_of_nat 92)
  else if (n =? 47)%nat then Some (ascii_of_nat 47)
  else if (n =? 98)%nat then Some (ascii_of_nat 8)
  else if (n =? 102)%nat then Some (ascii_of_nat 12)
  else if (n =? 110)%nat then Some (ascii_of_nat 10)
  else if (n =? 114)%nat then Some (ascii_of_nat 13)
  else if (n =? 116)%nat then Some (ascii_of_nat 9)
  else None.

(** The characters of a string literal after its opening quote, up to and
    without the closing quote. *)
Fixpoint parse_string_chars (s : list ascii)
  : option (list ascii * list ascii) :=
  match s with
  | [] => None
  | c :: r =>
      if is_char c 34 then Some ([], r)
      else if is_char c 92 then
        match r with
        | e :: r1 =>
            if is_char e 117 then
              match r1 with
              | h1 :: h2 :: h3 :: h4 :: r2 =>
                  match hex_val h1, hex_val h2, hex_val h3, hex_val h4 with
                  | Some a, Some b, Some c', Some d =>
                      match parse_string_chars r2 with
                      | Some (cs, rest) =>
                          Some (utf8 (((a * 16 + b) * 16 + c') * 16 + d) ++ cs,
                                rest)
                      | None => None
                      end
                  | _, _, _, _ => None
                  end
              | _ => None
              end
            else
              match simple_escape e with
              | Some x =>
                  match parse_string_chars r1 with
                  | Some (cs, rest) => Some (x :: cs, rest)
                  | None => None
                  end
              | None => None
              end
        | [] => None
        end
      else if (code c <? 32)%nat then None
      else
        match parse_string_chars r with
        | Some (cs, rest) => Some (c :: cs, rest)
        | None => None
        end
  end.

(** [strip p s]: [s] without its prefix [p], when it starts with [p]. *)
Fixpoint strip (p s : list ascii) : option (list ascii) :=
  match p, s with
  | [], _ => Some s
  | a :: p', b :: s' => if Ascii.eqb a b then strip p' s' else None
  | _ :: _, [] => None
  end.

Definition chars (s : string) : list ascii := list_ascii_of_string s.
Definition text (l : list ascii) : string := string_of_list_ascii l.

Fixpoint parse_value (fuel : nat) (s : list ascii)
  : option (json * list ascii) :=
  match fuel with
  | O => None
  | S f =>
      let s0 := skip_ws s in
      match s0 with
      | [] => None
      | c :: r =>
          if is_char c 34 then
            match parse_string_chars r with
            | Some (cs, rest) => Some (JString (text cs), rest)
            | None => None
            end
          else if is_char c 91 then
            match skip_ws r with
            | d :: r' =>
                if is_char d 93 then Some (JArray [], r')
                else match parse_elements f r with
                     | Some (vs, rest) => Some (JArray vs, rest)
                     | None => None
                     end
            | [] => None
            end
          else if is_char c 123 then
            match skip_ws r with
            | d :: r' =>
                if is_char d 125 then Some (JObject [], r')
                else match parse_members f r with
                     | Some (ms, rest) => Some (JObject ms, rest)
                     | None => None
                     end
            | [] => None
            end
          else
            match strip (chars "null") s0, strip (chars "true") s0,
                  strip (chars "false") s0 with
            | Some rest, _, _ => Some (JNull, rest)
            | _, Some rest, _ => Some (JBool true, rest)
            | _, _, Some rest => Some (JBool false, rest)
            | None, None, None =>
                match parse_number s0 with
                | Some (lex, rest) => Some (JNumber (text lex), rest)
                | None => None
                end
            end
      end
  end
with parse_elements (fuel : nat) (s : list ascii)
  : option (list json * list ascii) :=
  match fuel with
  | O => None
  | S f =>
      match parse_value f s with
      | Some (v, r) =>
          match skip_ws r with
          | c :: r' =>
              if is_char c 44 then
                match parse_elements f r' with
                | Some (vs, rest) => Some (v :: vs, rest)
                | None => None
                end
              else if is_char c 93 then Some ([v], r')
              else None
          | [] => None
          end
      | None => None
      end
  end
with parse_members (fuel : nat) (s : list ascii)
  : option (list (string * json) * list ascii) :=
  match fuel with
  | O => None
  | S f =>
      match skip_ws s with
      | q :: r =>
          if is_char q 34 then
            match parse_string_chars r with
            | Some (k, r1) =>
                match skip_ws r1 with
                | c :: r2 =>
                    if is_char c 58 then
                      match parse_value f r2 with
                      | Some (v, r3) =>
                          match skip_ws r3 with
                          | d :: r4 =>
                              if is_char d 44 then
                                match parse_members f r4 with
                                | Some (ms, rest) =>
                                    Some ((text k, v) :: ms, rest)
                                | None => None
                                end
                              else if is_char d 125
                              then Some ([(text k, v)], r4)
                              else None
                          | [] => None
                          end
                      | None => None
                      end
                    else None
                | [] => None
                end
            | None => None
            end
          else None
      | [] => None
      end
  end.

(** The [SyntaxError] of [JSON.parse]; the text of its message depends on
    the engine and no code here reads it. *)
Definition SyntaxError : Thrown := ErrorObject "Unexpected token in JSON".

(** [JSON.parse(s)]: one value, white space around it, nothing else.  Two
    units of fuel per character cover every nesting. *)
Definition parse (s : string) : Exc json :=
  let cs := chars s in
  match parse_value (2 * List.length cs + 2) cs with
  | Some (v, rest) =>
      match skip_ws rest with
      | [] => Returns v
      | _ :: _ => Throws SyntaxError
      end
  | None => Throws SyntaxError
  end.

(** A JavaScript value read out of parsed JSON: [None] is [undefined]. *)
Definition value : Type := option json.

Fixpoint last_member (k : string) (ms : list (string * json)) : value :=
  match ms with
  | [] => None
  | (k', v) :: rest =>
      match last_member k rest with
      | Some w => Some w
      | None => if String.eqb k k' then Some v else None
      end
  end.

(** [v.k] for a key that no prototype defines ([choices], [delta],
    [content], [tool_calls], [finish_reason], [type], [text]): only an
    object can have it.  The caller deals with [null] before. *)
Definition prop (k : string) (v : json) : value :=
  match v with
  | JObject ms => last_member k ms
  | _ => None
  end.

(** [v[0]] *)
Definition index0 (v : json) : value :=
  match v with
  | JArray items => List.hd_error items
  | JString (String c _) => Some (JString (String c EmptyString))
  | JObject ms => last_member "0" ms
  | _ => None
  end.

(** [v?.k] and [v?.[0]]: [undefined] and [null] give [undefined]. *)
Definition opt_prop (k : string) (v : value) : value :=
  match v with
  | None | Some JNull => None
  | Some w => prop k w
  end.

Definition opt_index0 (v : value) : value :=
  match v with
  | None | Some JNull => None
  | Some w => index0 w
  end.

(** A number is falsy when it is zero: no digit of its mantissa is
    non-zero (a lexeme so small that it rounds to zero is out of reach of
    this test). *)
Fixpoint mantissa_nonzero (s : list ascii) : bool :=
  match s with
  | [] => false
  | c :: r =>
      if is_char c 101 || is_char c 69 then false
      else if is_digit c && negb (is_char c 48) then true
      else mantissa_nonzero r
  end.

(** Truthiness, as the condition of an [if]. *)
Definition truthy (v : value) : bool :=
  match v with
  | None | Some JNull => false
  | Some (JBool b) => b
  | Some (JNumber lex) => mantissa_nonzero (chars lex)
  | Some (JString s) => JS.truthy_string s
  | Some (JArray _) | Some (JObject _) => true
  end.

(** [JSON.stringify] on a string: quotes around it, and the quote, the
    backslash and the control characters escaped. *)
Definition hex_digit (n : nat) : ascii :=
  if (n <? 10)%nat then ascii_of_nat (48 + n) else ascii_of_nat (87 + n).

Definition escape_char (c : ascii) : list ascii :=
  let n := code c in
  let bs := ascii_of_nat 92 in
  if (n =? 34)%nat then [bs; c]
  else if (n =? 92)%nat then [bs; c]
  else if (n =? 8)%nat then [bs; ascii_of_nat 98]
  else if (n =? 12)%nat then [bs; ascii_of_nat 102]
  else if (n =? 10)%nat then [bs; ascii_of_nat 110]
  else if (n =? 13)%nat then [bs; ascii_of_nat 114]
  else if (n =? 9)%nat then [bs; ascii_of_nat 116]
  else if (n <? 32)%nat
  then [bs; ascii_of_nat 117; ascii_of_nat 48; ascii_of_nat 48;
        hex_digit (n / 16); hex_digit (n mod 16)]
  else [c].

Definition quote_chars (s : string) : list ascii :=
  ascii_of_nat 34 :: flat_map escape_char (chars s) ++ [ascii_of_nat 34].

Fixpoint join_with (sep : list ascii) (parts : list (list ascii))
  : list ascii :=
  match parts with
  | [] => []
  | [p] => p
  | p :: rest => p ++ sep ++ join_with sep rest
  end.

(** [JSON.stringify(v)] on plain data, without indentation.  A number is
    printed by its lexeme. *)
Fixpoint stringify_chars (v : json) : list ascii :=
  match v with
  | JNull => chars "null"
  | JBool true => chars "true"
  | JBool false => chars "false"
  | JNumber lex => chars lex
  | JString s => quote_chars s
  | JArray items =>
      ascii_of_nat 91
        :: join_with [ascii_of_nat 44] (List.map stringify_chars items)
        ++ [ascii_of_nat 93]
  | JObject members =>
      ascii_of_nat 123
        :: join_with [ascii_of_nat 44]
             (List.map (fun kv : string * json =>
                          quote_chars (fst kv) ++ ascii_of_nat 58
                            :: stringify_chars (snd kv))
                       members)
        ++ [ascii_of_nat 125]
  end.

Definition stringify (v : json) : string := text (stringify_chars v).

End Json.

Import Json.

(** ** Core types ([types.ts]) *)

Inductive MessageRole : Type := System | User | Assistant | Tool.

Definition MessageRole_eqb (a b : MessageRole) : bool :=
  match a, b with
  | System, System | User, User | Assistant, Assistant | Tool, Tool => true
  | _, _ => false
  end.

Module ToolCall.
Record t : Type := mk {
  name : string;
  arguments : json;
  callId : string
}.
End ToolCall.

(** A message.  The interface declares [role] and [content] as required,
    but nothing checks it at run time and [BaseLLM.validateMessages] tests
    for their absence, so both are optional here.  [metadata] and
    [agentName] are never written nor read by the code below. *)
Module Message.
Record t : Type := mk {
  role : option MessageRole;
  content : option string;
  toolCalls : option (list ToolCall.t);
  toolCallId : option string;
  timestamp : Z
}.

(** [m.role === MessageRole.System] *)
Definition is_system (m : t) : bool :=
  match role m with
  | Some System => true
  | _ => false
  end.

Definition has_role (r : MessageRole) (m : t) : bool :=
  match role m with
  | Some r' => MessageRole_eqb r r'
  | None => false
  end.
End Message.

(** What a tool handler can hand back ([any]), as far as [JSON.stringify]
    tells values apart. *)
Inductive Value : Type :=
| Undefined                       (* nothing: stringify gives [undefined] *)
| Data (j : json)                 (* plain data: stringify gives its text *)
| Unserializable (why : string).  (* a BigInt, a cycle: stringify throws *)

(** [JSON.stringify(v)] for such a value. *)
Definition JSON_stringify (v : option Value) : Exc (option string) :=
  match v with
  | None | Some Undefined => Returns None
  | Some (Data j) => Returns (Some (Json.stringify j))
  | Some (Unserializable why) => Throws (ErrorObject why)
  end.

Module ToolResult.
Record t : Type := mk {
  callId : string;
  result : option Value;
  error : option string;
  executionTime : Z
}.
End ToolResult.

Module AgentResponse.
Record usage_t : Type := mk_usage {
  promptTokens : Z;
  completionTokens : Z;
  totalTokens : Z
}.
Record metadata_t : Type := mk_metadata {
  agentId : string;
  agentName : string;
  messageCount : Z
}.
Record t : Type := mk {
  content : string;
  toolCalls : list ToolCall.t;
  metadata : metadata_t;
  usage : option usage_t;
  finishReason : string
}.
End AgentResponse.

(** ** Memory ([memory.ts], [simple-agent.ts]) *)

(** [SimpleDictMemory]: one array of messages and a capacity. *)
Module SimpleDictMemory.
Record t : Type := mk {
  messages : list Message.t;
  maxMessages : Z
}.

(** [new SimpleDictMemory(maxMessages)]; the default capacity is 1000. *)
Definition new (maxMessages : Z) : t := mk [] maxMessages.
Definition default : t := new 1000.

Definition addMessage (message : Message.t) (this : t) : t :=
  let pushed := messages this ++ [message] in
  if maxMessages this <? Z.of_nat (length pushed)
  then mk (JS.slice_from (- maxMessages this) pushed) (maxMessages this)
  else mk pushed (maxMessages this).

Definition getMessages (this : t) : list Message.t := messages this.

Definition clear (this : t) : t := mk [] (maxMessages this).

(** The memory after a sequence of [addMessage] calls. *)
Definition addAll (ms : list Message.t) (this : t) : t :=
  fold_left (fun mem m => addMessage m mem) ms this.
End SimpleDictMemory.

(** [DictMemory]: a map from session ids to arrays of messages. *)
Module DictMemory.
Record t : Type := mk {
  sessions : gmap string (list Message.t);
  maxMessages : Z
}.

Definition new (maxMessages : Z) : t := mk ∅ maxMessages.
Definition default : t := new 1000.

Definition stored (sessionId : string) (this : t) : list Message.t :=
  match sessions this !! sessionId with
  | Some messages => messages
  | None => []
  end.

(** [push] changes the array held by the map; a trim then replaces that
    array by its slice. *)
Definition addMessage (sessionId : string) (message : Message.t) (this : t)
  : t :=
  let sessions1 :=
    match sessions this !! sessionId with
    | Some _ => sessions this
    | None => <[sessionId := []]> (sessions this)
    end in
  let messages :=
    match sessions1 !! sessionId with
    | Some l => l
    | None => []
    end ++ [message] in
  let sessions2 := <[sessionId := messages]> sessions1 in
  if maxMessages this <? Z.of_nat (length messages)
  then mk (<[sessionId := JS.slice_from (- maxMessages this) messages]>
             sessions2)
          (maxMessages this)
  else mk sessions2 (maxMessages this).

Definition getMessages (sessionId : string) (limit : option Z) (this : t)
  : list Message.t :=
  match limit with
  | Some n => JS.slice_from (- n) (stored sessionId this)
  | None => stored sessionId this
  end.

Definition clearSession (sessionId : string) (this : t) : t :=
  mk (delete sessionId (sessions this)) (maxMessages this).

Definition getSessionCount (sessionId : string) (this : t) : Z :=
  Z.of_nat (length (stored sessionId this)).

Definition addAll (sessionId : string) (ms : list Message.t) (this : t) : t :=
  fold_left (fun mem m => addMessage sessionId m mem) ms this.
End DictMemory.

(** ** Tools ([tools.ts]) *)

Module Tools.

(** How a promise ends. *)
Inductive Settlement : Type :=
| Fulfilled (v : Value)
| Rejected (e : Thrown).

(** What the call [tool.function(toolCall.arguments)] does, as far as
    [executeTool] can tell.  Times are in milliseconds from the call.
    - [ThrowsAtCall e]: the call itself throws [e].
    - [SettledAtReturn elapsed s]: the call keeps the thread for [elapsed]
      milliseconds and hands back a plain value, or a promise that is
      settled already (what a synchronous handler does, and an [async] one
      that never awaits).
    - [PendingAtReturn t s timers]: the call hands back a promise that is
      still pending and that settles as [s] at time [t].  JavaScript has
      one thread: the callback of a timer runs when the event loop gets to
      its timers and finds the timer due, and not while other code holds
      the thread.  [timers] is the last time, before the promise settles,
      at which the event loop was at its timers and could run the callback
      of the timer of [executeTool], had it been due; it is [None] when
      there was no such time: the promise settled while the thread was
      held from the call on.
    - [NeverSettles]: the call hands back a promise that stays pending;
      the event loop goes on, and gets to its timers. *)
Inductive HandlerRun : Type :=
| ThrowsAtCall (e : Thrown)
| SettledAtReturn (elapsed : Z) (s : Settlement)
| PendingAtReturn (t : Z) (s : Settlement) (timers : option Z)
| NeverSettles.

Record Tool : Type := mkTool {
  name : string;
  description : string;
  function : json -> HandlerRun;
  parameters : json;
  timeout : Z                     (* seconds, whole ones here *)
}.

(** The registry: a [Map] from names to tools, in insertion order. *)
Record ToolRegistry : Type := mkRegistry {
  tools : list (string * Tool)
}.

Definition empty : ToolRegistry := mkRegistry [].

(** [Map.prototype.set]: a key that is present keeps its place. *)
Fixpoint map_set (k : string) (v : Tool) (m : list (string * Tool))
  : list (string * Tool) :=
  match m with
  | [] => [(k, v)]
  | (k', v') :: rest =>
      if String.eqb k k' then (k, v) :: rest else (k', v') :: map_set k v rest
  end.

(** [Map.prototype.get] *)
Fixpoint map_get (k : string) (m : list (string * Tool)) : option Tool :=
  match m with
  | [] => None
  | (k', v) :: rest => if String.eqb k k' then Some v else map_get k rest
  end.

Definition registerTool (tool : Tool) (this : ToolRegistry) : ToolRegistry :=
  mkRegistry (map_set (name tool) tool (tools this)).

Definition getTool (name : string) (this : ToolRegistry) : option Tool :=
  map_get name (tools this).

Definition listTools (this : ToolRegistry) : list Tool :=
  List.map snd (tools this).

Definition getOpenAITools (this : ToolRegistry) : list json :=
  List.map (fun tool =>
              JObject [("type", JString "function");
                       ("function",
                        JObject [("name", JString (name tool));
                                 ("description", JString (description tool));
                                 ("parameters", parameters tool)])])
           (listTools this).

Definition getAnthropicTools (this : ToolRegistry) : list json :=
  List.map (fun tool =>
              JObject [("name", JString (name tool));
                       ("description", JString (description tool));
                       ("input_schema", parameters tool)])
           (listTools this).

(** The delay of [setTimeout(f, tool.timeout * 1000)]: Node runs a timer
    whose delay is below 1 or above 2147483647 after 1 millisecond. *)
Definition timer_delay (timeout : Z) : Z :=
  let ms := timeout * 1000 in
  if (ms <? 1) || (2147483647 <? ms) then 1 else ms.

Definition timeout_error : Thrown := ErrorObject "Tool execution timeout".

(** What awaiting a settled promise gives. *)
Definition settled (s : Settlement) : Exc Value :=
  match s with
  | Fulfilled v => Returns v
  | Rejected e => Throws e
  end.

(** The callback of a timer with this delay has run by the time the
    promise settles: the event loop was at its timers when the delay had
    passed. *)
Definition timer_ran (delay : Z) (timers : option Z) : bool :=
  match timers with
  | Some c => delay <=? c
  | None => false
  end.

(** [await Promise.race([executionPromise, timeoutPromise])], the handler
    called in between.  The timer is set before the handler is called.  A
    promise that is settled when the handler returns wins the race however
    long the handler took: the callback of the timer cannot run while the
    handler holds the thread, and the reaction to a settled promise runs
    before any timer.  A pending promise loses the race when the callback
    of the timer has run before it settles, and wins it otherwise, however
    late it settles. *)
Definition race (delay : Z) (run : HandlerRun) : Exc Value :=
  match run with
  | ThrowsAtCall e => Throws e
  | SettledAtReturn _ s => settled s
  | PendingAtReturn _ s timers =>
      if timer_ran delay timers then Throws timeout_error else settled s
  | NeverSettles => Throws timeout_error
  end.

(** [executeTool(toolCall)]; [startTime] is what [Date.now()] gives at the
    start, and [endTime] what it gives when the result record is built.
    The [catch] clause makes a text of what it caught, and throws when
    that cannot be done. *)
Definition executeTool (this : ToolRegistry) (toolCall : ToolCall.t)
    (startTime endTime : Z) : Exc ToolResult.t :=
  match getTool (ToolCall.name toolCall) this with
  | None =>
      Returns (ToolResult.mk
                 (ToolCall.callId toolCall)
                 None
                 (Some ("Tool '" +:+ ToolCall.name toolCall +:+ "' not found"))
                 (endTime - startTime))
  | Some tool =>
      exc_catch
        (exc_bind
           (race (timer_delay (timeout tool))
                 (function tool (ToolCall.arguments toolCall)))
           (fun result =>
              Returns (ToolResult.mk (ToolCall.callId toolCall)
                                     (Some result) None
                                     (endTime - startTime))))
        (fun error =>
           exc_bind (error_text error) (fun text =>
           Returns (ToolResult.mk (ToolCall.callId toolCall)
                                  None (Some text)
                                  (endTime - startTime))))
  end.

(** [createTool(config)] *)
Definition default_parameters : json :=
  JObject [("type", JString "object");
           ("properties", JObject []);
           ("required", JArray [])].

Definition createTool (name description : string)
    (function : json -> HandlerRun)
    (parameters : option json) (timeout : option Z) : Tool :=
  mkTool name description function
         (match parameters with Some p => p | None => default_parameters end)
         (match timeout with
          | Some t => if t =? 0 then 30 else t
          | None => 30
          end).

End Tools.

(** ** Provider adapters ([llm/base.ts]) *)

Module LLM.

Module LLMToolCall.
Record function_t : Type := mk_function {
  name : string;
  arguments : string
}.
Record t : Type := mk {
  id : string;
  type : string;
  function : function_t
}.
End LLMToolCall.

Module LLMResponse.
Record usage_t : Type := mk_usage {
  promptTokens : option Z;
  completionTokens : option Z;
  totalTokens : option Z
}.
Record t : Type := mk {
  content : string;
  usage : option usage_t;
  toolCalls : option (list LLMToolCall.t)
}.
End LLMResponse.

Module StreamChunk.
Record t : Type := mk {
  content : option string;
  delta : option string;
  finished : option bool;
  toolCalls : option (list LLMToolCall.t)
}.
End StreamChunk.

(** *** The wire *)

Record Request : Type := mkRequest {
  url : string;
  credentials : string;
  body : json
}.

(** A response: [ok], [status], and the body as the successive results of
    [reader.read()], already decoded; [body = None] is a response without
    a body, and [failure] is what a read throws once [reads] are used up. *)
Record Response : Type := mkResponse {
  ok : bool;
  status : Z;
  body_reads : option (list string);
  failure : option Thrown
}.

(** The text of the body: what the reads give, put together. *)
Definition body_text (r : Response) : string :=
  match body_reads r with
  | Some reads => String.concat "" reads
  | None => ""
  end.

(** [await response.text()]: the body is read to its end, and a read that
    fails makes it throw what the read throws. *)
Definition response_text (r : Response) : Exc string :=
  match body_reads r, failure r with
  | Some _, Some e => Throws e
  | _, _ => Returns (body_text r)
  end.

(** What an adapter yields from a stream: the object literal of the
    [yield], its values as they came out of the JSON text. *)
Record WireChunk : Type := mkWireChunk {
  wire_content : Json.value;
  wire_toolCalls : Json.value;
  wire_finished : bool
}.

(** The outside of an adapter: the requests sent so far and the chunks
    yielded so far. *)
Record Wire : Type := mkWire {
  requests : list Request;
  yielded : list WireChunk
}.

Definition no_traffic : Wire := mkWire [] [].

(** The fields of [BaseLLM] after construction. *)
Record BaseLLM : Type := mkBaseLLM {
  model : string;
  apiKey : string;
  baseURL : option string;
  temperature : string;           (* the lexeme of the number *)
  maxTokens : option Z
}.

Definition TypeError : Thrown :=
  ErrorObject "Cannot read properties of undefined".

(** [await response.json()]: the text of the body, parsed. *)
Definition response_json (r : Response) : Exc json :=
  exc_bind (response_text r) Json.parse.

(** [v.k] and [v[0]], which throw on [undefined] and [null]. *)
Definition get (k : string) (v : Json.value) : Exc Json.value :=
  match v with
  | None | Some JNull => Throws TypeError
  | Some w => Returns (Json.prop k w)
  end.

Definition get0 (v : Json.value) : Exc Json.value :=
  match v with
  | None | Some JNull => Throws TypeError
  | Some w => Returns (Json.index0 w)
  end.

Definition number (n : Z) : json := JNumber (NilZero.string_of_int (Z.to_int n)).

Definition role_string (r : MessageRole) : string :=
  match r with
  | System => "system"
  | User => "user"
  | Assistant => "assistant"
  | Tool => "tool"
  end.

(** An object literal: a property whose value is [undefined] is not
    written by [JSON.stringify]. *)
Definition object (members : list (string * Json.value)) : json :=
  JObject (flat_map (fun kv : string * Json.value =>
                       match snd kv with
                       | Some v => [(fst kv, v)]
                       | None => []
                       end) members).

Definition when (b : bool) (members : list (string * Json.value))
  : list (string * Json.value) :=
  if b then members else [].

Definition truthy_Z (o : option Z) : bool :=
  match o with
  | Some n => negb (n =? 0)
  | None => false
  end.

Definition has_tools (tools : option (list json)) : bool :=
  match tools with
  | Some (_ :: _) => true
  | _ => false
  end.

Definition tools_json (tools : option (list json)) : Json.value :=
  match tools with
  | Some ts => Some (JArray ts)
  | None => None
  end.

(** [BaseLLM.validateMessages] *)
Fixpoint validate_each (messages : list Message.t) : Exc unit :=
  match messages with
  | [] => Returns tt
  | message :: rest =>
      match Message.role message with
      | None => Throws (ErrorObject "Each message must have role and content")
      | Some _ =>
          if JS.truthy_opt_string (Message.content message)
          then validate_each rest
          else Throws (ErrorObject "Each message must have role and content")
      end
  end.

Definition validateMessages (messages : list Message.t) : Exc unit :=
  match messages with
  | [] => Throws (ErrorObject "Messages cannot be empty")
  | _ :: _ => validate_each messages
  end.

Local Open Scope se_scope.

(** [await fetch(...)]: the request goes out, and [fetch] is what the
    network answers, or the exception it throws. *)
Definition do_fetch (fetch : Request -> Exc Response) (r : Request)
  : SE Wire Response :=
  fun w => (fetch r, mkWire (requests w ++ [r]) (yielded w)).

Definition do_yield (c : WireChunk) : SE Wire unit :=
  se_modify (fun w => mkWire (requests w) (yielded w ++ [c])).

Definition base_or (this : BaseLLM) (default : string) : string :=
  match baseURL this with
  | Some u => if JS.truthy_string u then u else default
  | None => default
  end.

(** [buffer += text; lines = buffer.split('\n'); buffer = lines.pop() || ''] *)
Definition complete_lines (buffer text : string) : list string * string :=
  let lines := JS.split_newline (buffer +:+ text) in
  (List.removelast lines, List.last lines "").

(** The [while (true)] loop of both [stream] methods: the lines of each
    read are handled in turn; the loop ends when the reader is done, and
    throws what a failed read throws. *)
Fixpoint read_loop (handle : string -> SE Wire unit)
    (reads : list string) (failure : option Thrown) (buffer : string)
  : SE Wire unit :=
  match reads with
  | [] =>
      match failure with
      | Some e => se_throw e
      | None => se_ret tt
      end
  | value :: rest =>
      let (lines, buffer') := complete_lines buffer value in
      se_for lines handle ;;
      read_loop handle rest failure buffer'
  end.

(** [response.body?.getReader()] and the loop. *)
Definition read_body (handle : string -> SE Wire unit) (response : Response)
  : SE Wire unit :=
  match body_reads response with
  | None => se_throw (ErrorObject "Failed to get response reader")
  | Some reads => read_loop handle reads (failure response) ""
  end.

(** *** OpenAI *)

Module OpenAILLM.
Section WithNetwork.
Variable fetch : Request -> Exc Response.

Definition message_json (msg : Message.t) : json :=
  object [("role", option_map (fun r => JString (role_string r))
                              (Message.role msg));
          ("content", option_map JString (Message.content msg))].

Definition request_data (this : BaseLLM) (messages : list Message.t)
    (tools : option (list json)) (stream : bool) : json :=
  object ([("model", Some (JString (model this)));
           ("messages", Some (JArray (List.map message_json messages)));
           ("temperature", Some (JNumber (temperature this)))]
          ++ when stream [("stream", Some (JBool true))]
          ++ when (truthy_Z (maxTokens this))
               [("max_tokens", option_map number (maxTokens this))]
          ++ when (has_tools tools)
               [("tools", tools_json tools);
                ("tool_choice", Some (JString "auto"))]).

Definition api_error (response : Response) (error : string) : Thrown :=
  ErrorObject ("OpenAI API error: "
               +:+ NilZero.string_of_int (Z.to_int (status response))
               +:+ " - " +:+ error).

Definition endpoint_url (this : BaseLLM) (endpoint : string) : string :=
  base_or this "https://api.openai.com/v1" +:+ "/" +:+ endpoint.

(** [makeRequest(endpoint, data)] *)
Definition makeRequest (this : BaseLLM) (endpoint : string) (data : json)
  : SE Wire json :=
  response <- do_fetch fetch (mkRequest (endpoint_url this endpoint)
                                  ("Bearer " +:+ apiKey this) data) ;;
  if negb (ok response)
  then error <- se_lift (response_text response) ;;
       se_throw (api_error response error)
  else se_lift (response_json response).

(** What [chat] returns, its values as they came out of the JSON text. *)
Record RawResponse : Type := mkRaw {
  raw_content : json;
  raw_usage : option (Json.value * Json.value * Json.value);
  raw_toolCalls : Json.value
}.

Definition or_empty (v : Json.value) : json :=
  match v with
  | Some w => if Json.truthy v then w else JString ""
  | None => JString ""
  end.

Definition chat (this : BaseLLM) (messages : list Message.t)
    (tools : option (list json)) : SE Wire RawResponse :=
  se_lift (validateMessages messages) ;;
  response <- makeRequest this "chat/completions"
                (request_data this messages tools false) ;;
  choices <- se_lift (get "choices" (Some response)) ;;
  choice <- se_lift (get0 choices) ;;
  let message := Json.opt_prop "message" choice in
  se_ret (mkRaw
            (or_empty (Json.opt_prop "content" message))
            (let usage := Json.prop "usage" response in
             if Json.truthy usage
             then Some (Json.opt_prop "prompt_tokens" usage,
                        Json.opt_prop "completion_tokens" usage,
                        Json.opt_prop "total_tokens" usage)
             else None)
            (Json.opt_prop "tool_calls" message)).

(** The body of [for (const line of lines)]. *)
Definition handle_line (line : string) : SE Wire unit :=
  let trimmed := JS.trim line in
  if String.eqb trimmed "" || String.eqb trimmed "data: [DONE]"
  then se_ret tt
  else if JS.startsWith "data: " trimmed then
    se_catch
      (data <- se_lift (Json.parse (JS.string_drop 6 trimmed)) ;;
       choices <- se_lift (get "choices" (Some data)) ;;
       let choice := Json.opt_index0 choices in
       let delta := Json.opt_prop "delta" choice in
       (if Json.truthy (Json.opt_prop "content" delta)
        then do_yield (mkWireChunk (Json.opt_prop "content" delta) None false)
        else se_ret tt) ;;
       (if Json.truthy (Json.opt_prop "tool_calls" delta)
        then do_yield (mkWireChunk None (Json.opt_prop "tool_calls" delta)
                                   false)
        else se_ret tt) ;;
       (if Json.truthy (Json.opt_prop "finish_reason" choice)
        then do_yield (mkWireChunk None None true)
        else se_ret tt))
      (fun _ => se_ret tt)
  else se_ret tt.

(** [stream], run until the generator is finished. *)
Definition stream (this : BaseLLM) (messages : list Message.t)
    (tools : option (list json)) : SE Wire unit :=
  se_lift (validateMessages messages) ;;
  response <- do_fetch fetch (mkRequest (endpoint_url this "chat/completions")
                                  ("Bearer " +:+ apiKey this)
                                  (request_data this messages tools true)) ;;
  if negb (ok response)
  then error <- se_lift (response_text response) ;;
       se_throw (api_error response error)
  else read_body handle_line response.

End WithNetwork.
End OpenAILLM.

(** *** Anthropic *)

Module AnthropicLLM.
Section WithNetwork.
Variable fetch : Request -> Exc Response.

(** The loop that splits the system message from the others; the last
    system message wins. *)
Fixpoint convert (messages : list Message.t) (systemMessage : option string)
  : list json * option string :=
  match messages with
  | [] => ([], systemMessage)
  | msg :: rest =>
      match Message.role msg with
      | Some System => convert rest (Message.content msg)
      | r =>
          let (converted, sys) := convert rest systemMessage in
          (object [("role", Some (JString
                                    match r with
                                    | Some Assistant => "assistant"
                                    | _ => "user"
                                    end));
                   ("content", option_map JString (Message.content msg))]
             :: converted, sys)
      end
  end.

Definition request_data (this : BaseLLM) (messages : list Message.t)
    (tools : option (list json)) (stream : bool) : json :=
  let (anthropicMessages, systemMessage) := convert messages (Some "") in
  object ([("model", Some (JString (model this)));
           ("messages", Some (JArray anthropicMessages));
           ("max_tokens",
            Some (if truthy_Z (maxTokens this)
                  then match maxTokens this with
                       | Some n => number n
                       | None => number 4096
                       end
                  else number 4096));
           ("temperature", Some (JNumber (temperature this)))]
          ++ when stream [("stream", Some (JBool true))]
          ++ when (JS.truthy_opt_string systemMessage)
               [("system", option_map JString systemMessage)]
          ++ when (has_tools tools) [("tools", tools_json tools)]).

Definition api_error (response : Response) (error : string) : Thrown :=
  ErrorObject ("Anthropic API error: "
               +:+ NilZero.string_of_int (Z.to_int (status response))
               +:+ " - " +:+ error).

Definition messages_url (this : BaseLLM) : string :=
  base_or this "https://api.anthropic.com" +:+ "/v1/messages".

Definition makeRequest (this : BaseLLM) (data : json) : SE Wire json :=
  response <- do_fetch fetch (mkRequest (messages_url this) (apiKey this) data) ;;
  if negb (ok response)
  then error <- se_lift (response_text response) ;;
       se_throw (api_error response error)
  else se_lift (response_json response).

(** What [chat] returns; [raw_usage] holds the input and the output
    tokens, of which [totalTokens] is the JavaScript sum. *)
Record RawResponse : Type := mkRaw {
  raw_content : json;
  raw_usage : option (Json.value * Json.value);
  raw_toolCalls : option (list json)
}.

Definition or_empty (v : Json.value) : json :=
  match v with
  | Some w => if Json.truthy v then w else JString ""
  | None => JString ""
  end.

(** [c.type === 'tool_use'] *)
Definition is_tool_use (c : json) : Exc bool :=
  match c with
  | JNull => Throws TypeError
  | _ => Returns match Json.prop "type" c with
                 | Some (JString t) => String.eqb t "tool_use"
                 | _ => false
                 end
  end.

Fixpoint filter_tool_use (items : list json) : Exc (list json) :=
  match items with
  | [] => Returns []
  | c :: rest =>
      exc_bind (is_tool_use c) (fun keep =>
      exc_bind (filter_tool_use rest) (fun kept =>
      Returns (if keep then c :: kept else kept)))
  end.

(** [response.content?.filter(...)]: only an array has [filter]. *)
Definition tool_uses (content : Json.value) : Exc (option (list json)) :=
  match content with
  | None | Some JNull => Returns None
  | Some (JArray items) => exc_bind (filter_tool_use items)
                                    (fun l => Returns (Some l))
  | Some _ => Throws (ErrorObject "response.content.filter is not a function")
  end.

Definition chat (this : BaseLLM) (messages : list Message.t)
    (tools : option (list json)) : SE Wire RawResponse :=
  se_lift (validateMessages messages) ;;
  response <- makeRequest this (request_data this messages tools false) ;;
  content <- se_lift (get "content" (Some response)) ;;
  usage <- se_lift (get "usage" (Some response)) ;;
  toolCalls <- se_lift (tool_uses content) ;;
  se_ret (mkRaw
            (or_empty (Json.opt_prop "text" (Json.opt_index0 content)))
            (if Json.truthy usage
             then Some (Json.opt_prop "input_tokens" usage,
                        Json.opt_prop "output_tokens" usage)
             else None)
            toolCalls).

Definition handle_line (line : string) : SE Wire unit :=
  let trimmed := JS.trim line in
  if String.eqb trimmed "" || negb (JS.startsWith "data: " trimmed)
  then se_ret tt
  else
    se_catch
      (data <- se_lift (Json.parse (JS.string_drop 6 trimmed)) ;;
       type <- se_lift (get "type" (Some data)) ;;
       let text := Json.opt_prop "text" (Json.prop "delta" data) in
       (if match type with
            | Some (JString t) => String.eqb t "content_block_delta"
            | _ => false
            end && Json.truthy text
        then do_yield (mkWireChunk text None false)
        else se_ret tt) ;;
       (if match type with
            | Some (JString t) => String.eqb t "message_stop"
            | _ => false
            end
        then do_yield (mkWireChunk None None true)
        else se_ret tt))
      (fun _ => se_ret tt).

Definition stream (this : BaseLLM) (messages : list Message.t)
    (tools : option (list json)) : SE Wire unit :=
  se_lift (validateMessages messages) ;;
  response <- do_fetch fetch (mkRequest (messages_url this) (apiKey this)
                                  (request_data this messages tools true)) ;;
  if negb (ok response)
  then error <- se_lift (response_text response) ;;
       se_throw (api_error response error)
  else read_body handle_line response.

End WithNetwork.
End AnthropicLLM.

End LLM.

(** ** The agent ([simple-agent.ts])

    The memory of the agent is a [SimpleDictMemory], the default of the
    constructor; its [getMessages] hands out a copy, so that what [chat]
    does to the list it sends leaves the memory alone.  The listeners of
    the events that the agent emits are observers: an event goes to the
    trace and no listener throws.  The event that the constructor emits,
    which no listener can hear yet, is left out. *)

Module Agent.

Import LLM.

(** The other side of [this.llm]: any [BaseLLM].  The answer may depend on
    how many calls were made before ([calls]) and on the arguments.  A
    stream is the chunks it yields when read to its end, and the exception
    that ends it, if any. *)
Record Provider : Type := mkProvider {
  provider_chat :
    nat -> list Message.t -> option (list json) -> Exc LLMResponse.t;
  provider_stream :
    nat -> list Message.t -> option (list json)
    -> list StreamChunk.t * option Thrown
}.

(** The fields of an agent that a call does not change. *)
Record Agent : Type := mkAgent {
  id : string;
  name : string;
  llm : Provider;
  systemPrompt : string;
  maxMemoryMessages : Z;
  enableStreaming : bool;
  clock : nat -> Z                (* the successive readings of the clock *)
}.

(** What a call does to the outside, in order: the events it emits
    ([Emit...]), the calls it makes into the memory, the provider and the
    tool registry ([Call...]), and the chunks that [stream] yields. *)
Inductive Event : Type :=
| EmitChatStart (message : string)
| EmitMessageAdded (m : Message.t)
| EmitToolCall (tc : ToolCall.t)
| EmitToolResult (r : ToolResult.t)
| EmitLlmRequest (messages : list Message.t) (tools : list json)
| EmitLlmResponse (r : LLMResponse.t)
| EmitChatComplete (r : AgentResponse.t)
| EmitChatError (e : Thrown)
| EmitStreamStart (message : string)
| EmitStreamChunk (c : StreamChunk.t)
| EmitStreamComplete
| EmitStreamError (e : Thrown)
| EmitToolRegistered (name : string)
| EmitHistoryCleared
| CallAddMessage (m : Message.t)
| CallChat (messages : list Message.t) (tools : option (list json))
| CallStream (messages : list Message.t) (tools : option (list json))
| CallExecuteTool (tc : ToolCall.t)
| YieldChunk (c : StreamChunk.t).

(** What a call can change. *)
Record State : Type := mkState {
  memory : SimpleDictMemory.t;
  toolRegistry : Tools.ToolRegistry;
  trace : list Event;
  llm_calls : nat;
  clock_reads : nat
}.

(** [new Agent(config)], the agent's state at its creation. *)
Definition initial (memory : option SimpleDictMemory.t)
    (toolRegistry : option Tools.ToolRegistry) : State :=
  mkState (match memory with Some m => m | None => SimpleDictMemory.default end)
          (match toolRegistry with Some r => r | None => Tools.empty end)
          [] 0 0.

Definition new (id : string) (name : option string) (llm : Provider)
    (systemPrompt : option string) (maxMemoryMessages : option Z)
    (enableStreaming : option bool) (clock : nat -> Z) : Agent :=
  mkAgent id
          (match name with
           | Some n => if JS.truthy_string n then n else "NiflheimAgent"
           | None => "NiflheimAgent"
           end)
          llm
          (match systemPrompt with
           | Some p => if JS.truthy_string p then p
                       else "You are a helpful AI assistant."
           | None => "You are a helpful AI assistant."
           end)
          (match maxMemoryMessages with
           | Some n => if n =? 0 then 50 else n
           | None => 50
           end)
          (match enableStreaming with Some b => b | None => false end)
          clock.

Local Open Scope se_scope.

Definition emit (e : Event) : SE State unit :=
  se_modify (fun s => mkState (memory s) (toolRegistry s) (trace s ++ [e])
                              (llm_calls s) (clock_reads s)).

(** [new Date()] and [Date.now()] *)
Definition read_clock (this : Agent) : SE State Z :=
  fun s => (Returns (clock this (clock_reads s)),
            mkState (memory s) (toolRegistry s) (trace s) (llm_calls s)
                    (S (clock_reads s))).

(** [this.memory.addMessage(message)] *)
Definition memory_addMessage (message : Message.t) : SE State unit :=
  se_modify (fun s => mkState (SimpleDictMemory.addMessage message (memory s))
                              (toolRegistry s)
                              (trace s ++ [CallAddMessage message])
                              (llm_calls s) (clock_reads s)).

(** [this.llm.chat(messages, tools)] *)
Definition llm_chat (this : Agent) (messages : list Message.t)
    (tools : option (list json)) : SE State LLMResponse.t :=
  fun s => (provider_chat (llm this) (llm_calls s) messages tools,
            mkState (memory s) (toolRegistry s)
                    (trace s ++ [CallChat messages tools])
                    (S (llm_calls s)) (clock_reads s)).

(** [this.llm.stream(messages, tools)] *)
Definition llm_stream (this : Agent) (messages : list Message.t)
    (tools : option (list json))
  : SE State (list StreamChunk.t * option Thrown) :=
  fun s => (Returns (provider_stream (llm this) (llm_calls s) messages tools),
            mkState (memory s) (toolRegistry s)
                    (trace s ++ [CallStream messages tools])
                    (S (llm_calls s)) (clock_reads s)).

(** [this.toolRegistry.executeTool(toolCall)]: the clock is read at the
    start, and once more for the result record, which is not built when
    [executeTool] throws. *)
Definition registry_executeTool (this : Agent) (toolCall : ToolCall.t)
  : SE State ToolResult.t :=
  emit (CallExecuteTool toolCall) ;;
  startTime <- read_clock this ;;
  s <- se_get ;;
  result <- se_lift (Tools.executeTool (toolRegistry s) toolCall startTime
                                       (clock this (clock_reads s))) ;;
  read_clock this ;;
  se_ret result.

(** [getInfo()] *)
Definition getInfo (this : Agent) (s : State) : string * string * Z :=
  (id this, name this,
   Z.of_nat (length (SimpleDictMemory.getMessages (memory s)))).

(** [addMessage(message)] *)
Definition addMessage (message : Message.t) : SE State unit :=
  memory_addMessage message ;;
  emit (EmitMessageAdded message).

(** [getMessages()]: [messages] is what [this.memory.getMessages()] gave. *)
Definition recent_with_system (this : Agent) (messages : list Message.t)
  : list Message.t :=
  if maxMemoryMessages this <? Z.of_nat (length messages)
  then
    let systemMessages := List.filter Message.is_system messages in
    let otherMessages :=
      List.filter (fun m => negb (Message.is_system m)) messages in
    let recentMessages :=
      JS.slice_from (- maxMemoryMessages this
                     + Z.of_nat (length systemMessages)) otherMessages in
    systemMessages ++ recentMessages
  else messages.

Definition getMessages (this : Agent) (s : State) : list Message.t :=
  recent_with_system this (SimpleDictMemory.getMessages (memory s)).

(** [convertToolCalls(llmToolCalls)] *)
Definition convertToolCalls (llmToolCalls : list LLMToolCall.t)
  : Exc (list ToolCall.t) :=
  exc_map (fun tc =>
             exc_bind (Json.parse (LLMToolCall.arguments
                                     (LLMToolCall.function tc)))
                      (fun arguments =>
                         Returns (ToolCall.mk
                                    (LLMToolCall.name (LLMToolCall.function tc))
                                    arguments
                                    (LLMToolCall.id tc))))
          llmToolCalls.

(** [executeToolCalls(toolCalls)] *)
Fixpoint executeToolCalls (this : Agent) (toolCalls : list ToolCall.t)
  : SE State (list ToolResult.t) :=
  match toolCalls with
  | [] => se_ret []
  | toolCall :: rest =>
      emit (EmitToolCall toolCall) ;;
      result <- registry_executeTool this toolCall ;;
      emit (EmitToolResult result) ;;
      results <- executeToolCalls this rest ;;
      se_ret (result :: results)
  end.

(** [result.error || JSON.stringify(result.result)] *)
Definition tool_message_content (result : ToolResult.t)
  : Exc (option string) :=
  if JS.truthy_opt_string (ToolResult.error result)
  then Returns (ToolResult.error result)
  else JSON_stringify (ToolResult.result result).

(** The user's message goes into the memory, and the list for the provider
    is the history, with the system prompt in front when the history has
    no system message. *)
Definition prepare (this : Agent) (userMessage : string)
  : SE State (list Message.t) :=
  now <- read_clock this ;;
  addMessage (Message.mk (Some User) (Some userMessage) None None now) ;;
  s <- se_get ;;
  let messages := getMessages this s in
  if negb (existsb Message.is_system messages)
  then
    now <- read_clock this ;;
    se_ret (Message.mk (Some System) (Some (systemPrompt this)) None None now
              :: messages)
  else se_ret messages.

(** [tools.length > 0 ? tools : undefined] *)
Definition tools_argument (tools : list json) : option (list json) :=
  match tools with
  | [] => None
  | _ :: _ => Some tools
  end.

(** The body of the loop over the tool results: one tool-role message for
    a result. *)
Definition add_tool_message (this : Agent) (result : ToolResult.t)
  : SE State unit :=
  content <- se_lift (tool_message_content result) ;;
  now <- read_clock this ;;
  addMessage (Message.mk (Some Tool) content None
                         (Some (ToolResult.callId result)) now).

(** The branch of [chat] for a response with tool calls: it gives the
    final content and all the tool calls. *)
Definition resolve_tools (this : Agent) (response : LLMResponse.t)
    (llmToolCalls : list LLMToolCall.t)
  : SE State (string * list ToolCall.t) :=
  convertedToolCalls <- se_lift (convertToolCalls llmToolCalls) ;;
  toolResults <- executeToolCalls this convertedToolCalls ;;
  now <- read_clock this ;;
  addMessage (Message.mk (Some Assistant)
                         (Some (LLMResponse.content response))
                         (Some convertedToolCalls) None now) ;;
  se_for toolResults (add_tool_message this) ;;
  s <- se_get ;;
  let updatedMessages := getMessages this s in
  followupResponse <- llm_chat this updatedMessages None ;;
  followupConverted <-
    match LLMResponse.toolCalls followupResponse with
    | Some calls => se_lift (convertToolCalls calls)
    | None => se_ret []
    end ;;
  se_ret (LLMResponse.content followupResponse,
          convertedToolCalls ++ followupConverted).

Definition or_zero (n : option Z) : Z :=
  match n with Some k => k | None => 0 end.

(** The end of the [try] block of [chat]: the final assistant message and
    the response for the caller. *)
Definition conclude (this : Agent) (response : LLMResponse.t)
    (final : string * list ToolCall.t) : SE State AgentResponse.t :=
  now <- read_clock this ;;
  addMessage (Message.mk (Some Assistant) (Some (fst final)) None None now) ;;
  s <- se_get ;;
  let agentResponse :=
    AgentResponse.mk
      (fst final) (snd final)
      (AgentResponse.mk_metadata
         (id this) (name this)
         (Z.of_nat (length (SimpleDictMemory.getMessages (memory s)))))
      (option_map
         (fun u => AgentResponse.mk_usage
                     (or_zero (LLMResponse.promptTokens u))
                     (or_zero (LLMResponse.completionTokens u))
                     (or_zero (LLMResponse.totalTokens u)))
         (LLMResponse.usage response))
      "stop" in
  emit (EmitChatComplete agentResponse) ;;
  se_ret agentResponse.

(** The [try] block of [chat]. *)
Definition attempt (this : Agent) (messages : list Message.t)
    (tools : list json) : SE State AgentResponse.t :=
  emit (EmitLlmRequest messages tools) ;;
  response <- llm_chat this messages (tools_argument tools) ;;
  emit (EmitLlmResponse response) ;;
  final <-
    match LLMResponse.toolCalls response with
    | Some (c :: cs) => resolve_tools this response (c :: cs)
    | _ => se_ret (LLMResponse.content response, [])
    end ;;
  conclude this response final.

(** [chat(userMessage)] *)
Definition chat (this : Agent) (userMessage : string)
  : SE State AgentResponse.t :=
  emit (EmitChatStart userMessage) ;;
  messages <- prepare this userMessage ;;
  s <- se_get ;;
  let tools := Tools.getOpenAITools (toolRegistry s) in
  se_catch (attempt this messages tools)
           (fun error => emit (EmitChatError error) ;; se_throw error).

(** The caller of [stream] is a loop over the generator ([for await], or
    [next()] by hand): it asks for the first chunk, and with each chunk it
    is given it either asks for the next one or leaves (a [break], a
    [return], which close the generator where it stands, at its [yield]).
    A caller says whether it leaves, given the chunks it has received so
    far, the newest last; whatever else its decision depends on, in one
    run it is a function of these chunks, as there is one more of them at
    every [yield]. *)
Definition Caller : Type := list StreamChunk.t -> bool.

(** The caller that goes on until the generator is done. *)
Definition reads_to_the_end : Caller := fun _ => false.

(** [if (chunk.finished) break], the loop of the package's documentation. *)
Definition leaves_when_finished : Caller :=
  fun received =>
    match List.last (List.map StreamChunk.finished received) None with
    | Some true => true
    | _ => false
    end.

(** How a run of the generator ends when it does not throw: it is done, or
    the caller has closed it. *)
Inductive StreamEnd : Type := Done | ClosedByCaller.

(** The [for await] loop of [stream]: every chunk is yielded, its content
    is added to [fullContent], and a finished chunk ends the loop.  The
    loop gives [fullContent], or nothing when the caller left at a
    [yield]: the generator is closed there, and the code after the [yield]
    does not run. *)
Fixpoint consume (caller : Caller) (chunks : list StreamChunk.t)
    (failure : option Thrown) (received : list StreamChunk.t)
    (fullContent : string) : SE State (option string) :=
  match chunks with
  | [] =>
      match failure with
      | Some e => se_throw e
      | None => se_ret (Some fullContent)
      end
  | chunk :: rest =>
      let fullContent' :=
        match StreamChunk.content chunk with
        | Some text =>
            if JS.truthy_string text then fullContent +:+ text
            else fullContent
        | None => fullContent
        end in
      emit (EmitStreamChunk chunk) ;;
      emit (YieldChunk chunk) ;;
      if caller (received ++ [chunk]) then se_ret None
      else
        match StreamChunk.finished chunk with
        | Some true => se_ret (Some fullContent')
        | _ => consume caller rest failure (received ++ [chunk]) fullContent'
        end
  end.

(** The [try] block of [stream]. *)
Definition attempt_stream (this : Agent) (caller : Caller)
    (messages : list Message.t) (tools : list json) : SE State StreamEnd :=
  produced <- llm_stream this messages (tools_argument tools) ;;
  left <- consume caller (fst produced) (snd produced) [] "" ;;
  match left with
  | None => se_ret ClosedByCaller
  | Some fullContent =>
      (if JS.truthy_string fullContent
       then
         now <- read_clock this ;;
         addMessage (Message.mk (Some Assistant) (Some fullContent)
                                None None now)
       else se_ret tt) ;;
      emit EmitStreamComplete ;;
      se_ret Done
  end.

(** [stream(userMessage)], read by [caller]. *)
Definition stream (this : Agent) (userMessage : string) (caller : Caller)
  : SE State StreamEnd :=
  emit (EmitStreamStart userMessage) ;;
  messages <- prepare this userMessage ;;
  s <- se_get ;;
  let tools := Tools.getOpenAITools (toolRegistry s) in
  se_catch (attempt_stream this caller messages tools)
           (fun error => emit (EmitStreamError error) ;; se_throw error).

(** [registerTool(tool)] *)
Definition registerTool (tool : Tools.Tool) : SE State unit :=
  se_modify (fun s => mkState (memory s)
                              (Tools.registerTool tool (toolRegistry s))
                              (trace s) (llm_calls s) (clock_reads s)) ;;
  emit (EmitToolRegistered (Tools.name tool)).

(** [clearHistory()] *)
Definition clearHistory : SE State unit :=
  se_modify (fun s => mkState (SimpleDictMemory.clear (memory s))
                              (toolRegistry s) (trace s) (llm_calls s)
                              (clock_reads s)) ;;
  emit EmitHistoryCleared.

Definition getSessionId (this : Agent) : string := id this.

(** *** Reading a trace *)

Definition executed (e : Event) : list ToolCall.t :=
  match e with CallExecuteTool tc => [tc] | _ => [] end.

Definition requested (e : Event)
  : list (list Message.t * option (list json)) :=
  match e with CallChat messages tools => [(messages, tools)] | _ => [] end.

Definition appended (e : Event) : list Message.t :=
  match e with CallAddMessage m => [m] | _ => [] end.

Definition forwarded (e : Event) : list StreamChunk.t :=
  match e with YieldChunk c => [c] | _ => [] end.

(** The tool calls executed, the requests sent to the provider, the
    messages appended to the memory and the chunks yielded, each in the
    order of the trace. *)
Definition executions (t : list Event) : list ToolCall.t :=
  flat_map executed t.
Definition requests (t : list Event)
  : list (list Message.t * option (list json)) := flat_map requested t.
Definition appends (t : list Event) : list Message.t := flat_map appended t.
Definition yields (t : list Event) : list StreamChunk.t :=
  flat_map forwarded t.

(** The calls into memory, provider and registry, the emitted events left
    out. *)
Definition is_call (e : Event) : bool :=
  match e with
  | CallAddMessage _ | CallChat _ _ | CallStream _ _ | CallExecuteTool _ => true
  | _ => false
  end.

Definition calls (t : list Event) : list Event := List.filter is_call t.

End Agent.

(** ** The other backends ([memory.ts]) *)

(** [SQLiteMemory]: its constructor sets the fields and throws, and each of
    its methods throws. *)
Module SQLiteMemory.
Record t : Type := mk {
  dbPath : string;
  maxMessages : Z
}.

Definition new (dbPath : option string) (maxMessages : option Z) : Exc t :=
  Throws (ErrorObject
            "SQLite memory backend not yet implemented for TypeScript").

Definition addMessage (sessionId : string) (message : Message.t) (this : t)
  : Exc t := Throws (ErrorObject "Not implemented").

Definition getMessages (sessionId : string) (limit : option Z) (this : t)
  : Exc (list Message.t) := Throws (ErrorObject "Not implemented").

Definition clearSession (sessionId : string) (this : t) : Exc t :=
  Throws (ErrorObject "Not implemented").

Definition getSessionCount (sessionId : string) (this : t) : Exc Z :=
  Throws (ErrorObject "Not implemented").
End SQLiteMemory.

(** A [MemoryBackend]: an instance of one of its two classes. *)
Inductive MemoryBackend : Type :=
| DictBackend (memory : DictMemory.t)
| SQLiteBackend (memory : SQLiteMemory.t).

(** [createMemoryBackend(backendType)] *)
Definition createMemoryBackend (backendType : string) : Exc MemoryBackend :=
  if String.eqb backendType "memory" || String.eqb backendType "dict"
  then Returns (DictBackend DictMemory.default)
  else if String.eqb backendType "sqlite"
  then exc_bind (SQLiteMemory.new None None)
                (fun memory => Returns (SQLiteBackend memory))
  else Throws (ErrorObject ("Unsupported backend type: " +:+ backendType)).

(** ** Notions used to state the properties *)

(** The last [n] elements of a list (all of it, when it is shorter). *)
Definition keep_last {A : Type} (n : nat) (l : list A) : list A :=
  skipn (length l - n) l.

(** A tool result has exactly one of [result] and [error]. *)
Definition exactly_one_set (r : ToolResult.t) : Prop :=
  (ToolResult.result r <> None /\ ToolResult.error r = None)
  \/ (ToolResult.result r = None /\ ToolResult.error r <> None).



(** The record that [executeTool] returns for the value [v] of the call. *)
Definition succeeded (toolCall : ToolCall.t) (v : Value)
    (startTime endTime : Z) : ToolResult.t :=
  ToolResult.mk (ToolCall.callId toolCall) (Some v) None
                (endTime - startTime).

(** The record that [executeTool] returns for a failure of the call, of
    which [text] is the message. *)
Definition failed (toolCall : ToolCall.t) (text : string)
    (startTime endTime : Z) : ToolResult.t :=
  ToolResult.mk (ToolCall.callId toolCall) None (Some text)
                (endTime - startTime).

(** The timer of [delay] milliseconds has fired while the promise was
    pending: before the promise settled, the event loop was at its timers
    at a time when the delay had passed. *)
Definition timer_has_fired (delay : Z) (timers : option Z) : Prop :=
  exists c, timers = Some c /\ delay <= c.

(** The call of the handler comes to the value [v] before the timer of
    [delay] milliseconds can fire: the handler returns it, or a promise
    fulfilled with it; or the promise that the handler returned is
    fulfilled with it and the timer has not fired before. *)
Inductive gives (delay : Z) : Tools.HandlerRun -> Value -> Prop :=
| value_at_return elapsed v :
    gives delay (Tools.SettledAtReturn elapsed (Tools.Fulfilled v)) v
| value_later t v timers :
    ~ timer_has_fired delay timers ->
    gives delay (Tools.PendingAtReturn t (Tools.Fulfilled v) timers) v.

(** The call of the handler fails with [e]: the handler throws [e]; or it
    returns a promise rejected with [e]; or the promise that it returned
    is rejected with [e] and the timer has not fired before; or [e] is the
    time-out error and the timer has fired while the promise was pending,
    whatever the promise does later, or the promise never settles. *)
Inductive fails_with (delay : Z) : Tools.HandlerRun -> Thrown -> Prop :=
| thrown_at_call e : fails_with delay (Tools.ThrowsAtCall e) e
| rejected_at_return elapsed e :
    fails_with delay (Tools.SettledAtReturn elapsed (Tools.Rejected e)) e
| rejected_later t e timers :
    ~ timer_has_fired delay timers ->
    fails_with delay (Tools.PendingAtReturn t (Tools.Rejected e) timers) e
| timer_first t s timers :
    timer_has_fired delay timers ->
    fails_with delay (Tools.PendingAtReturn t s timers) Tools.timeout_error
| timer_alone : fails_with delay Tools.NeverSettles Tools.timeout_error.

(** A message of which [validateMessages] says that it has no role or no
    content: the role is missing, or the content is missing or empty. *)
Definition lacks_role_or_content (m : Message.t) : Prop :=
  Message.role m = None \/ JS.truthy_opt_string (Message.content m) = false.

(** An assistant turn that only carries tool calls: its content is the
    empty string. *)
Definition tool_call_only_turn (m : Message.t) : Prop :=
  Message.role m = Some Assistant
  /\ Message.content m = Some ""
  /\ exists c cs, Message.toolCalls m = Some (c :: cs).

(** What the specification lets through: a role, and a content that is not
    empty unless the message is a tool-call-only assistant turn. *)
Definition allowed_by_the_specification (m : Message.t) : Prop :=
  Message.role m <> None
  /\ (JS.truthy_opt_string (Message.content m) = true
      \/ tool_call_only_turn m).

(** A call that throws [e] and leaves the wire as it was: no request was
    sent, no chunk was yielded. *)
Definition refused_with {A : Type}
    (e : Thrown) (call : SE LLM.Wire A) (w : LLM.Wire) : Prop :=
  call w = (Throws e, w).

(** The chunks that the OpenAI adapter yields for a sequence of complete
    lines. *)
Definition openai_chunks (lines : list string) : list LLM.WireChunk :=
  LLM.yielded (snd (se_for lines LLM.OpenAILLM.handle_line LLM.no_traffic)).

(** *** Runs of the agent *)

(** The events that a run adds to the trace. *)
Definition events_of {A : Type} (run : SE Agent.State A) (s : Agent.State)
  : list Agent.Event :=
  skipn (length (Agent.trace s)) (Agent.trace (snd (run s))).

(** The message that [chat] and [stream] make of the user's text: the
    first reading of the clock is its time stamp. *)
Definition user_message (this : Agent.Agent) (s : Agent.State)
    (userMessage : string) : Message.t :=
  Message.mk (Some User) (Some userMessage) None None
             (Agent.clock this (Agent.clock_reads s)).

(** The history that [getMessages()] assembles once the user's message is
    in the memory. *)
Definition assembled_history (this : Agent.Agent) (s : Agent.State)
    (userMessage : string) : list Message.t :=
  Agent.recent_with_system this
    (SimpleDictMemory.getMessages
       (SimpleDictMemory.addMessage (user_message this s userMessage)
                                    (Agent.memory s))).

Definition system_message (this : Agent.Agent) (reading : nat) : Message.t :=
  Message.mk (Some System) (Some (Agent.systemPrompt this)) None None
             (Agent.clock this reading).

Definition has_system (messages : list Message.t) : bool :=
  existsb Message.is_system messages.

(** The list of the first request: the history, after the system prompt
    when it has no system message. *)
Definition outbound (this : Agent.Agent) (s : Agent.State)
    (userMessage : string) : list Message.t :=
  let history := assembled_history this s userMessage in
  if negb (has_system history)
  then system_message this (S (Agent.clock_reads s)) :: history
  else history.

(** The tools of the first request. *)
Definition offered_tools (s : Agent.State) : option (list json) :=
  Agent.tools_argument (Tools.getOpenAITools (Agent.toolRegistry s)).

(** The answer of the provider to the first request of [chat]. *)
Definition first_answer (this : Agent.Agent) (s : Agent.State)
    (userMessage : string) : Exc LLM.LLMResponse.t :=
  Agent.provider_chat (Agent.llm this) (Agent.llm_calls s)
                      (outbound this s userMessage) (offered_tools s).

(** How many of the messages are system messages. *)
Definition system_count (messages : list Message.t) : nat :=
  length (List.filter Message.is_system messages).

(** Exactly one system message, and in front. *)
Definition one_system_message_first (messages : list Message.t) : Prop :=
  system_count messages = 1%nat
  /\ exists first rest, messages = first :: rest
                        /\ Message.is_system first = true.

(** The results of the tool calls [tcs], executed one after the other from
    the clock reading [reading] on: each takes two readings.  The first
    call for which [executeTool] throws ends it. *)
Fixpoint tool_results (this : Agent.Agent) (registry : Tools.ToolRegistry)
    (reading : nat) (tcs : list ToolCall.t) : Exc (list ToolResult.t) :=
  match tcs with
  | [] => Returns []
  | tc :: rest =>
      exc_bind (Tools.executeTool registry tc (Agent.clock this reading)
                                  (Agent.clock this (S reading)))
               (fun result =>
      exc_bind (tool_results this registry (S (S reading)) rest)
               (fun results => Returns (result :: results)))
  end.

(** The tool-role message of a result, when its content can be made. *)
Definition tool_message (this : Agent.Agent) (reading : nat)
    (result : ToolResult.t) : Exc Message.t :=
  exc_bind (Agent.tool_message_content result)
           (fun content =>
              Returns (Message.mk (Some Tool) content None
                                  (Some (ToolResult.callId result))
                                  (Agent.clock this reading))).

Fixpoint tool_messages (this : Agent.Agent) (reading : nat)
    (results : list ToolResult.t) : Exc (list Message.t) :=
  match results with
  | [] => Returns []
  | result :: rest =>
      exc_bind (tool_message this reading result) (fun m =>
      exc_bind (tool_messages this (S reading) rest) (fun ms =>
      Returns (m :: ms)))
  end.

(** The tool messages of a tool round: those of the results of the calls
    [tcs], executed from the clock reading [reading] on. *)
Definition tool_round_messages (this : Agent.Agent)
    (registry : Tools.ToolRegistry) (reading : nat) (tcs : list ToolCall.t)
  : Exc (list Message.t) :=
  exc_bind (tool_results this registry reading tcs)
           (tool_messages this (S (reading + 2 * length tcs))).

(** The result of the tool call can be turned into a message:
    [executeTool] returns a result for it, and [JSON.stringify] does not
    throw on that result. *)
Definition serialisable (registry : Tools.ToolRegistry) (tc : ToolCall.t)
  : Prop :=
  forall startTime endTime,
  exists result content,
    Tools.executeTool registry tc startTime endTime = Returns result
    /\ Agent.tool_message_content result = Returns content.

(** The message answers the tool call: a tool-role message with the
    identifier of the call. *)
Definition answers (tc : ToolCall.t) (m : Message.t) : Prop :=
  Message.role m = Some Tool
  /\ Message.toolCallId m = Some (ToolCall.callId tc).

(** The chunks of a stream that the agent receives: those up to the first
    finished one, and that one. *)
Fixpoint received (chunks : list LLM.StreamChunk.t) : list LLM.StreamChunk.t :=
  match chunks with
  | [] => []
  | chunk :: rest =>
      match LLM.StreamChunk.finished chunk with
      | Some true => [chunk]
      | _ => chunk :: received rest
      end
  end.

(** The content deltas of chunks, put together. *)
Fixpoint deltas (chunks : list LLM.StreamChunk.t) : string :=
  match chunks with
  | [] => ""
  | chunk :: rest =>
      match LLM.StreamChunk.content chunk with
      | Some text => text +:+ deltas rest
      | None => deltas rest
      end
  end.

(** The events of the tool calls [tcs], executed one after the other, up
    to the first for which [executeTool] throws. *)
Fixpoint tool_events (this : Agent.Agent) (registry : Tools.ToolRegistry)
    (reading : nat) (tcs : list ToolCall.t) : list Agent.Event :=
  match tcs with
  | [] => []
  | tc :: rest =>
      Agent.EmitToolCall tc
        :: Agent.CallExecuteTool tc
        :: match Tools.executeTool registry tc (Agent.clock this reading)
                                   (Agent.clock this (S reading)) with
           | Returns result =>
               Agent.EmitToolResult result
                 :: tool_events this registry (S (S reading)) rest
           | Throws _ => []
           end
  end.

(** The events of [addMessage] for each of the messages. *)
Definition added_events (ms : list Message.t) : list Agent.Event :=
  flat_map (fun m => [Agent.CallAddMessage m; Agent.EmitMessageAdded m]) ms.

(** The state in which [prepare] leaves the agent. *)
Definition prepared (this : Agent.Agent) (s : Agent.State)
    (userMessage : string) : Agent.State :=
  Agent.mkState
    (SimpleDictMemory.addMessage (user_message this s userMessage)
                                 (Agent.memory s))
    (Agent.toolRegistry s)
    (Agent.trace s ++ added_events [user_message this s userMessage])
    (Agent.llm_calls s)
    (if negb (has_system (assembled_history this s userMessage))
     then S (S (Agent.clock_reads s))
     else S (Agent.clock_reads s)).

(** The assistant message that carries the tool calls. *)
Definition assistant_turn (this : Agent.Agent) (reading : nat)
    (response : LLM.LLMResponse.t) (tcs : list ToolCall.t) : Message.t :=
  Message.mk (Some Assistant) (Some (LLM.LLMResponse.content response))
             (Some tcs) None (Agent.clock this reading).

(** What the branch for tool calls gives, from the provider's answer to
    the follow-up request. *)
Definition followup_outcome (tcs : list ToolCall.t)
    (answer : Exc LLM.LLMResponse.t) : Exc (string * list ToolCall.t) :=
  exc_bind answer (fun followup =>
  exc_bind match LLM.LLMResponse.toolCalls followup with
           | Some calls => Agent.convertToolCalls calls
           | None => Returns []
           end
           (fun followupConverted =>
              Returns (LLM.LLMResponse.content followup,
                       tcs ++ followupConverted))).

(** The state of the agent when the [try] block of [chat] begins. *)
Definition at_attempt (this : Agent.Agent) (s : Agent.State)
    (userMessage : string) : Agent.State :=
  prepared this
    (Agent.mkState (Agent.memory s) (Agent.toolRegistry s)
                   (Agent.trace s ++ [Agent.EmitChatStart userMessage])
                   (Agent.llm_calls s) (Agent.clock_reads s))
    userMessage.

(** The events of a [chat] up to and with its follow-up request. *)
Definition tool_round_events (this : Agent.Agent) (s : Agent.State)
    (userMessage : string) (response : LLM.LLMResponse.t)
    (tcs : list ToolCall.t) (msgs updated : list Message.t)
  : list Agent.Event :=
  let p := at_attempt this s userMessage in
  [Agent.EmitChatStart userMessage]
    ++ added_events [user_message this s userMessage]
    ++ [Agent.EmitLlmRequest (outbound this s userMessage)
          (Tools.getOpenAITools (Agent.toolRegistry s));
        Agent.CallChat (outbound this s userMessage) (offered_tools s);
        Agent.EmitLlmResponse response]
    ++ tool_events this (Agent.toolRegistry s) (Agent.clock_reads p) tcs
    ++ added_events
         (assistant_turn this (Agent.clock_reads p + 2 * length tcs)
                         response tcs
            :: msgs)
    ++ [Agent.CallChat updated None].


(** A computation is tracked when it only adds events to the trace, the
    memory it leaves is the memory it found after the [addMessage] calls of
    these events, and it leaves the tool registry as it was, whether it
    returns or throws. *)
Definition tracked {A : Type} (c : SE Agent.State A) : Prop :=
  forall s, exists new,
    Agent.trace (snd (c s)) = Agent.trace s ++ new
    /\ Agent.memory (snd (c s))
       = SimpleDictMemory.addAll (Agent.appends new) (Agent.memory s)
    /\ Agent.toolRegistry (snd (c s)) = Agent.toolRegistry s.



(** No message of the list is a system message. *)
Definition no_system_message (messages : list Message.t) : Prop :=
  Forall (fun m => Message.is_system m = false) messages.




(** The two requests of a [chat] with a tool round: the first has exactly
    one system message, in front; the follow-up has none. *)
Definition followup_without_system_prompt (this : Agent.Agent)
    (s : Agent.State) (userMessage : string) : Prop :=
  has_system (assembled_history this s userMessage) = false
  /\ exists updated,
       Agent.requests (events_of (Agent.chat this userMessage) s)
       = [(outbound this s userMessage, offered_tools s); (updated, None)]
       /\ one_system_message_first (outbound this s userMessage)
       /\ system_count updated = 0%nat.

(** The events of the chunks that [stream] passes on. *)
Definition chunk_events (chunks : list LLM.StreamChunk.t)
  : list Agent.Event :=
  flat_map (fun c => [Agent.EmitStreamChunk c; Agent.YieldChunk c]) chunks.

(** The stream of the provider for the request of [stream]. *)
Definition provided_stream (this : Agent.Agent) (s : Agent.State)
    (userMessage : string) : list LLM.StreamChunk.t * option Thrown :=
  Agent.provider_stream (Agent.llm this) (Agent.llm_calls s)
                        (outbound this s userMessage) (offered_tools s).

(** The chunks that [stream] yields to a caller who has received [seen]:
    those of the provider's stream up to the first at which the caller
    leaves or which is finished, and that one. *)
Fixpoint delivered (caller : Agent.Caller)
    (seen chunks : list LLM.StreamChunk.t) : list LLM.StreamChunk.t :=
  match chunks with
  | [] => []
  | chunk :: rest =>
      if caller (seen ++ [chunk]) then [chunk]
      else
        match LLM.StreamChunk.finished chunk with
        | Some true => [chunk]
        | _ => chunk :: delivered caller (seen ++ [chunk]) rest
        end
  end.

(** The caller, who has received [seen], leaves at one of the chunks that
    [stream] yields. *)
Fixpoint leaves (caller : Agent.Caller)
    (seen chunks : list LLM.StreamChunk.t) : bool :=
  match chunks with
  | [] => false
  | chunk :: rest =>
      if caller (seen ++ [chunk]) then true
      else
        match LLM.StreamChunk.finished chunk with
        | Some true => false
        | _ => leaves caller (seen ++ [chunk]) rest
        end
  end.

(** [stream] runs to its end; it has yielded the chunks received, in their
    order; and after the user's message it has appended one assistant
    message with the deltas put together when they are not empty, and
    nothing when they are. *)
Definition stream_forwards_and_commits (this : Agent.Agent)
    (s : Agent.State) (userMessage : string) (caller : Agent.Caller)
    (chunks : list LLM.StreamChunk.t) : Prop :=
  fst (Agent.stream this userMessage caller s) = Returns Agent.Done
  /\ Agent.yields (events_of (Agent.stream this userMessage caller) s)
     = received chunks
  /\ exists reading,
       Agent.appends (events_of (Agent.stream this userMessage caller) s)
       = user_message this s userMessage
           :: (if JS.truthy_string (deltas (received chunks))
               then [Message.mk (Some Assistant)
                                (Some (deltas (received chunks)))
                                None None (Agent.clock this reading)]
               else []).

(** The caller has left [stream] at a chunk: the chunks up to that one were
    yielded, the user's message is the only message appended, and the
    last event is the yield of that chunk: nothing says that the stream is
    complete, or that it failed. *)
Definition stream_is_left (this : Agent.Agent) (s : Agent.State)
    (userMessage : string) (caller : Agent.Caller)
    (chunks : list LLM.StreamChunk.t) : Prop :=
  fst (Agent.stream this userMessage caller s) = Returns Agent.ClosedByCaller
  /\ Agent.yields (events_of (Agent.stream this userMessage caller) s)
     = delivered caller [] chunks
  /\ Agent.appends (events_of (Agent.stream this userMessage caller) s)
     = [user_message this s userMessage]
  /\ Agent.memory (snd (Agent.stream this userMessage caller s))
     = SimpleDictMemory.addMessage (user_message this s userMessage)
                                   (Agent.memory s)
  /\ exists before chunk,
       events_of (Agent.stream this userMessage caller) s
       = before ++ [Agent.YieldChunk chunk]
       /\ ~ In Agent.EmitStreamComplete before.


(** ** Sample agents, for the examples below *)

Module Samples.

(** A tool whose promise is fulfilled after five milliseconds, the event
    loop being free in between. *)
Definition weather_tool : Tools.Tool :=
  Tools.createTool "get_weather" "The weather in a city"
    (fun _ => Tools.PendingAtReturn
                5 (Tools.Fulfilled (Data (JString "Sunny, 22C"))) (Some 4))
    None None.

Definition weather_call (arguments : string) : LLM.LLMToolCall.t :=
  LLM.LLMToolCall.mk "call-1" "function"
    (LLM.LLMToolCall.mk_function "get_weather" arguments).

Definition hello_chunks : list LLM.StreamChunk.t :=
  [LLM.StreamChunk.mk (Some "Hel") None None None;
   LLM.StreamChunk.mk (Some "lo") None None None;
   LLM.StreamChunk.mk None None (Some true) None].

Definition tokyo_call : LLM.LLMToolCall.t :=
  weather_call (JS.dq "{'city':'Tokyo'}").

Definition tokyo_tool_call : ToolCall.t :=
  ToolCall.mk "get_weather" (JObject [("city", JString "Tokyo")]) "call-1".


(** A provider that first asks for the weather, with the given text as
    arguments of the call, and then answers; its stream says Hello. *)
Definition weather_provider (arguments : string) : Agent.Provider :=
  Agent.mkProvider
    (fun calls _ _ =>
       match calls with
       | O => Returns (LLM.LLMResponse.mk "" None
                         (Some [weather_call arguments]))
       | _ => Returns (LLM.LLMResponse.mk "It is sunny." None None)
       end)
    (fun _ _ _ => (hello_chunks, None)).


Definition failing_followup_provider : Agent.Provider :=
  Agent.mkProvider
    (fun calls _ _ =>
       match calls with
       | O => Returns (LLM.LLMResponse.mk "" None
                         (Some [weather_call (JS.dq "{'city':'Tokyo'}")]))
       | _ => Throws (ErrorObject "503")
       end)
    (fun _ _ _ => ([], Some (ErrorObject "503"))).

(** A provider whose stream is a single chunk that only says that the
    stream is finished. *)
Definition silent_provider : Agent.Provider :=
  Agent.mkProvider
    (fun _ _ _ => Returns (LLM.LLMResponse.mk "" None None))
    (fun _ _ _ => ([LLM.StreamChunk.mk None None (Some true) None], None)).

Definition ticking (n : nat) : Z := Z.of_nat n.

Definition agent_of (provider : Agent.Provider) : Agent.Agent :=
  Agent.new "agent-1" None provider None None None ticking.

(** The provider's call has arguments that parse, or the text of an open
    brace, which does not. *)
Definition weather_agent : Agent.Agent :=
  agent_of (weather_provider (JS.dq "{'city':'Tokyo'}")).
Definition garbled_agent : Agent.Agent := agent_of (weather_provider "{").

(** A new agent with the default memory and the weather tool. *)
Definition fresh : Agent.State :=
  Agent.initial None (Some (Tools.registerTool weather_tool Tools.empty)).




Definition patient_call : ToolCall.t :=
  ToolCall.mk "patient" (JObject []) "call-2".



(** A tool whose handler throws an object without prototype: [String(_)]
    throws a [TypeError] on it. *)
Definition opaque_error : Thrown :=
  Unprintable (ErrorObject "Cannot convert object to primitive value").

Definition opaque_tool : Tools.Tool :=
  Tools.createTool "opaque" "throws an object without prototype"
    (fun _ => Tools.ThrowsAtCall opaque_error)
    None None.

Definition opaque_call : ToolCall.t :=
  ToolCall.mk "opaque" (JObject []) "call-4".

(** A tool whose handler throws an [Error], and one whose promise is
    rejected with the number 42 after five milliseconds. *)
Definition failing_tool : Tools.Tool :=
  Tools.createTool "failing" "throws an error"
    (fun _ => Tools.ThrowsAtCall (ErrorObject "boom"))
    None None.

Definition failing_call : ToolCall.t :=
  ToolCall.mk "failing" (JObject []) "call-5".

Definition rejecting_tool : Tools.Tool :=
  Tools.createTool "rejecting" "rejects with a number"
    (fun _ => Tools.PendingAtReturn 5 (Tools.Rejected (OtherValue "42"))
                                    (Some 4))
    None None.

Definition rejecting_call : ToolCall.t :=
  ToolCall.mk "rejecting" (JObject []) "call-6".


(** A history as [Agent.chat] leaves it after a tool round with the OpenAI
    adapter, whose answer to a tool request has an empty content. *)
Definition history_with_tool_turn : list Message.t :=
  [Message.mk (Some User) (Some "weather?") None None 0;
   Message.mk (Some Assistant) (Some "")
              (Some [ToolCall.mk "get_weather" (JObject []) "call-1"]) None 1].

(** A data line with a content delta. *)
Definition delta_line : string :=
  JS.dq "data: {'choices':[{'delta':{'content':'x'}}]}".

(** A response whose body is one read: the sentinel, then a data line. *)
Definition body_with_late_line : LLM.Response :=
  LLM.mkResponse true 200
    (Some ["data: [DONE]" +:+ String JS.newline delta_line
           +:+ String JS.newline ""])
    None.


(** A response whose body comes in two reads: the sentinel in the first,
    a data line in the second. *)
Definition body_in_two_reads : LLM.Response :=
  LLM.mkResponse true 200
    (Some ["data: [DONE]" +:+ String JS.newline "";
           delta_line +:+ String JS.newline ""])
    None.

End Samples.

(** ** Further notions *)

(** The registry after [registerTool] was called for each of the tools, in
    their order, on a new registry. *)
Definition registered (tools : list Tools.Tool) : Tools.ToolRegistry :=
  fold_left (fun registry tool => Tools.registerTool tool registry)
            tools Tools.empty.

(** What an entry of [getOpenAITools()] says of a tool, what an entry of
    [getAnthropicTools()] says, and what the tool has: the name, the
    description and the parameters. *)
Definition openai_entry (entry : json)
  : Json.value * Json.value * Json.value :=
  let described := Json.prop "function" entry in
  (Json.opt_prop "name" described, Json.opt_prop "description" described,
   Json.opt_prop "parameters" described).

Definition anthropic_entry (entry : json)
  : Json.value * Json.value * Json.value :=
  (Json.prop "name" entry, Json.prop "description" entry,
   Json.prop "input_schema" entry).

Definition tool_entry (tool : Tools.Tool)
  : Json.value * Json.value * Json.value :=
  (Some (JString (Tools.name tool)), Some (JString (Tools.description tool)),
   Some (Tools.parameters tool)).

(** The entries of a registry: each under the name of its tool, and no
    name twice. *)
Definition well_keyed (m : list (string * Tools.Tool)) : Prop :=
  Forall (fun kv => fst kv = Tools.name (snd kv)) m
  /\ List.NoDup (List.map fst m).

(** The [DictMemory] after [addMessage(sessionId, message)] for each entry
    of a log, in the order of the log. *)
Definition add_log (log : list (string * Message.t)) (mem : DictMemory.t)
  : DictMemory.t :=
  fold_left (fun mem entry => DictMemory.addMessage (fst entry) (snd entry) mem)
            log mem.

(** The messages that a log gives to one session. *)
Definition messages_of (sessionId : string) (log : list (string * Message.t))
  : list Message.t :=
  List.map snd
    (List.filter (fun entry => String.eqb (fst entry) sessionId) log).

(** The messages of a list that are not system messages. *)
Definition other_messages (messages : list Message.t) : list Message.t :=
  List.filter (fun m => negb (Message.is_system m)) messages.

(** The system messages of a list. *)
Definition system_messages (messages : list Message.t) : list Message.t :=
  List.filter Message.is_system messages.

(** *** More runs of the agent *)

(** The response asks for no tool: [toolCalls] is missing or empty. *)
Definition no_tool_calls (response : LLM.LLMResponse.t) : Prop :=
  LLM.LLMResponse.toolCalls response = None
  \/ LLM.LLMResponse.toolCalls response = Some [].

(** An exchange without tools, from start to end: the user's message is
    appended, one request is sent, the answer is appended as the
    assistant's message and returned; nothing else happens. *)
Definition plain_exchange (this : Agent.Agent) (s : Agent.State)
    (userMessage : string) (response : LLM.LLMResponse.t) : Prop :=
  exists (agentResponse : AgentResponse.t) (reading : nat),
    let question := user_message this s userMessage in
    let answer :=
      Message.mk (Some Assistant) (Some (LLM.LLMResponse.content response))
                 None None (Agent.clock this reading) in
    fst (Agent.chat this userMessage s) = Returns agentResponse
    /\ AgentResponse.content agentResponse = LLM.LLMResponse.content response
    /\ AgentResponse.toolCalls agentResponse = []
    /\ events_of (Agent.chat this userMessage) s
       = [Agent.EmitChatStart userMessage;
          Agent.CallAddMessage question;
          Agent.EmitMessageAdded question;
          Agent.EmitLlmRequest (outbound this s userMessage)
            (Tools.getOpenAITools (Agent.toolRegistry s));
          Agent.CallChat (outbound this s userMessage) (offered_tools s);
          Agent.EmitLlmResponse response;
          Agent.CallAddMessage answer;
          Agent.EmitMessageAdded answer;
          Agent.EmitChatComplete agentResponse]
    /\ Agent.memory (snd (Agent.chat this userMessage s))
       = SimpleDictMemory.addAll [question; answer] (Agent.memory s).

(** The usage that [chat] reports for a response of the provider: its
    counts, a missing count being 0. *)
Definition reported_usage (response : LLM.LLMResponse.t)
  : option AgentResponse.usage_t :=
  option_map
    (fun u => AgentResponse.mk_usage
                (Agent.or_zero (LLM.LLMResponse.promptTokens u))
                (Agent.or_zero (LLM.LLMResponse.completionTokens u))
                (Agent.or_zero (LLM.LLMResponse.totalTokens u)))
    (LLM.LLMResponse.usage response).

(** What [chat] fills in besides the content and the tool calls: the usage
    of the first response, the reason [stop], and the agent's identity with
    the number of messages that the memory holds when [chat] returns. *)
Definition bookkeeping (this : Agent.Agent) (s : Agent.State)
    (userMessage : string) (agentResponse : AgentResponse.t) : Prop :=
  exists response,
    first_answer this s userMessage = Returns response
    /\ AgentResponse.usage agentResponse = reported_usage response
    /\ AgentResponse.finishReason agentResponse = "stop"
    /\ AgentResponse.metadata agentResponse
       = AgentResponse.mk_metadata
           (Agent.id this) (Agent.name this)
           (Z.of_nat (length (SimpleDictMemory.getMessages
                                (Agent.memory
                                   (snd (Agent.chat this userMessage s)))))).

(** The provider checks the messages as [BaseLLM.validateMessages] does,
    before anything else: what the check throws, [chat] throws. *)
Definition validates (provider : Agent.Provider) : Prop :=
  forall calls messages tools e,
    LLM.validateMessages messages = Throws e ->
    Agent.provider_chat provider calls messages tools = Throws e.

(** The memory and the window have room for [n] more messages. *)
Definition has_room (this : Agent.Agent) (s : Agent.State) (n : nat) : Prop :=
  Z.of_nat (length (SimpleDictMemory.messages (Agent.memory s)) + n)
  <= SimpleDictMemory.maxMessages (Agent.memory s)
  /\ Z.of_nat (length (SimpleDictMemory.messages (Agent.memory s)) + n)
     <= Agent.maxMemoryMessages this.


(** Some chunk of the list says that the stream is finished. *)
Definition has_finished_chunk (chunks : list LLM.StreamChunk.t) : bool :=
  existsb (fun chunk => match LLM.StreamChunk.finished chunk with
                        | Some true => true
                        | _ => false
                        end) chunks.

(** The streams asked of the provider, in the order of the trace. *)
Definition stream_requests (t : list Agent.Event)
  : list (list Message.t * option (list json)) :=
  flat_map (fun e => match e with
                     | Agent.CallStream messages tools => [(messages, tools)]
                     | _ => []
                     end) t.

(** [stream] throws [e] after it has yielded [chunks]: the user's message
    is the only message appended, the error event is the last event, and
    no event says that the stream is complete. *)
Definition stream_breaks (this : Agent.Agent) (s : Agent.State)
    (userMessage : string) (caller : Agent.Caller)
    (chunks : list LLM.StreamChunk.t) (e : Thrown) : Prop :=
  fst (Agent.stream this userMessage caller s) = Throws e
  /\ Agent.yields (events_of (Agent.stream this userMessage caller) s)
     = chunks
  /\ Agent.appends (events_of (Agent.stream this userMessage caller) s)
     = [user_message this s userMessage]
  /\ Agent.memory (snd (Agent.stream this userMessage caller s))
     = SimpleDictMemory.addMessage (user_message this s userMessage)
                                   (Agent.memory s)
  /\ (exists before,
        events_of (Agent.stream this userMessage caller) s
        = before ++ [Agent.EmitStreamError e])
  /\ ~ In Agent.EmitStreamComplete
          (events_of (Agent.stream this userMessage caller) s).

(** *** Adapters *)

(** The lines of a text that are complete, each ended by a newline: the
    pieces of [split], the last one left out. *)
Definition complete_lines_of (text : string) : list string :=
  List.removelast (JS.split_newline text).

(** What is left of a text after its last newline. *)
Definition unfinished_line_of (text : string) : string :=
  List.last (JS.split_newline text) "".

(** How a [stream] method ends once the body is read: with the exception
    of the read that failed, if one did. *)
Definition end_of_body (failure : option Thrown) : SE LLM.Wire unit :=
  match failure with
  | Some e => se_throw e
  | None => se_ret tt
  end.

(** The chunks that an adapter yields for one line. *)
Definition openai_line_chunks (line : string) : list LLM.WireChunk :=
  LLM.yielded (snd (LLM.OpenAILLM.handle_line line LLM.no_traffic)).

Definition anthropic_line_chunks (line : string) : list LLM.WireChunk :=
  LLM.yielded (snd (LLM.AnthropicLLM.handle_line line LLM.no_traffic)).

(** The wire after the chunks [new] were yielded. *)
Definition after_yielding (new : list LLM.WireChunk) (w : LLM.Wire)
  : LLM.Wire :=
  LLM.mkWire (LLM.requests w) (LLM.yielded w ++ new).

(** The request that [OpenAILLM.stream] and [OpenAILLM.chat] send. *)
Definition openai_request (this : LLM.BaseLLM) (messages : list Message.t)
    (tools : option (list json)) (stream : bool) : LLM.Request :=
  LLM.mkRequest (LLM.OpenAILLM.endpoint_url this "chat/completions")
                ("Bearer " +:+ LLM.apiKey this)
                (LLM.OpenAILLM.request_data this messages tools stream).

(** The request that [AnthropicLLM.stream] and [AnthropicLLM.chat] send. *)
Definition anthropic_request (this : LLM.BaseLLM) (messages : list Message.t)
    (tools : option (list json)) (stream : bool) : LLM.Request :=
  LLM.mkRequest (LLM.AnthropicLLM.messages_url this) (LLM.apiKey this)
                (LLM.AnthropicLLM.request_data this messages tools stream).

(** The wire after the request [r] was sent and the chunks [new] were
    yielded. *)
Definition after_request (r : LLM.Request) (new : list LLM.WireChunk)
    (w : LLM.Wire) : LLM.Wire :=
  LLM.mkWire (LLM.requests w ++ [r]) (LLM.yielded w ++ new).

(** What a method throws for an answer whose status is not ok: the error
    of the provider with the text of the body; or, when a read of the
    body fails, what that read throws. *)
Definition reported (api_error : LLM.Response -> string -> Thrown)
    (response : LLM.Response) : Thrown :=
  match LLM.body_reads response, LLM.failure response with
  | Some _, Some e => e
  | _, _ => api_error response (LLM.body_text response)
  end.

(** The payload of a line: what follows [data: ] once the line is
    trimmed. *)
Definition payload (line : string) : string :=
  JS.string_drop 6 (JS.trim line).

(** A line that carries no data for an adapter: it does not start with
    [data: ] once trimmed, or its payload is not JSON. *)
Definition carries_no_data (line : string) : Prop :=
  JS.startsWith "data: " (JS.trim line) = false
  \/ exists e, Json.parse (payload line) = Throws e.

(** What the Anthropic adapter sends for a message that is not a system
    message: the role [assistant] for the assistant and [user] for every
    other role, and the content. *)
Definition anthropic_message (m : Message.t) : json :=
  LLM.object
    [("role", Some (JString match Message.role m with
                            | Some Assistant => "assistant"
                            | _ => "user"
                            end));
     ("content", option_map JString (Message.content m))].

(** The last system message of a list, if it has one. *)
Definition last_system_message (messages : list Message.t)
  : option Message.t :=
  List.find Message.is_system (rev messages).

(** Two messages with the same role and the same content. *)
Definition same_role_and_content (a b : Message.t) : Prop :=
  Message.role a = Message.role b /\ Message.content a = Message.content b.

(** A value that counts as false in a condition. *)
Definition falsy (v : Json.value) : Prop := Json.truthy v = false.

(** What [OpenAILLM.chat] makes of an answer whose JSON is [body]: it
    throws when there are no [choices]; with no choice in [choices] it
    gives the empty content and no tool calls; and with a first choice
    whose message has no content, or [null], or the empty string, it gives
    the empty string as content and the [tool_calls] of that message. *)
Definition reads_the_first_choice (answer : Exc LLM.OpenAILLM.RawResponse)
    (body : json) : Prop :=
  (Json.prop "choices" body = None -> exists e, answer = Throws e)
  /\ (Json.prop "choices" body = Some (JArray []) ->
      exists r, answer = Returns r
                /\ LLM.OpenAILLM.raw_content r = JString ""
                /\ LLM.OpenAILLM.raw_toolCalls r = None)
  /\ (forall choice more,
        Json.prop "choices" body = Some (JArray (choice :: more)) ->
        let message := Json.opt_prop "message" (Some choice) in
        falsy (Json.opt_prop "content" message) ->
        exists r, answer = Returns r
                  /\ LLM.OpenAILLM.raw_content r = JString ""
                  /\ LLM.OpenAILLM.raw_toolCalls r
                     = Json.opt_prop "tool_calls" message).

(** After [clearHistory()] the next [chat] starts over: the history is
    empty, and the first request carries the system prompt and the new
    message of the user, and nothing from before. *)
Definition starts_over (this : Agent.Agent) (s : Agent.State)
    (userMessage : string) : Prop :=
  let cleared := snd (Agent.clearHistory s) in
  Agent.getMessages this cleared = []
  /\ Agent.toolRegistry cleared = Agent.toolRegistry s
  /\ exists later,
       Agent.requests (events_of (Agent.chat this userMessage) cleared)
       = ([system_message this (S (Agent.clock_reads s));
           user_message this s userMessage],
          offered_tools s) :: later.

(** The first request of the first [chat] of a new agent begins with the
    system message, whose content is [prompt]. *)
Definition begins_with_prompt (this : Agent.Agent) (s : Agent.State)
    (userMessage : string) (prompt : string) : Prop :=
  exists first rest later,
    Agent.requests (events_of (Agent.chat this userMessage) s)
    = (first :: rest, offered_tools s) :: later
    /\ Message.role first = Some System
    /\ Message.content first = Some prompt.

(** The entry describes the tool in the format of OpenAI's functions. *)
Definition describes (tool : Tools.Tool) (entry : json) : Prop :=
  Json.prop "type" entry = Some (JString "function")
  /\ Json.opt_prop "name" (Json.prop "function" entry)
     = Some (JString (Tools.name tool))
  /\ Json.opt_prop "description" (Json.prop "function" entry)
     = Some (JString (Tools.description tool))
  /\ Json.opt_prop "parameters" (Json.prop "function" entry)
     = Some (Tools.parameters tool).

(** After [registerTool(tool)] the next [chat] offers the tool to the
    provider: its first request has tools, one for each tool of the
    registry, and one of them describes [tool]. *)
Definition offers (this : Agent.Agent) (s : Agent.State)
    (userMessage : string) (tool : Tools.Tool) : Prop :=
  let s' := snd (Agent.registerTool tool s) in
  Tools.getTool (Tools.name tool) (Agent.toolRegistry s') = Some tool
  /\ exists offered later entry,
       Agent.requests (events_of (Agent.chat this userMessage) s')
       = (outbound this s' userMessage, Some offered) :: later
       /\ length offered
          = length (Tools.listTools (Agent.toolRegistry s'))
       /\ In entry offered
       /\ describes tool entry.

(** *** What every run adds to the trace *)

(** Whatever the state, the computation only adds events to the trace,
    and the events it adds satisfy [Q], whether it returns or throws. *)
Definition adds {A : Type} (Q : list Agent.Event -> Prop)
    (c : SE Agent.State A) : Prop :=
  forall s, exists new,
    Agent.trace (snd (c s)) = Agent.trace s ++ new /\ Q new.

(** The messages appended by these events are not system messages. *)
Definition appends_no_system (new : list Agent.Event) : Prop :=
  no_system_message (Agent.appends new).

(** These events hold at most [n] requests to the provider. *)
Definition sends_at_most (n : nat) (new : list Agent.Event) : Prop :=
  (length (Agent.requests new) <= n)%nat.

(** ** Further samples *)

Module MoreSamples.


(** A provider that answers at once, and counts its tokens. *)
Definition counting_provider : Agent.Provider :=
  Agent.mkProvider
    (fun _ _ _ =>
       Returns (LLM.LLMResponse.mk "Hello!"
                  (Some (LLM.LLMResponse.mk_usage (Some 12) (Some 3) None))
                  None))
    (fun _ _ _ => (Samples.hello_chunks, None)).

(** A provider whose stream breaks after two chunks. *)
Definition breaking_provider : Agent.Provider :=
  Agent.mkProvider
    (fun _ _ _ => Throws (ErrorObject "503"))
    (fun _ _ _ =>
       ([LLM.StreamChunk.mk (Some "Hel") None None None;
         LLM.StreamChunk.mk (Some "lo") None None None],
        Some (ErrorObject "connection reset"))).

(** A provider whose stream breaks after a chunk that is finished. *)
Definition late_failure_provider : Agent.Provider :=
  Agent.mkProvider
    (fun _ _ _ => Throws (ErrorObject "503"))
    (fun _ _ _ =>
       ([LLM.StreamChunk.mk (Some "Hello") None (Some true) None],
        Some (ErrorObject "connection reset"))).

(** A provider that first asks for the weather and for the time, then
    answers, and asks for the weather of another city. *)
Definition time_call : LLM.LLMToolCall.t :=
  LLM.LLMToolCall.mk "call-2" "function"
    (LLM.LLMToolCall.mk_function "get_time" (JS.dq "{'zone':'JST'}")).

Definition time_tool_call : ToolCall.t :=
  ToolCall.mk "get_time" (JObject [("zone", JString "JST")]) "call-2".

Definition paris_call : LLM.LLMToolCall.t :=
  LLM.LLMToolCall.mk "call-3" "function"
    (LLM.LLMToolCall.mk_function "get_weather" (JS.dq "{'city':'Paris'}")).

Definition paris_tool_call : ToolCall.t :=
  ToolCall.mk "get_weather" (JObject [("city", JString "Paris")]) "call-3".

Definition first_of_chain : LLM.LLMResponse.t :=
  LLM.LLMResponse.mk "Let me see." None
    (Some [Samples.tokyo_call; time_call]).

Definition chained_provider : Agent.Provider :=
  Agent.mkProvider
    (fun calls _ _ =>
       match calls with
       | O => Returns first_of_chain
       | _ => Returns (LLM.LLMResponse.mk "And Paris?" None
                         (Some [paris_call]))
       end)
    (fun _ _ _ => (Samples.hello_chunks, None)).



(** A new agent whose memory holds two messages at most, with the weather
    tool. *)
Definition small : Agent.State :=
  Agent.initial (Some (SimpleDictMemory.new 2))
                (Some (Tools.registerTool Samples.weather_tool Tools.empty)).

(** An adapter, a list with one message, and a history with two system
    messages and a tool message. *)
Definition gpt : LLM.BaseLLM := LLM.mkBaseLLM "gpt-4" "key" None "0.7" None.

Definition claude : LLM.BaseLLM :=
  LLM.mkBaseLLM "claude-3-opus" "key" None "0.7" None.

Definition greeting : list Message.t :=
  [Message.mk (Some User) (Some "hi") None None 0].

Definition two_system_messages : list Message.t :=
  [Message.mk (Some System) (Some "Be brief.") None None 0;
   Message.mk (Some User) (Some "weather?") None None 1;
   Message.mk (Some System) (Some "Be kind.") None None 2;
   Message.mk (Some Tool) (Some "Sunny") None (Some "call-1") 3].

(** A tool round as the memory holds it, and the same messages with
    nothing but their roles and contents. *)
Definition full_messages : list Message.t :=
  [Message.mk (Some User) (Some "weather?") None None 1;
   Message.mk (Some Assistant) (Some "Let me see.")
              (Some [Samples.tokyo_tool_call]) None 2;
   Message.mk (Some Tool) (Some "Sunny") None (Some "call-1") 3].

Definition bare_messages : list Message.t :=
  [Message.mk (Some User) (Some "weather?") None None 0;
   Message.mk (Some Assistant) (Some "Let me see.") None None 0;
   Message.mk (Some Tool) (Some "Sunny") None None 0].

(** The answer of a provider that is asked too much; the same when the
    connection breaks while the body is read; and an answer that is cut
    in the same way. *)
Definition too_many_requests : LLM.Response :=
  LLM.mkResponse false 429 (Some ["slow "; "down"]) None.

Definition too_many_requests_cut : LLM.Response :=
  LLM.mkResponse false 429 (Some ["slow "])
                 (Some (ErrorObject "connection reset")).

(** An answer of OpenAI that asks for a tool: its content is [null]. *)
Definition tool_answer_text : string :=
  JS.dq ("{'choices':[{'message':"
         +:+ "{'content':null,'tool_calls':[{'id':'call-1'}]}}]}").

Definition tool_answer : LLM.Response :=
  LLM.mkResponse true 200 (Some [tool_answer_text]) None.

Definition tool_answer_json : json :=
  JObject
    [("choices",
      JArray
        [JObject
           [("message",
             JObject [("content", JNull);
                      ("tool_calls",
                       JArray [JObject [("id", JString "call-1")]])])]])].

End MoreSamples.

(** * Properties *)

(** ** JSON *)

Example parse_object :
  Json.parse (JS.dq "{'city': 'Tokyo', 'days': [1, 2.5e3, true, null]}")
  = Returns (JObject [("city", JString "Tokyo");
                      ("days", JArray [JNumber "1"; JNumber "2.5e3";
                                       JBool true; JNull])]).
Proof. reflexivity. Qed.

Example parse_rejects_open_brace : Json.parse "{" = Throws Json.SyntaxError.
Proof. reflexivity. Qed.

Example parse_rejects_done : Json.parse "[DONE]" = Throws Json.SyntaxError.
Proof. reflexivity. Qed.

Example stringify_string :
  Json.stringify (JString "Sunny") = JS.dq "'Sunny'".
Proof. reflexivity. Qed.

Example stringify_parse :
  Json.stringify (JObject [("a", JArray [JNumber "1"; JNull]); ("b", JString "x")])
  = JS.dq "{'a':[1,null],'b':'x'}".
Proof. reflexivity. Qed.

Example parse_nested :
  Json.parse (JS.dq " [ [ [ {'a' : [ ] } ] ] , -1.5E+3 , 'x' ] ")
  = Returns (JArray [JArray [JArray [JObject [("a", JArray [])]]];
                     JNumber "-1.5E+3"; JString "x"]).
Proof. reflexivity. Qed.

Example parse_rejects_leading_zero :
  Json.parse "01" = Throws Json.SyntaxError.
Proof. reflexivity. Qed.

Example parse_rejects_trailing_comma :
  Json.parse "[1,]" = Throws Json.SyntaxError.
Proof. reflexivity. Qed.

Example parse_rejects_empty : Json.parse "" = Throws Json.SyntaxError.
Proof. reflexivity. Qed.

Example parse_last_key_wins :
  exc_bind (Json.parse (JS.dq "{'k': 1, 'k': 2}"))
           (fun v => Returns (Json.prop "k" v))
  = Returns (Some (JNumber "2")).
Proof. reflexivity. Qed.

(** ** Memory: what a capacity does *)

Section KeepLast.
Context {A : Type}.

Lemma keep_last_length n (l : list A) :
  length (keep_last n l) = Nat.min n (length l).
Proof. unfold keep_last. rewrite length_skipn. lia. Qed.

Lemma keep_last_suffix n (l : list A) :
  exists older, l = older ++ keep_last n l.
Proof.
  exists (firstn (length l - n) l). unfold keep_last.
  symmetry. apply firstn_skipn.
Qed.

Lemma keep_last_all n (l : list A) :
  (length l <= n)%nat -> keep_last n l = l.
Proof.
  intros H. unfold keep_last.
  replace (length l - n)%nat with 0%nat by lia. reflexivity.
Qed.

Lemma keep_last_snoc n (h : list A) (x : A) :
  keep_last n (keep_last n h ++ [x]) = keep_last n (h ++ [x]).
Proof.
  unfold keep_last.
  assert (E : skipn (length h - n) h ++ [x] = skipn (length h - n) (h ++ [x])).
  { rewrite skipn_app.
    replace (length h - n - length h)%nat with 0%nat by lia. reflexivity. }
  rewrite E, skipn_skipn. f_equal.
  rewrite length_skipn, !length_app. simpl. lia.
Qed.

(** A negative start of [slice] keeps the last elements. *)
Lemma slice_from_negative (k : Z) (l : list A) :
  0 < k -> JS.slice_from (- k) l = keep_last (Z.to_nat k) l.
Proof.
  intros Hk. unfold JS.slice_from, keep_last.
  destruct (Z.ltb_spec (- k) 0) as [_ | Hge]; [| lia].
  f_equal. lia.
Qed.

(** [slice(-0)] is [slice(0)]: the whole array. *)
Lemma slice_from_zero (l : list A) : JS.slice_from (- 0) l = l.
Proof.
  unfold JS.slice_from. simpl.
  rewrite Z.min_l by lia. reflexivity.
Qed.

End KeepLast.

Module SimpleDictMemoryFacts.
Import SimpleDictMemory.

Lemma simple_addMessage_maxMessages m mem :
  maxMessages (addMessage m mem) = maxMessages mem.
Proof.
  unfold addMessage.
  destruct (maxMessages mem <? _); reflexivity.
Qed.

Lemma simple_addAll_maxMessages ms mem :
  maxMessages (addAll ms mem) = maxMessages mem.
Proof.
  revert mem. induction ms as [| m ms IH]; intros mem; [reflexivity |].
  unfold addAll in *. simpl. rewrite IH. apply simple_addMessage_maxMessages.
Qed.

(** With a capacity of at least one, [addMessage] keeps the last
    [maxMessages] of the old messages and the new one. *)
Lemma simple_addMessage_positive m mem :
  0 < maxMessages mem ->
  messages (addMessage m mem)
  = keep_last (Z.to_nat (maxMessages mem)) (messages mem ++ [m]).
Proof.
  intros Hpos. unfold addMessage.
  destruct (Z.ltb_spec (maxMessages mem)
                       (Z.of_nat (length (messages mem ++ [m]))))
    as [Hlt | Hge]; simpl.
  - apply slice_from_negative. exact Hpos.
  - symmetry. apply keep_last_all. lia.
Qed.

Lemma simple_addAll_positive ms : forall mem history,
  0 < maxMessages mem ->
  messages mem = keep_last (Z.to_nat (maxMessages mem)) history ->
  messages (addAll ms mem)
  = keep_last (Z.to_nat (maxMessages mem)) (history ++ ms).
Proof.
  induction ms as [| m ms IH]; intros mem history Hpos Hinv.
  - rewrite app_nil_r. exact Hinv.
  - change (addAll (m :: ms) mem) with (addAll ms (addMessage m mem)).
    replace (history ++ m :: ms) with ((history ++ [m]) ++ ms)
      by (rewrite <- app_assoc; reflexivity).
    rewrite <- (simple_addMessage_maxMessages m mem).
    apply IH.
    + rewrite simple_addMessage_maxMessages. exact Hpos.
    + rewrite simple_addMessage_maxMessages, simple_addMessage_positive by exact Hpos.
      rewrite Hinv. apply keep_last_snoc.
Qed.

(** From a new memory of capacity at least one: the stored messages are
    the last [maxMessages] of those added, in the order they were added. *)
Lemma simple_bounded_when_positive (cap : Z) (ms : list Message.t) :
  0 < cap ->
  messages (addAll ms (new cap)) = keep_last (Z.to_nat cap) ms
  /\ Z.of_nat (length (messages (addAll ms (new cap)))) <= cap.
Proof.
  intros Hpos.
  assert (E : messages (addAll ms (new cap)) = keep_last (Z.to_nat cap) ms).
  { apply (simple_addAll_positive ms (new cap) []); [exact Hpos | reflexivity]. }
  split; [exact E |].
  rewrite E, keep_last_length. lia.
Qed.

(** With capacity zero nothing is ever dropped. *)
Lemma simple_addMessage_zero m mem :
  maxMessages mem = 0 -> messages (addMessage m mem) = messages mem ++ [m].
Proof.
  intros Hz. unfold addMessage. rewrite Hz.
  destruct (0 <? _); simpl; [apply slice_from_zero | reflexivity].
Qed.

Lemma simple_addAll_zero ms : forall mem,
  maxMessages mem = 0 -> messages (addAll ms mem) = messages mem ++ ms.
Proof.
  induction ms as [| m ms IH]; intros mem Hz.
  - rewrite app_nil_r. reflexivity.
  - change (addAll (m :: ms) mem) with (addAll ms (addMessage m mem)).
    rewrite IH by (rewrite simple_addMessage_maxMessages; exact Hz).
    rewrite simple_addMessage_zero by exact Hz.
    rewrite <- app_assoc. reflexivity.
Qed.


End SimpleDictMemoryFacts.

Module DictMemoryFacts.
Import DictMemory.

Lemma dict_addMessage_maxMessages sid m mem :
  maxMessages (addMessage sid m mem) = maxMessages mem.
Proof.
  unfold addMessage.
  destruct (maxMessages mem <? _); reflexivity.
Qed.

(** What [addMessage] stores for its session: the trimmed array when the
    capacity is passed, the pushed one otherwise. *)
Lemma dict_addMessage_stored sid m mem :
  stored sid (addMessage sid m mem)
  = if maxMessages mem <? Z.of_nat (length (stored sid mem ++ [m]))
    then JS.slice_from (- maxMessages mem) (stored sid mem ++ [m])
    else stored sid mem ++ [m].
Proof.
  unfold addMessage, stored.
  destruct (sessions mem !! sid) as [l |] eqn:E.
  - rewrite E.
    destruct (maxMessages mem <? _); simpl; rewrite lookup_insert_eq;
      reflexivity.
  - rewrite lookup_insert_eq.
    destruct (maxMessages mem <? _); simpl; rewrite lookup_insert_eq;
      reflexivity.
Qed.

(** The other sessions keep their messages. *)
Lemma dict_addMessage_other sid sid' m mem :
  sid <> sid' -> stored sid' (addMessage sid m mem) = stored sid' mem.
Proof.
  intros Hne. unfold addMessage, stored.
  destruct (sessions mem !! sid) as [l |] eqn:E;
    destruct (maxMessages mem <? _); simpl;
    rewrite ?lookup_insert_ne by exact Hne; reflexivity.
Qed.

Lemma dict_addMessage_positive sid m mem :
  0 < maxMessages mem ->
  stored sid (addMessage sid m mem)
  = keep_last (Z.to_nat (maxMessages mem)) (stored sid mem ++ [m]).
Proof.
  intros Hpos. rewrite dict_addMessage_stored.
  destruct (Z.ltb_spec (maxMessages mem)
                       (Z.of_nat (length (stored sid mem ++ [m]))))
    as [Hlt | Hge].
  - apply slice_from_negative. exact Hpos.
  - symmetry. apply keep_last_all. lia.
Qed.

Lemma dict_addAll_positive sid ms : forall mem history,
  0 < maxMessages mem ->
  stored sid mem = keep_last (Z.to_nat (maxMessages mem)) history ->
  stored sid (addAll sid ms mem)
  = keep_last (Z.to_nat (maxMessages mem)) (history ++ ms).
Proof.
  induction ms as [| m ms IH]; intros mem history Hpos Hinv.
  - rewrite app_nil_r. exact Hinv.
  - change (addAll sid (m :: ms) mem)
      with (addAll sid ms (addMessage sid m mem)).
    replace (history ++ m :: ms) with ((history ++ [m]) ++ ms)
      by (rewrite <- app_assoc; reflexivity).
    rewrite <- (dict_addMessage_maxMessages sid m mem).
    apply IH.
    + rewrite dict_addMessage_maxMessages. exact Hpos.
    + rewrite dict_addMessage_maxMessages, dict_addMessage_positive by exact Hpos.
      rewrite Hinv. apply keep_last_snoc.
Qed.

Lemma dict_bounded_when_positive (cap : Z) sid (ms : list Message.t) :
  0 < cap ->
  stored sid (addAll sid ms (new cap)) = keep_last (Z.to_nat cap) ms
  /\ Z.of_nat (length (stored sid (addAll sid ms (new cap)))) <= cap.
Proof.
  intros Hpos.
  assert (E : stored sid (addAll sid ms (new cap))
              = keep_last (Z.to_nat cap) ms).
  { apply (dict_addAll_positive sid ms (new cap) []); [exact Hpos |].
    unfold stored, new. simpl. rewrite lookup_empty. reflexivity. }
  split; [exact E |].
  rewrite E, keep_last_length. lia.
Qed.

Lemma dict_addMessage_zero sid m mem :
  maxMessages mem = 0 ->
  stored sid (addMessage sid m mem) = stored sid mem ++ [m].
Proof.
  intros Hz. rewrite dict_addMessage_stored, Hz.
  destruct (0 <? _); [apply slice_from_zero | reflexivity].
Qed.

Lemma dict_addAll_zero sid ms : forall mem,
  maxMessages mem = 0 ->
  stored sid (addAll sid ms mem) = stored sid mem ++ ms.
Proof.
  induction ms as [| m ms IH]; intros mem Hz.
  - rewrite app_nil_r. reflexivity.
  - change (addAll sid (m :: ms) mem)
      with (addAll sid ms (addMessage sid m mem)).
    rewrite IH by (rewrite dict_addMessage_maxMessages; exact Hz).
    rewrite dict_addMessage_zero by exact Hz.
    rewrite <- app_assoc. reflexivity.
Qed.

End DictMemoryFacts.

(** C10.  The claim: after any sequence of [addMessage] calls on a
    [DictMemory] or a [SimpleDictMemory] of capacity [maxMessages], a
    session holds at most [maxMessages] messages, the most recent ones in
    the order they were added.  The code trims with
    [slice(-this.maxMessages)], and [slice(-0)] is the whole array: a memory
    of capacity 0 keeps every message it was given.  Here: both memories,
    capacity 0, any messages [ms]; all of [ms] is stored, so that any
    non-empty [ms] exceeds the capacity. *)
Theorem capacity_zero_is_never_enforced (sid : string) (ms : list Message.t) :
  SimpleDictMemory.messages (SimpleDictMemory.addAll ms (SimpleDictMemory.new 0))
  = ms
  /\ DictMemory.stored sid (DictMemory.addAll sid ms (DictMemory.new 0)) = ms.
Proof.
  split.
  - apply (SimpleDictMemoryFacts.simple_addAll_zero ms (SimpleDictMemory.new 0)).
    reflexivity.
  - rewrite (DictMemoryFacts.dict_addAll_zero sid ms (DictMemory.new 0))
      by reflexivity.
    unfold DictMemory.stored, DictMemory.new. simpl.
    rewrite lookup_empty. reflexivity.
Qed.

(** ** Tools: results, errors and the time-out *)

Lemma timer_ran_fired (delay : Z) (timers : option Z) :
  Tools.timer_ran delay timers = true <-> timer_has_fired delay timers.
Proof.
  unfold Tools.timer_ran, timer_has_fired. split.
  - destruct timers as [c |]; [| discriminate].
    intros H. exists c. split; [reflexivity | lia].
  - intros (c & -> & Hle). apply Z.leb_le. exact Hle.
Qed.

Lemma timer_ran_not_fired (delay : Z) (timers : option Z) :
  Tools.timer_ran delay timers = false <-> ~ timer_has_fired delay timers.
Proof.
  rewrite <- timer_ran_fired.
  destruct (Tools.timer_ran delay timers); split; congruence.
Qed.

(** Every call of a handler comes to a value or fails, given the delay of
    the timer. *)
Lemma gives_or_fails (delay : Z) (run : Tools.HandlerRun) :
  (exists v, gives delay run v) \/ (exists e, fails_with delay run e).
Proof.
  destruct run as [e | elapsed [v | e] | t [v | e] timers |].
  - right. exists e. constructor.
  - left. exists v. constructor.
  - right. exists e. constructor.
  - destruct (Tools.timer_ran delay timers) eqn:Hran.
    + right. eexists. apply timer_first, timer_ran_fired. exact Hran.
    + left. exists v. constructor. apply timer_ran_not_fired. exact Hran.
  - destruct (Tools.timer_ran delay timers) eqn:Hran.
    + right. eexists. apply timer_first, timer_ran_fired. exact Hran.
    + right. exists e. constructor. apply timer_ran_not_fired. exact Hran.
  - right. eexists. constructor.
Qed.

Lemma race_gives (delay : Z) (run : Tools.HandlerRun) (v : Value) :
  gives delay run v -> Tools.race delay run = Returns v.
Proof.
  intros [elapsed v' | t v' timers Hnot]; simpl; [reflexivity |].
  apply timer_ran_not_fired in Hnot. rewrite Hnot. reflexivity.
Qed.

Lemma race_fails (delay : Z) (run : Tools.HandlerRun) (e : Thrown) :
  fails_with delay run e -> Tools.race delay run = Throws e.
Proof.
  intros [e' | elapsed e' | t e' timers Hnot | t s timers Hfired |]; simpl;
    try reflexivity.
  - apply timer_ran_not_fired in Hnot. rewrite Hnot. reflexivity.
  - apply timer_ran_fired in Hfired. rewrite Hfired. reflexivity.
Qed.

Lemma executeTool_unknown registry toolCall startTime endTime :
  Tools.getTool (ToolCall.name toolCall) registry = None ->
  Tools.executeTool registry toolCall startTime endTime
  = Returns (failed toolCall
               ("Tool '" +:+ ToolCall.name toolCall +:+ "' not found")
               startTime endTime).
Proof. intros Hnone. unfold Tools.executeTool. rewrite Hnone. reflexivity. Qed.

Lemma executeTool_value registry toolCall tool startTime endTime v :
  Tools.getTool (ToolCall.name toolCall) registry = Some tool ->
  gives (Tools.timer_delay (Tools.timeout tool))
        (Tools.function tool (ToolCall.arguments toolCall)) v ->
  Tools.executeTool registry toolCall startTime endTime
  = Returns (succeeded toolCall v startTime endTime).
Proof.
  intros Hsome Hgives. unfold Tools.executeTool.
  rewrite Hsome, (race_gives _ _ _ Hgives). reflexivity.
Qed.

Lemma executeTool_failure registry toolCall tool startTime endTime e :
  Tools.getTool (ToolCall.name toolCall) registry = Some tool ->
  fails_with (Tools.timer_delay (Tools.timeout tool))
             (Tools.function tool (ToolCall.arguments toolCall)) e ->
  Tools.executeTool registry toolCall startTime endTime
  = exc_bind (error_text e)
             (fun text => Returns (failed toolCall text startTime endTime)).
Proof.
  intros Hsome Hfails. unfold Tools.executeTool.
  rewrite Hsome, (race_fails _ _ _ Hfails). reflexivity.
Qed.

Lemma executeTool_exactly_one registry toolCall startTime endTime r :
  Tools.executeTool registry toolCall startTime endTime = Returns r ->
  exactly_one_set r /\ ToolResult.callId r = ToolCall.callId toolCall.
Proof.
  unfold Tools.executeTool, exactly_one_set.
  destruct (Tools.getTool _ registry) as [tool |].
  - destruct (Tools.race _ _) as [v | e]; simpl.
    + intros [= <-]. simpl. split; [left; split; congruence | reflexivity].
    + destruct (error_text e) as [text | raised]; simpl; [| discriminate].
      intros [= <-]. simpl. split; [right; split; congruence | reflexivity].
  - intros [= <-]. simpl. split; [right; split; congruence | reflexivity].
Qed.

(** C5.  What [executeTool] makes of a call.  An unknown tool gives a
    record with [error] and no [result]; so does a handler that throws, a
    promise that is rejected, and the timer that fires first, provided
    that a text can be had of what was thrown; only a value of the handler
    that won the race gives a record with [result], and no [error].  Every
    record that is returned has exactly one of the two, and the identifier
    of the call.  So far the claim.  But the [catch] clause converts what
    it caught with [error.message] or [String(error)], and when that
    conversion throws, [executeTool] throws what the conversion throws:
    it does not return.  A field is set when the record has it: the
    [result] of a handler that returns nothing is there, and holds
    [undefined]. *)
Theorem executeTool_throws_what_has_no_text
    (registry : Tools.ToolRegistry) (toolCall : ToolCall.t)
    (startTime endTime : Z) :
  (Tools.getTool (ToolCall.name toolCall) registry = None ->
   Tools.executeTool registry toolCall startTime endTime
   = Returns (failed toolCall
                ("Tool '" +:+ ToolCall.name toolCall +:+ "' not found")
                startTime endTime))
  /\ (forall tool,
        Tools.getTool (ToolCall.name toolCall) registry = Some tool ->
        ((exists v,
            gives (Tools.timer_delay (Tools.timeout tool))
                  (Tools.function tool (ToolCall.arguments toolCall)) v)
         \/ (exists e,
               fails_with (Tools.timer_delay (Tools.timeout tool))
                          (Tools.function tool (ToolCall.arguments toolCall))
                          e))
        /\ (forall v,
              gives (Tools.timer_delay (Tools.timeout tool))
                    (Tools.function tool (ToolCall.arguments toolCall)) v ->
              Tools.executeTool registry toolCall startTime endTime
              = Returns (succeeded toolCall v startTime endTime))
        /\ (forall e text,
              fails_with (Tools.timer_delay (Tools.timeout tool))
                         (Tools.function tool (ToolCall.arguments toolCall))
                         e ->
              error_text e = Returns text ->
              Tools.executeTool registry toolCall startTime endTime
              = Returns (failed toolCall text startTime endTime))
        /\ (forall e raised,
              fails_with (Tools.timer_delay (Tools.timeout tool))
                         (Tools.function tool (ToolCall.arguments toolCall))
                         e ->
              error_text e = Throws raised ->
              Tools.executeTool registry toolCall startTime endTime
              = Throws raised))
  /\ (forall r,
        Tools.executeTool registry toolCall startTime endTime = Returns r ->
        exactly_one_set r
        /\ ToolResult.callId r = ToolCall.callId toolCall).
Proof.
  split; [apply executeTool_unknown |].
  split; [| apply executeTool_exactly_one].
  intros tool Hsome.
  split; [apply gives_or_fails |].
  split; [| split].
  - intros v Hgives. apply (executeTool_value _ _ tool); assumption.
  - intros e text Hfails Htext.
    rewrite (executeTool_failure _ _ tool _ _ e Hsome Hfails), Htext.
    reflexivity.
  - intros e raised Hfails Htext.
    rewrite (executeTool_failure _ _ tool _ _ e Hsome Hfails), Htext.
    reflexivity.
Qed.

(** A handler that throws an object without prototype: [String(error)]
    throws a [TypeError] in the [catch] clause, and [executeTool] throws
    it. *)
Example opaque_exception_escapes :
  Tools.executeTool (Tools.registerTool Samples.opaque_tool Tools.empty)
                    Samples.opaque_call 0 1
  = Throws (ErrorObject "Cannot convert object to primitive value").
Proof. reflexivity. Qed.

(** What can be converted is converted: the message of an [Error] that the
    handler throws, and the text of a number with which its promise is
    rejected. *)
Example thrown_error_is_converted :
  Tools.executeTool (Tools.registerTool Samples.failing_tool Tools.empty)
                    Samples.failing_call 0 1
  = Returns (ToolResult.mk "call-5" None (Some "boom") 1)
  /\ Tools.executeTool (Tools.registerTool Samples.rejecting_tool Tools.empty)
                       Samples.rejecting_call 0 6
     = Returns (ToolResult.mk "call-6" None (Some "42") 6).
Proof. split; reflexivity. Qed.

(** The time-out itself has a text. *)
Lemma timeout_error_text :
  error_text Tools.timeout_error = Returns "Tool execution timeout".
Proof. reflexivity. Qed.





(** Scenario C of the specification: no tool of that name. *)
Example unknown_tool :
  Tools.executeTool Tools.empty (ToolCall.mk "doThing" (JObject []) "call-3")
                    100 103
  = Returns (ToolResult.mk "call-3" None
               (Some "Tool 'doThing' not found") 3).
Proof. reflexivity. Qed.

(** ** Adapters: validation comes before the network *)

Lemma validate_each_refuses (messages : list Message.t) :
  Exists lacks_role_or_content messages ->
  LLM.validate_each messages
  = Throws (ErrorObject "Each message must have role and content").
Proof.
  induction messages as [| m rest IH]; intros Hex.
  - inversion Hex.
  - simpl. destruct (Message.role m) as [r |] eqn:Hrole; [| reflexivity].
    destruct (JS.truthy_opt_string (Message.content m)) eqn:Hcontent;
      [| reflexivity].
    apply IH. inversion Hex as [? ? Hhead | ? ? Htail]; subst.
    + destruct Hhead as [Hr | Hc]; congruence.
    + exact Htail.
Qed.

Lemma validate_each_accepts (messages : list Message.t) :
  Forall (fun m => ~ lacks_role_or_content m) messages ->
  LLM.validate_each messages = Returns tt.
Proof.
  induction 1 as [| m rest Hm _ IH]; [reflexivity |].
  simpl. unfold lacks_role_or_content in Hm.
  destruct (Message.role m) as [r |]; [| exfalso; apply Hm; left; reflexivity].
  destruct (JS.truthy_opt_string (Message.content m)).
  - exact IH.
  - exfalso. apply Hm. right. reflexivity.
Qed.

(** [validateMessages] throws exactly on the empty list and on a list with
    a message that lacks its role or its content. *)
Lemma validateMessages_refuses (messages : list Message.t) :
  messages = [] \/ Exists lacks_role_or_content messages ->
  exists e, LLM.validateMessages messages = Throws e.
Proof.
  intros [Hnil | Hex].
  - subst. eexists. reflexivity.
  - destruct messages as [| m rest]; [inversion Hex |].
    eexists. unfold LLM.validateMessages. apply validate_each_refuses.
    exact Hex.
Qed.

Lemma validateMessages_accepts (messages : list Message.t) :
  messages <> [] ->
  Forall (fun m => ~ lacks_role_or_content m) messages ->
  LLM.validateMessages messages = Returns tt.
Proof.
  intros Hne Hall. destruct messages as [| m rest]; [congruence |].
  unfold LLM.validateMessages. apply validate_each_accepts. exact Hall.
Qed.

(** A tool-call-only assistant turn has no content, for [validateMessages]. *)
Lemma tool_call_only_turn_lacks_content (m : Message.t) :
  tool_call_only_turn m -> lacks_role_or_content m.
Proof.
  intros (_ & Hcontent & _). right. rewrite Hcontent. reflexivity.
Qed.

(** Where the claim and the code part: a list that the claim lets through,
    with a tool-call-only assistant turn, is refused. *)
Lemma tool_call_only_turn_is_refused :
  ~ (forall messages : list Message.t,
       messages <> [] ->
       Forall allowed_by_the_specification messages ->
       LLM.validateMessages messages = Returns tt).
Proof.
  intros claim.
  assert (H : LLM.validateMessages Samples.history_with_tool_turn = Returns tt).
  { apply claim; [discriminate |].
    constructor; [| constructor; [| constructor]].
    - split; [discriminate | left; reflexivity].
    - split; [discriminate | right].
      split; [reflexivity |]. split; [reflexivity |].
      eexists. eexists. reflexivity. }
  vm_compute in H. discriminate H.
Qed.

(** The part of the claim that holds: a call to [chat] or [stream] of
    either adapter with a list that is empty, or in which some message has
    no role, or has no content or the empty string as content, throws the
    validation error before any request is sent. *)
Lemma invalid_messages_never_reach_the_network
    (fetch : LLM.Request -> Exc LLM.Response) (this : LLM.BaseLLM)
    (messages : list Message.t) (tools : option (list json)) (w : LLM.Wire) :
  messages = [] \/ Exists lacks_role_or_content messages ->
  exists e,
    LLM.validateMessages messages = Throws e
    /\ refused_with e (LLM.OpenAILLM.chat fetch this messages tools) w
    /\ refused_with e (LLM.OpenAILLM.stream fetch this messages tools) w
    /\ refused_with e (LLM.AnthropicLLM.chat fetch this messages tools) w
    /\ refused_with e (LLM.AnthropicLLM.stream fetch this messages tools) w.
Proof.
  intros Hbad.
  destruct (validateMessages_refuses messages Hbad) as [e He].
  exists e. split; [exact He |].
  unfold refused_with, LLM.OpenAILLM.chat, LLM.OpenAILLM.stream,
    LLM.AnthropicLLM.chat, LLM.AnthropicLLM.stream, se_bind, se_lift.
  rewrite He. repeat split; reflexivity.
Qed.

(** C6.  The claim lets the content of a message be the empty string when
    the message is a tool-call-only assistant turn.  The code does not:
    [validateMessages] looks at neither the role nor the tool calls, and a
    list with such a turn, wherever it stands and whatever the other
    messages are, is refused by [chat] and by [stream] of both adapters
    with the validation error, before any request is sent. *)
Theorem tool_call_only_turn_never_passes
    (fetch : LLM.Request -> Exc LLM.Response) (this : LLM.BaseLLM)
    (messages : list Message.t) (tools : option (list json)) (w : LLM.Wire)
    (turn : Message.t) :
  In turn messages ->
  tool_call_only_turn turn ->
  allowed_by_the_specification turn
  /\ LLM.validateMessages messages
     = Throws (ErrorObject "Each message must have role and content")
  /\ refused_with (ErrorObject "Each message must have role and content")
       (LLM.OpenAILLM.chat fetch this messages tools) w
  /\ refused_with (ErrorObject "Each message must have role and content")
       (LLM.OpenAILLM.stream fetch this messages tools) w
  /\ refused_with (ErrorObject "Each message must have role and content")
       (LLM.AnthropicLLM.chat fetch this messages tools) w
  /\ refused_with (ErrorObject "Each message must have role and content")
       (LLM.AnthropicLLM.stream fetch this messages tools) w.
Proof.
  intros Hin Hturn.
  assert (He : LLM.validateMessages messages
               = Throws (ErrorObject "Each message must have role and content")).
  { destruct messages as [| m rest]; [destruct Hin |].
    unfold LLM.validateMessages. apply validate_each_refuses.
    apply List.Exists_exists. exists turn.
    split; [exact Hin | apply tool_call_only_turn_lacks_content, Hturn]. }
  split.
  { split; [| right; exact Hturn].
    destruct Hturn as (Hrole & _). rewrite Hrole. discriminate. }
  split; [exact He |].
  unfold refused_with, LLM.OpenAILLM.chat, LLM.OpenAILLM.stream,
    LLM.AnthropicLLM.chat, LLM.AnthropicLLM.stream, se_bind, se_lift.
  rewrite He. repeat split; reflexivity.
Qed.

Lemma tool_call_only_turn_never_passes_witness :
  allowed_by_the_specification
    (Message.mk (Some Assistant) (Some "")
       (Some [ToolCall.mk "get_weather" (JObject []) "call-1"]) None 1)
  /\ LLM.validateMessages Samples.history_with_tool_turn
     = Throws (ErrorObject "Each message must have role and content")
  /\ refused_with (ErrorObject "Each message must have role and content")
       (LLM.OpenAILLM.chat (fun _ => Throws (ErrorObject "offline"))
          (LLM.mkBaseLLM "gpt-4" "key" None "0.7" None)
          Samples.history_with_tool_turn None) LLM.no_traffic
  /\ refused_with (ErrorObject "Each message must have role and content")
       (LLM.OpenAILLM.stream (fun _ => Throws (ErrorObject "offline"))
          (LLM.mkBaseLLM "gpt-4" "key" None "0.7" None)
          Samples.history_with_tool_turn None) LLM.no_traffic
  /\ refused_with (ErrorObject "Each message must have role and content")
       (LLM.AnthropicLLM.chat (fun _ => Throws (ErrorObject "offline"))
          (LLM.mkBaseLLM "gpt-4" "key" None "0.7" None)
          Samples.history_with_tool_turn None) LLM.no_traffic
  /\ refused_with (ErrorObject "Each message must have role and content")
       (LLM.AnthropicLLM.stream (fun _ => Throws (ErrorObject "offline"))
          (LLM.mkBaseLLM "gpt-4" "key" None "0.7" None)
          Samples.history_with_tool_turn None) LLM.no_traffic.
Proof.
  apply (tool_call_only_turn_never_passes
           (fun _ => Throws (ErrorObject "offline"))
           (LLM.mkBaseLLM "gpt-4" "key" None "0.7" None)
           Samples.history_with_tool_turn None LLM.no_traffic
           (Message.mk (Some Assistant) (Some "")
              (Some [ToolCall.mk "get_weather" (JObject []) "call-1"])
              None 1)).
  - right. left. reflexivity.
  - split; [reflexivity |]. split; [reflexivity |].
    eexists. eexists. reflexivity.
Defined.

(** A list that [validateMessages] accepts does reach the network: the
    request is the first thing that [chat] does after the validation. *)
Lemma valid_messages_reach_the_network
    (fetch : LLM.Request -> Exc LLM.Response) (this : LLM.BaseLLM)
    (messages : list Message.t) (tools : option (list json)) (w : LLM.Wire) :
  messages <> [] ->
  Forall (fun m => ~ lacks_role_or_content m) messages ->
  LLM.requests (snd (LLM.OpenAILLM.chat fetch this messages tools w))
  = LLM.requests w
    ++ [LLM.mkRequest (LLM.OpenAILLM.endpoint_url this "chat/completions")
                      ("Bearer " +:+ LLM.apiKey this)
                      (LLM.OpenAILLM.request_data this messages tools false)].
Proof.
  intros Hne Hall.
  unfold LLM.OpenAILLM.chat, LLM.OpenAILLM.makeRequest, se_bind, se_lift,
    LLM.do_fetch.
  rewrite (validateMessages_accepts messages Hne Hall).
  destruct (fetch _) as [response | e]; [| reflexivity].
  destruct (negb (LLM.ok response)).
  { destruct (LLM.response_text response); reflexivity. }
  destruct (LLM.response_json response) as [v | e]; [| reflexivity].
  destruct (LLM.get "choices" (Some v)) as [choices | e]; [| reflexivity].
  destruct (LLM.get0 choices); reflexivity.
Qed.

(** ** The OpenAI stream and its sentinel *)

Lemma se_for_app {S A : Type} (xs ys : list A) (body : A -> SE S unit) s :
  se_for (xs ++ ys) body s
  = match se_for xs body s with
    | (Returns _, s') => se_for ys body s'
    | (Throws e, s') => (Throws e, s')
    end.
Proof.
  revert s. induction xs as [| x xs IH]; intros s.
  - reflexivity.
  - simpl. unfold se_bind.
    destruct (body x s) as [[[] | e] s']; [apply IH | reflexivity].
Qed.

(** Nothing is done for a line that is the sentinel once trimmed. *)
Lemma sentinel_line_is_skipped (line : string) (w : LLM.Wire) :
  JS.trim line = "data: [DONE]" ->
  LLM.OpenAILLM.handle_line line w = (Returns tt, w).
Proof.
  intros Htrim. unfold LLM.OpenAILLM.handle_line. rewrite Htrim.
  reflexivity.
Qed.

(** C7, as stated, fails: the loop does not stop at the sentinel; a data
    line after it yields its chunk. *)
Lemma chunk_after_sentinel :
  ~ (forall before after : list string,
       openai_chunks (before ++ "data: [DONE]" :: after)
       = openai_chunks before).
Proof.
  intros claim.
  specialize (claim [] [Samples.delta_line]).
  vm_compute in claim. discriminate claim.
Qed.

(** C7, amended.  A complete line that is the sentinel once trimmed yields
    no chunk, and the adapter goes on: the run over the lines is the run
    over the lines without the sentinel, so that the lines after it are
    handled like any other. *)
Theorem sentinel_is_skipped_not_final
    (before after : list string) (line : string) (w : LLM.Wire) :
  JS.trim line = "data: [DONE]" ->
  se_for (before ++ line :: after) LLM.OpenAILLM.handle_line w
  = se_for (before ++ after) LLM.OpenAILLM.handle_line w.
Proof.
  intros Htrim. rewrite !se_for_app.
  destruct (se_for before LLM.OpenAILLM.handle_line w) as [[[] | e] w'];
    [| reflexivity].
  simpl. unfold se_bind.
  rewrite (sentinel_line_is_skipped line w' Htrim). reflexivity.
Qed.

Lemma sentinel_is_skipped_not_final_witness :
  se_for ([Samples.delta_line] ++ "data: [DONE]" :: [Samples.delta_line])
         LLM.OpenAILLM.handle_line LLM.no_traffic
  = se_for ([Samples.delta_line] ++ [Samples.delta_line])
           LLM.OpenAILLM.handle_line LLM.no_traffic.
Proof.
  apply (sentinel_is_skipped_not_final [Samples.delta_line] [Samples.delta_line]
           "data: [DONE]" LLM.no_traffic).
  reflexivity.
Defined.

(** The same on a whole stream: one read with the sentinel and then a data
    line; the chunk of the data line is yielded. *)
Example stream_goes_on_after_sentinel :
  LLM.yielded
    (snd (LLM.OpenAILLM.stream
            (fun _ => Returns Samples.body_with_late_line)
            (LLM.mkBaseLLM "gpt-4" "key" None "0.7" None)
            [Message.mk (Some User) (Some "hi") None None 0] None
            LLM.no_traffic))
  = [LLM.mkWireChunk (Some (JString "x")) None false].
Proof. vm_compute. reflexivity. Qed.

(** And when the data line only arrives with the next read: the adapter
    has gone on reading. *)
Example stream_reads_on_after_sentinel :
  LLM.yielded
    (snd (LLM.OpenAILLM.stream
            (fun _ => Returns Samples.body_in_two_reads)
            (LLM.mkBaseLLM "gpt-4" "key" None "0.7" None)
            [Message.mk (Some User) (Some "hi") None None 0] None
            LLM.no_traffic))
  = [LLM.mkWireChunk (Some (JString "x")) None false].
Proof. vm_compute. reflexivity. Qed.

(** ** The agent: stepping through a run *)

Module AgentFacts.
Import LLM Agent.

Lemma se_bind_returns {S A B : Type} (c : SE S A) (k : A -> SE S B) s a s' :
  c s = (Returns a, s') -> se_bind c k s = k a s'.
Proof. intros H. unfold se_bind. rewrite H. reflexivity. Qed.

Lemma se_bind_throws {S A B : Type} (c : SE S A) (k : A -> SE S B) s e s' :
  c s = (Throws e, s') -> se_bind c k s = (Throws e, s').
Proof. intros H. unfold se_bind. rewrite H. reflexivity. Qed.

Lemma se_catch_returns {S A : Type} (c : SE S A) h s (a : A) s' :
  c s = (Returns a, s') -> se_catch c h s = (Returns a, s').
Proof. intros H. unfold se_catch. rewrite H. reflexivity. Qed.

Lemma se_catch_throws {S A : Type} (c : SE S A) h s e s' :
  c s = (Throws e, s') -> se_catch c h s = h e s'.
Proof. intros H. unfold se_catch. rewrite H. reflexivity. Qed.

Lemma skipn_app_exact {A : Type} (l new : list A) :
  skipn (length l) (l ++ new) = new.
Proof.
  rewrite skipn_app, skipn_all, Nat.sub_diag. reflexivity.
Qed.

Lemma events_of_extension {A : Type} (run : SE State A) s new :
  trace (snd (run s)) = trace s ++ new -> events_of run s = new.
Proof. intros H. unfold events_of. rewrite H. apply skipn_app_exact. Qed.

Lemma run_eq {A : Type} (x y : Exc A) m r t t' l c :
  x = y -> t = t' -> (x, mkState m r t l c) = (y, mkState m r t' l c).
Proof. intros -> ->. reflexivity. Qed.


Lemma executions_app (t1 t2 : list Event) :
  executions (t1 ++ t2) = executions t1 ++ executions t2.
Proof. apply List.flat_map_app. Qed.

Lemma requests_app (t1 t2 : list Event) :
  requests (t1 ++ t2) = requests t1 ++ requests t2.
Proof. apply List.flat_map_app. Qed.

Lemma appends_app (t1 t2 : list Event) :
  appends (t1 ++ t2) = appends t1 ++ appends t2.
Proof. apply List.flat_map_app. Qed.

Lemma yields_app (t1 t2 : list Event) :
  yields (t1 ++ t2) = yields t1 ++ yields t2.
Proof. apply List.flat_map_app. Qed.

(** The fields of a state that is written out. *)
Ltac projections :=
  cbn [memory toolRegistry trace llm_calls clock_reads fst snd].

(** *** [addMessage] *)

Lemma addMessage_run m s :
  addMessage m s
  = (Returns tt,
     mkState (SimpleDictMemory.addMessage m (memory s)) (toolRegistry s)
             (trace s ++ [CallAddMessage m; EmitMessageAdded m])
             (llm_calls s) (clock_reads s)).
Proof.
  unfold addMessage, memory_addMessage, emit, se_bind, se_modify. simpl.
  rewrite <- app_assoc. reflexivity.
Qed.


Lemma added_events_appends ms : appends (added_events ms) = ms.
Proof.
  induction ms as [| m ms IH]; simpl; [reflexivity | f_equal; exact IH].
Qed.

Lemma added_events_executions ms : executions (added_events ms) = [].
Proof. induction ms as [| m ms IH]; simpl; [| exact IH]; reflexivity. Qed.

Lemma added_events_requests ms : requests (added_events ms) = [].
Proof. induction ms as [| m ms IH]; simpl; [| exact IH]; reflexivity. Qed.

(** *** [executeToolCalls] *)

Lemma registry_executeTool_run this tc s :
  registry_executeTool this tc s
  = match Tools.executeTool (toolRegistry s) tc (clock this (clock_reads s))
                            (clock this (S (clock_reads s))) with
    | Returns result =>
        (Returns result,
         mkState (memory s) (toolRegistry s) (trace s ++ [CallExecuteTool tc])
                 (llm_calls s) (S (S (clock_reads s))))
    | Throws e =>
        (Throws e,
         mkState (memory s) (toolRegistry s) (trace s ++ [CallExecuteTool tc])
                 (llm_calls s) (S (clock_reads s)))
    end.
Proof.
  unfold registry_executeTool, se_bind, emit, se_modify, read_clock, se_get,
    se_lift, se_ret. simpl.
  destruct (Tools.executeTool _ _ _ _); reflexivity.
Qed.

(** The tools all return. *)
Lemma executeToolCalls_run this tcs : forall s results,
  tool_results this (toolRegistry s) (clock_reads s) tcs = Returns results ->
  executeToolCalls this tcs s
  = (Returns results,
     mkState (memory s) (toolRegistry s)
             (trace s ++ tool_events this (toolRegistry s) (clock_reads s) tcs)
             (llm_calls s) (clock_reads s + 2 * length tcs)).
Proof.
  induction tcs as [| tc rest IH]; intros s results Hresults.
  - simpl in Hresults. inversion Hresults; subst results.
    simpl. unfold se_ret. rewrite app_nil_r, Nat.add_0_r.
    destruct s; reflexivity.
  - cbn [tool_results tool_events] in *.
    destruct (Tools.executeTool (toolRegistry s) tc _ _)
      as [result | e] eqn:Hresult; [| discriminate].
    cbn [exc_bind] in Hresults.
    destruct (tool_results this (toolRegistry s) (S (S (clock_reads s))) rest)
      as [others | e] eqn:Hothers; [| discriminate].
    inversion Hresults; subst results. clear Hresults.
    cbn [executeToolCalls].
    erewrite se_bind_returns; [| reflexivity].
    erewrite se_bind_returns;
      [| rewrite registry_executeTool_run; projections; rewrite Hresult;
         reflexivity].
    erewrite se_bind_returns; [| reflexivity].
    erewrite se_bind_returns; [| apply IH; projections; exact Hothers].
    unfold se_ret. projections. f_equal. f_equal.
    + rewrite <- !app_assoc. reflexivity.
    + cbn [length]. lia.
Qed.

(** Whether the tools return or not: the events are those of the calls,
    and the memory and the registry are left alone. *)
Lemma executeToolCalls_any this tcs : forall s,
  exists outcome reading,
    executeToolCalls this tcs s
    = (outcome,
       mkState (memory s) (toolRegistry s)
               (trace s
                  ++ tool_events this (toolRegistry s) (clock_reads s) tcs)
               (llm_calls s) reading).
Proof.
  induction tcs as [| tc rest IH]; intros s.
  - exists (Returns []), (clock_reads s). simpl. unfold se_ret.
    rewrite app_nil_r. destruct s; reflexivity.
  - cbn [executeToolCalls tool_events].
    erewrite se_bind_returns; [| reflexivity].
    unfold se_bind at 1. rewrite registry_executeTool_run. projections.
    destruct (Tools.executeTool (toolRegistry s) tc _ _) as [result | e].
    + erewrite se_bind_returns; [| reflexivity].
      unfold se_bind, se_ret.
      match goal with
      | |- context [executeToolCalls this rest ?st] =>
          destruct (IH st) as (outcome & reading & Hrun)
      end.
      rewrite Hrun. projections.
      destruct outcome as [others | e]; eexists; eexists;
        (apply run_eq; [reflexivity | rewrite <- !app_assoc; reflexivity]).
    + eexists. eexists.
      apply run_eq; [reflexivity | rewrite <- !app_assoc; reflexivity].
Qed.

Lemma executeToolCalls_keeps this tcs s :
  trace (snd (executeToolCalls this tcs s))
  = trace s ++ tool_events this (toolRegistry s) (clock_reads s) tcs
  /\ memory (snd (executeToolCalls this tcs s)) = memory s
  /\ toolRegistry (snd (executeToolCalls this tcs s)) = toolRegistry s.
Proof.
  destruct (executeToolCalls_any this tcs s) as (outcome & reading & Hrun).
  rewrite Hrun. repeat split; reflexivity.
Qed.

Lemma tool_results_length this registry tcs : forall reading results,
  tool_results this registry reading tcs = Returns results ->
  length results = length tcs.
Proof.
  induction tcs as [| tc rest IH]; intros reading results H; simpl in H.
  - inversion H. reflexivity.
  - destruct (Tools.executeTool registry tc _ _) as [result | e];
      [| discriminate].
    cbn [exc_bind] in H.
    destruct (tool_results this registry (S (S reading)) rest)
      as [others | e] eqn:Hothers; [| discriminate].
    inversion H. simpl. f_equal. apply (IH _ _ Hothers).
Qed.



Lemma tool_events_requests this registry tcs : forall reading,
  requests (tool_events this registry reading tcs) = [].
Proof.
  induction tcs as [| tc rest IH]; intros reading; simpl; [reflexivity |].
  destruct (Tools.executeTool registry tc _ _); [apply IH | reflexivity].
Qed.

Lemma tool_events_appends this registry tcs : forall reading,
  appends (tool_events this registry reading tcs) = [].
Proof.
  induction tcs as [| tc rest IH]; intros reading; simpl; [reflexivity |].
  destruct (Tools.executeTool registry tc _ _); [apply IH | reflexivity].
Qed.

(** *** [prepare] *)

Lemma prepare_run this u s :
  prepare this u s = (Returns (outbound this s u), prepared this s u).
Proof.
  unfold prepare, se_bind, read_clock, se_get.
  rewrite addMessage_run. projections.
  unfold outbound, prepared, has_system, assembled_history, getMessages,
    user_message, system_message, se_ret, added_events. projections.
  destruct (negb (existsb Message.is_system _)); reflexivity.
Qed.

(** *** The loop over the tool results *)

Lemma add_tool_message_run this r content s :
  tool_message_content r = Returns content ->
  add_tool_message this r s
  = (Returns tt,
     mkState (SimpleDictMemory.addMessage
                (Message.mk (Some Tool) content None
                            (Some (ToolResult.callId r))
                            (clock this (clock_reads s)))
                (memory s))
             (toolRegistry s)
             (trace s
                ++ added_events
                     [Message.mk (Some Tool) content None
                                 (Some (ToolResult.callId r))
                                 (clock this (clock_reads s))])
             (llm_calls s) (S (clock_reads s))).
Proof.
  intros H. unfold add_tool_message, se_bind, se_lift, read_clock.
  rewrite H, addMessage_run. reflexivity.
Qed.

Lemma tool_loop_run this results : forall s msgs,
  tool_messages this (clock_reads s) results = Returns msgs ->
  se_for results (add_tool_message this) s
  = (Returns tt,
     mkState (SimpleDictMemory.addAll msgs (memory s)) (toolRegistry s)
             (trace s ++ added_events msgs) (llm_calls s)
             (clock_reads s + length results)).
Proof.
  induction results as [| r rest IH]; intros s msgs H.
  - simpl in H. inversion H; subst msgs. simpl. unfold se_ret.
    rewrite app_nil_r, Nat.add_0_r. destruct s; reflexivity.
  - simpl in H. unfold tool_message in H.
    destruct (tool_message_content r) as [content | e] eqn:E;
      simpl in H; [| discriminate].
    destruct (tool_messages this (S (clock_reads s)) rest) as [ms | e] eqn:E2;
      simpl in H; [| discriminate].
    inversion H; subst msgs. clear H.
    cbn [se_for].
    rewrite (se_bind_returns _ _ _ _ _ (add_tool_message_run this r _ s E)).
    rewrite (IH _ ms) by exact E2. projections.
    change (SimpleDictMemory.addAll (?m :: ms) ?mem)
      with (SimpleDictMemory.addAll ms (SimpleDictMemory.addMessage m mem)).
    change (added_events (?m :: ms))
      with ([CallAddMessage m; EmitMessageAdded m] ++ added_events ms).
    f_equal. f_equal.
    + rewrite <- app_assoc. reflexivity.
    + cbn [length]. lia.
Qed.

Lemma serialisable_results this registry tcs :
  Forall (serialisable registry) tcs ->
  forall reading reading',
  exists results msgs,
    tool_results this registry reading tcs = Returns results
    /\ tool_messages this reading' results = Returns msgs
    /\ Forall2 answers tcs msgs.
Proof.
  induction 1 as [| tc rest Htc _ IH]; intros reading reading'.
  - exists [], []. repeat split; constructor.
  - destruct (Htc (clock this reading) (clock this (S reading)))
      as (result & content & Hresult & Hcontent).
    destruct (IH (S (S reading)) (S reading')) as (others & ms & Hothers & Hms & Hall).
    pose proof (executeTool_exactly_one _ _ _ _ _ Hresult) as (_ & HcallId).
    exists (result :: others). eexists.
    cbn [tool_results tool_messages]. unfold tool_message.
    rewrite Hresult, Hcontent. cbn [exc_bind].
    rewrite Hothers, Hms. cbn [exc_bind].
    split; [reflexivity |]. split; [reflexivity |].
    constructor; [| exact Hall].
    split; simpl; [reflexivity | rewrite HcallId; reflexivity].
Qed.

Lemma serialisable_tool_messages this registry tcs :
  Forall (serialisable registry) tcs ->
  forall reading,
  exists msgs,
    tool_round_messages this registry reading tcs = Returns msgs
    /\ Forall2 answers tcs msgs.
Proof.
  intros Hser reading.
  destruct (serialisable_results this registry tcs Hser reading
              (S (reading + 2 * length tcs)))
    as (results & msgs & Hresults & Hmsgs & Hall).
  exists msgs. unfold tool_round_messages. rewrite Hresults.
  split; [exact Hmsgs | exact Hall].
Qed.

(** What the messages of a tool round are made of. *)
Lemma tool_round_messages_results this registry reading tcs msgs :
  tool_round_messages this registry reading tcs = Returns msgs ->
  exists results,
    tool_results this registry reading tcs = Returns results
    /\ tool_messages this (S (reading + 2 * length tcs)) results
       = Returns msgs.
Proof.
  unfold tool_round_messages.
  destruct (tool_results this registry reading tcs) as [results | e];
    [| discriminate].
  intros H. exists results. split; [reflexivity | exact H].
Qed.

(** *** The branch for tool calls *)


Lemma resolve_tools_run this response calls tcs msgs s :
  convertToolCalls calls = Returns tcs ->
  tool_round_messages this (toolRegistry s) (clock_reads s) tcs
  = Returns msgs ->
  let asst :=
    assistant_turn this (clock_reads s + 2 * length tcs) response tcs in
  let updated :=
    recent_with_system this
      (SimpleDictMemory.getMessages
         (SimpleDictMemory.addAll (asst :: msgs) (memory s))) in
  resolve_tools this response calls s
  = (followup_outcome tcs
       (provider_chat (llm this) (llm_calls s) updated None),
     mkState (SimpleDictMemory.addAll (asst :: msgs) (memory s))
             (toolRegistry s)
             (trace s
                ++ tool_events this (toolRegistry s) (clock_reads s) tcs
                ++ added_events (asst :: msgs)
                ++ [CallChat updated None])
             (S (llm_calls s))
             (S (clock_reads s + 2 * length tcs) + length tcs)).
Proof.
  intros Hconv Hround asst updated.
  destruct (tool_round_messages_results _ _ _ _ _ Hround)
    as (results & Hresults & Hmsgs).
  unfold resolve_tools.
  rewrite (se_bind_returns _ _ s tcs s)
    by (unfold se_lift; rewrite Hconv; reflexivity).
  rewrite (se_bind_returns _ _ _ _ _
             (executeToolCalls_run this tcs s results Hresults)).
  erewrite se_bind_returns; [| reflexivity].
  erewrite se_bind_returns; [| apply addMessage_run].
  projections.
  erewrite se_bind_returns;
    [| apply (tool_loop_run this _ _ msgs); projections; exact Hmsgs].
  projections.
  erewrite se_bind_returns; [| reflexivity].
  unfold getMessages. projections.
  change (SimpleDictMemory.addAll msgs
            (SimpleDictMemory.addMessage ?m (memory s)))
    with (SimpleDictMemory.addAll (m :: msgs) (memory s)).
  subst asst updated. unfold assistant_turn.
  rewrite (tool_results_length _ _ _ _ _ Hresults).
  unfold se_bind at 1. unfold llm_chat. projections.
  unfold followup_outcome.
  destruct (provider_chat (llm this) (llm_calls s) _ None)
    as [followup | e].
  - cbn [exc_bind]. unfold se_bind.
    destruct (LLMResponse.toolCalls followup) as [fcalls |].
    + unfold se_lift.
      destruct (convertToolCalls fcalls) as [ftcs | e];
        (apply run_eq; [reflexivity | rewrite <- !app_assoc; reflexivity]).
    + apply run_eq; [reflexivity | rewrite <- !app_assoc; reflexivity].
  - apply run_eq; [reflexivity | rewrite <- !app_assoc; reflexivity].
Qed.

(** *** The end of [chat] *)

Lemma conclude_run this response final s :
  exists agentResponse,
    conclude this response final s
    = (Returns agentResponse,
       mkState (SimpleDictMemory.addMessage
                  (Message.mk (Some Assistant) (Some (fst final)) None None
                              (clock this (clock_reads s)))
                  (memory s))
               (toolRegistry s)
               (trace s
                  ++ added_events
                       [Message.mk (Some Assistant) (Some (fst final))
                                   None None (clock this (clock_reads s))]
                  ++ [EmitChatComplete agentResponse])
               (llm_calls s) (S (clock_reads s)))
    /\ AgentResponse.content agentResponse = fst final
    /\ AgentResponse.toolCalls agentResponse = snd final.
Proof.
  eexists. unfold conclude.
  erewrite se_bind_returns; [| reflexivity].
  erewrite se_bind_returns; [| apply addMessage_run].
  erewrite se_bind_returns; [| reflexivity].
  unfold se_bind, emit, se_modify, se_ret. projections.
  split.
  - apply run_eq; [reflexivity | rewrite <- app_assoc; reflexivity].
  - split; reflexivity.
Qed.


(** *** The [try] block of [chat] *)

Lemma llm_chat_run this messages tools s :
  llm_chat this messages tools s
  = (provider_chat (llm this) (llm_calls s) messages tools,
     mkState (memory s) (toolRegistry s)
             (trace s ++ [CallChat messages tools])
             (S (llm_calls s)) (clock_reads s)).
Proof. reflexivity. Qed.

(** The provider throws on the first request. *)
Lemma attempt_first_failure this messages tools p e :
  provider_chat (llm this) (llm_calls p) messages (tools_argument tools)
  = Throws e ->
  attempt this messages tools p
  = (Throws e,
     mkState (memory p) (toolRegistry p)
             (trace p ++ [EmitLlmRequest messages tools;
                          CallChat messages (tools_argument tools)])
             (S (llm_calls p)) (clock_reads p)).
Proof.
  intros H. unfold attempt.
  erewrite se_bind_returns; [| reflexivity].
  erewrite se_bind_throws; [| rewrite llm_chat_run; projections; rewrite H;
                              reflexivity].
  apply run_eq; [reflexivity | rewrite <- app_assoc; reflexivity].
Qed.

(** The provider answers the first request with tool calls that can be
    converted and whose results can be turned into messages. *)
Lemma attempt_tool_round this messages tools p response c cs tcs msgs :
  provider_chat (llm this) (llm_calls p) messages (tools_argument tools)
  = Returns response ->
  LLMResponse.toolCalls response = Some (c :: cs) ->
  convertToolCalls (c :: cs) = Returns tcs ->
  tool_round_messages this (toolRegistry p) (clock_reads p) tcs
  = Returns msgs ->
  let asst :=
    assistant_turn this (clock_reads p + 2 * length tcs) response tcs in
  let updated :=
    recent_with_system this
      (SimpleDictMemory.getMessages
         (SimpleDictMemory.addAll (asst :: msgs) (memory p))) in
  let p2 :=
    mkState (SimpleDictMemory.addAll (asst :: msgs) (memory p))
            (toolRegistry p)
            (trace p
               ++ [EmitLlmRequest messages tools;
                   CallChat messages (tools_argument tools);
                   EmitLlmResponse response]
               ++ tool_events this (toolRegistry p) (clock_reads p) tcs
               ++ added_events (asst :: msgs)
               ++ [CallChat updated None])
            (S (S (llm_calls p)))
            (S (clock_reads p + 2 * length tcs) + length tcs) in
  attempt this messages tools p
  = match followup_outcome tcs
            (provider_chat (llm this) (S (llm_calls p)) updated None) with
    | Returns final => conclude this response final p2
    | Throws e => (Throws e, p2)
    end.
Proof.
  intros Hanswer Hcalls Hconv Hmsgs asst updated p2.
  unfold attempt.
  erewrite se_bind_returns; [| reflexivity].
  erewrite se_bind_returns;
    [| rewrite llm_chat_run; projections; rewrite Hanswer; reflexivity].
  erewrite se_bind_returns; [| reflexivity].
  rewrite Hcalls.
  unfold se_bind at 1.
  rewrite (resolve_tools_run this response (c :: cs) tcs msgs _ Hconv)
    by (projections; exact Hmsgs).
  projections. subst asst updated p2.
  assert (Etrace : forall (t : list Event) a b c' rest,
            ((t ++ [a]) ++ [b]) ++ [c'] ++ rest = t ++ [a; b; c'] ++ rest).
  { intros. rewrite <- !app_assoc. reflexivity. }
  destruct (followup_outcome tcs _) as [final | e];
    f_equal; f_equal; rewrite <- !app_assoc; reflexivity.
Qed.


Lemma chat_unfold this u s :
  chat this u s
  = se_catch (attempt this (outbound this s u)
                      (Tools.getOpenAITools (toolRegistry s)))
             (fun error => se_bind (emit (EmitChatError error))
                                   (fun _ => se_throw error))
             (at_attempt this s u).
Proof.
  unfold chat.
  erewrite se_bind_returns; [| reflexivity].
  rewrite (se_bind_returns _ _ _ _ _ (prepare_run this u _)).
  erewrite se_bind_returns; [| reflexivity].
  reflexivity.
Qed.

(** *** A whole [chat] with a tool round *)

Lemma state_eq {A : Type} (x : Exc A) m m' r t t' l c :
  m = m' -> t = t' -> (x, mkState m r t l c) = (x, mkState m' r t' l c).
Proof. intros -> ->. reflexivity. Qed.

Lemma addAll_app (l1 l2 : list Message.t) mem :
  SimpleDictMemory.addAll (l1 ++ l2) mem
  = SimpleDictMemory.addAll l2 (SimpleDictMemory.addAll l1 mem).
Proof. apply fold_left_app. Qed.

Lemma chat_tool_round this u s response c cs tcs msgs :
  let p := at_attempt this s u in
  let asst :=
    assistant_turn this (clock_reads p + 2 * length tcs) response tcs in
  let stored := user_message this s u :: asst :: msgs in
  let updated :=
    recent_with_system this
      (SimpleDictMemory.getMessages
         (SimpleDictMemory.addAll stored (memory s))) in
  let common := tool_round_events this s u response tcs msgs updated in
  let reading := (S (clock_reads p + 2 * length tcs) + length tcs)%nat in
  first_answer this s u = Returns response ->
  LLMResponse.toolCalls response = Some (c :: cs) ->
  convertToolCalls (c :: cs) = Returns tcs ->
  tool_round_messages this (toolRegistry s) (clock_reads p) tcs
  = Returns msgs ->
  match followup_outcome tcs
          (provider_chat (llm this) (S (llm_calls s)) updated None) with
  | Returns final =>
      let final_message :=
        Message.mk (Some Assistant) (Some (fst final)) None None
                   (clock this reading) in
      exists agentResponse,
        chat this u s
        = (Returns agentResponse,
           mkState (SimpleDictMemory.addAll (stored ++ [final_message])
                                            (memory s))
                   (toolRegistry s)
                   (trace s ++ common ++ added_events [final_message]
                      ++ [EmitChatComplete agentResponse])
                   (S (S (llm_calls s))) (S reading))
        /\ AgentResponse.content agentResponse = fst final
        /\ AgentResponse.toolCalls agentResponse = snd final
  | Throws e =>
      chat this u s
      = (Throws e,
         mkState (SimpleDictMemory.addAll stored (memory s))
                 (toolRegistry s)
                 (trace s ++ common ++ [EmitChatError e])
                 (S (S (llm_calls s))) reading)
  end.
Proof.
  intros p asst stored updated common reading Hfirst Hcalls Hconv Hmsgs.
  rewrite chat_unfold. unfold se_catch. fold p.
  rewrite (attempt_tool_round this (outbound this s u)
             (Tools.getOpenAITools (toolRegistry s)) p
             response c cs tcs msgs Hfirst Hcalls Hconv Hmsgs).
  cbv zeta.
  change (memory (at_attempt this s u))
    with (SimpleDictMemory.addMessage (user_message this s u) (memory s)).
  change (SimpleDictMemory.addAll (?a :: msgs)
            (SimpleDictMemory.addMessage ?m (memory s)))
    with (SimpleDictMemory.addAll (m :: a :: msgs) (memory s)).
  fold p. fold asst. fold stored. fold updated.
  change (llm_calls p) with (llm_calls s).
  destruct (followup_outcome tcs _) as [final | e].
  - match goal with
    | |- context [conclude this response final ?st] =>
        destruct (conclude_run this response final st)
          as (agentResponse & Hrun & Hcontent & HtoolCalls)
    end.
    rewrite Hrun. exists agentResponse.
    split; [| split; assumption].
    projections. apply state_eq.
    + rewrite addAll_app. reflexivity.
    + subst common. unfold tool_round_events, p, at_attempt, prepared.
      projections. rewrite <- !app_assoc. reflexivity.
  - unfold se_bind, emit, se_modify, se_throw. projections.
    apply state_eq; [reflexivity |].
    subst common. unfold tool_round_events, p, at_attempt, prepared.
    projections. rewrite <- !app_assoc. reflexivity.
Qed.

(** *** What a tool round leaves in the trace *)



Lemma tool_round_requests this s u response tcs msgs updated :
  requests (tool_round_events this s u response tcs msgs updated)
  = [(outbound this s u, offered_tools s); (updated, None)].
Proof.
  unfold tool_round_events. cbv zeta.
  rewrite !requests_app, tool_events_requests, !added_events_requests.
  reflexivity.
Qed.

Lemma tool_round_appends this s u response tcs msgs updated :
  appends (tool_round_events this s u response tcs msgs updated)
  = user_message this s u
      :: assistant_turn this
           (clock_reads (at_attempt this s u) + 2 * length tcs) response tcs
      :: msgs.
Proof.
  unfold tool_round_events. cbv zeta.
  rewrite !appends_app, tool_events_appends, !added_events_appends.
  simpl. rewrite app_nil_r. reflexivity.
Qed.

Lemma events_of_run {A : Type} (run : SE State A) s x m r new l c :
  run s = (x, mkState m r (trace s ++ new) l c) -> events_of run s = new.
Proof. intros H. apply events_of_extension. rewrite H. reflexivity. Qed.

(** The whole trace of a [chat] with a tool round: the events up to the
    follow-up request, and then either the final message or the error. *)
Lemma chat_tool_round_events this u s response c cs tcs :
  first_answer this s u = Returns response ->
  LLMResponse.toolCalls response = Some (c :: cs) ->
  convertToolCalls (c :: cs) = Returns tcs ->
  Forall (serialisable (toolRegistry s)) tcs ->
  exists msgs updated tail,
    Forall2 answers tcs msgs
    /\ (exists results,
          tool_results this (toolRegistry s)
                       (clock_reads (at_attempt this s u)) tcs
          = Returns results)
    /\ updated
       = recent_with_system this
           (SimpleDictMemory.getMessages
              (SimpleDictMemory.addAll
                 (user_message this s u
                    :: assistant_turn this
                         (clock_reads (at_attempt this s u) + 2 * length tcs)
                         response tcs
                    :: msgs)
                 (memory s)))
    /\ events_of (chat this u) s
       = tool_round_events this s u response tcs msgs updated ++ tail
    /\ memory (snd (chat this u s))
       = SimpleDictMemory.addAll
           (appends (tool_round_events this s u response tcs msgs updated
                       ++ tail))
           (memory s)
    /\ match followup_outcome tcs
               (provider_chat (llm this) (S (llm_calls s)) updated None) with
       | Returns final =>
           exists agentResponse final_message,
             fst (chat this u s) = Returns agentResponse
             /\ AgentResponse.content agentResponse = fst final
             /\ AgentResponse.toolCalls agentResponse = snd final
             /\ Message.role final_message = Some Assistant
             /\ Message.content final_message = Some (fst final)
             /\ tail = added_events [final_message]
                         ++ [EmitChatComplete agentResponse]
       | Throws e =>
           fst (chat this u s) = Throws e /\ tail = [EmitChatError e]
       end.
Proof.
  intros Hfirst Hcalls Hconv Hser.
  destruct (serialisable_tool_messages this (toolRegistry s) tcs Hser
              (clock_reads (at_attempt this s u)))
    as (msgs & Hmsgs & Hanswers).
  destruct (tool_round_messages_results _ _ _ _ _ Hmsgs)
    as (results & Hresults & _).
  pose proof (chat_tool_round this u s response c cs tcs msgs
                Hfirst Hcalls Hconv Hmsgs) as Hrun.
  cbv zeta in Hrun.
  set (updated :=
         recent_with_system this
           (SimpleDictMemory.getMessages
              (SimpleDictMemory.addAll
                 (user_message this s u
                    :: assistant_turn this
                         (clock_reads (at_attempt this s u) + 2 * length tcs)
                         response tcs
                    :: msgs)
                 (memory s)))) in *.
  exists msgs, updated.
  destruct (followup_outcome tcs
              (provider_chat (llm this) (S (llm_calls s)) updated None))
    as [final | e].
  - destruct Hrun as (agentResponse & Hrun & Hcontent & HtoolCalls).
    eexists. split; [exact Hanswers |].
    split; [exists results; exact Hresults |]. split; [reflexivity |].
    split; [apply (events_of_run _ _ _ _ _ _ _ _ Hrun) |].
    split.
    + rewrite Hrun. projections.
      rewrite appends_app, tool_round_appends, !appends_app,
        added_events_appends.
      replace (appends [EmitChatComplete agentResponse])
        with (@nil Message.t) by reflexivity.
      rewrite app_nil_r. reflexivity.
    + cbv beta iota. eexists agentResponse, _. rewrite Hrun.
      repeat split; try eassumption; reflexivity.
  - eexists. split; [exact Hanswers |].
    split; [exists results; exact Hresults |]. split; [reflexivity |].
    split; [apply (events_of_run _ _ _ _ _ _ _ _ Hrun) |].
    split.
    + rewrite Hrun. projections.
      rewrite appends_app, tool_round_appends.
      replace (appends [EmitChatError e]) with (@nil Message.t)
        by reflexivity.
      rewrite app_nil_r. reflexivity.
    + cbv beta iota. rewrite Hrun. split; reflexivity.
Qed.

(** *** The memory changes by [addMessage] only

    A computation is tracked when it only adds events to the trace, the
    memory it leaves is the memory it found after the [addMessage] calls of
    these events, and it leaves the tool registry as it was, whether it
    returns or throws. *)

Lemma tracked_same {A : Type} (c : SE State A) :
  (forall s, snd (c s) = s) -> tracked c.
Proof.
  intros H s. exists []. rewrite H, app_nil_r. repeat split; reflexivity.
Qed.

Lemma tracked_ret {A : Type} (a : A) : tracked (se_ret a).
Proof. apply tracked_same. reflexivity. Qed.

Lemma tracked_throw {A : Type} e : tracked (@se_throw State A e).
Proof. apply tracked_same. reflexivity. Qed.

Lemma tracked_lift {A : Type} (x : Exc A) : tracked (se_lift x).
Proof. apply tracked_same. reflexivity. Qed.

Lemma tracked_get : tracked (@se_get State).
Proof. apply tracked_same. reflexivity. Qed.

Lemma tracked_bind {A B : Type} (c : SE State A) (k : A -> SE State B) :
  tracked c -> (forall a, tracked (k a)) -> tracked (se_bind c k).
Proof.
  intros Hc Hk s. unfold se_bind.
  destruct (Hc s) as (n1 & Ht1 & Hm1 & Hr1).
  destruct (c s) as [[a | e] s1]; simpl in Ht1, Hm1, Hr1.
  - destruct (Hk a s1) as (n2 & Ht2 & Hm2 & Hr2).
    exists (n1 ++ n2). rewrite Ht2, Hm2, Hr2, Ht1, Hm1, Hr1.
    rewrite appends_app, addAll_app, app_assoc. repeat split; reflexivity.
  - exists n1. simpl. repeat split; assumption.
Qed.

Lemma tracked_catch {A : Type} (c : SE State A) (h : Thrown -> SE State A) :
  tracked c -> (forall e, tracked (h e)) -> tracked (se_catch c h).
Proof.
  intros Hc Hh s. unfold se_catch.
  destruct (Hc s) as (n1 & Ht1 & Hm1 & Hr1).
  destruct (c s) as [[a | e] s1]; simpl in Ht1, Hm1, Hr1.
  - exists n1. simpl. repeat split; assumption.
  - destruct (Hh e s1) as (n2 & Ht2 & Hm2 & Hr2).
    exists (n1 ++ n2). rewrite Ht2, Hm2, Hr2, Ht1, Hm1, Hr1.
    rewrite appends_app, addAll_app, app_assoc. repeat split; reflexivity.
Qed.

Lemma tracked_for {A : Type} (xs : list A) (body : A -> SE State unit) :
  (forall x, tracked (body x)) -> tracked (se_for xs body).
Proof.
  intros Hbody. induction xs as [| x xs IH]; simpl.
  - apply tracked_ret.
  - apply tracked_bind; [apply Hbody | intros _; exact IH].
Qed.

Lemma tracked_emit e : appended e = [] -> tracked (emit e).
Proof.
  intros He s. exists [e]. unfold emit, se_modify, appends. simpl.
  rewrite He. repeat split; reflexivity.
Qed.

Lemma tracked_read_clock this : tracked (read_clock this).
Proof.
  intros s. exists []. unfold read_clock. simpl. rewrite app_nil_r.
  repeat split; reflexivity.
Qed.

Lemma tracked_addMessage m : tracked (addMessage m).
Proof.
  intros s. exists (added_events [m]). rewrite addMessage_run.
  repeat split; reflexivity.
Qed.

Lemma tracked_llm_chat this messages tools :
  tracked (llm_chat this messages tools).
Proof.
  intros s. exists [CallChat messages tools]. repeat split; reflexivity.
Qed.

Lemma tracked_llm_stream this messages tools :
  tracked (llm_stream this messages tools).
Proof.
  intros s. exists [CallStream messages tools]. repeat split; reflexivity.
Qed.

Lemma tracked_executeToolCalls this tcs : tracked (executeToolCalls this tcs).
Proof.
  intros s.
  destruct (executeToolCalls_keeps this tcs s)
    as (Htrace & Hmemory & Hregistry).
  exists (tool_events this (toolRegistry s) (clock_reads s) tcs).
  rewrite tool_events_appends. repeat split; assumption.
Qed.

Ltac tracked_step :=
  first
    [ apply tracked_ret | apply tracked_throw | apply tracked_lift
    | apply tracked_get | apply tracked_read_clock | apply tracked_addMessage
    | apply tracked_llm_chat | apply tracked_llm_stream
    | apply tracked_executeToolCalls
    | apply tracked_emit; reflexivity
    | apply tracked_bind; [| intros ?]
    | apply tracked_catch; [| intros ?] ].

Lemma tracked_add_tool_message this result :
  tracked (add_tool_message this result).
Proof. unfold add_tool_message. repeat tracked_step. Qed.

Lemma tracked_resolve_tools this response calls :
  tracked (resolve_tools this response calls).
Proof.
  unfold resolve_tools. repeat tracked_step.
  - apply tracked_for. apply tracked_add_tool_message.
  - destruct (LLMResponse.toolCalls _); tracked_step.
Qed.

Lemma tracked_conclude this response final :
  tracked (conclude this response final).
Proof. unfold conclude. repeat tracked_step. Qed.

Lemma tracked_prepare this u : tracked (prepare this u).
Proof.
  unfold prepare. repeat tracked_step.
  destruct (negb _); repeat tracked_step.
Qed.

Lemma tracked_attempt this messages tools :
  tracked (attempt this messages tools).
Proof.
  unfold attempt.
  tracked_step; [tracked_step |].
  tracked_step; [tracked_step |].
  tracked_step; [tracked_step |].
  tracked_step; [| apply tracked_conclude].
  destruct (LLMResponse.toolCalls _) as [[| c cs] |];
    [apply tracked_ret | apply tracked_resolve_tools | apply tracked_ret].
Qed.

(** Whatever happens in a [chat], its memory is the memory it found after
    the [addMessage] calls of its trace: nothing is taken back. *)
Lemma tracked_chat this u : tracked (chat this u).
Proof.
  unfold chat.
  tracked_step; [tracked_step |].
  apply tracked_bind; [apply tracked_prepare | intros messages].
  tracked_step; [tracked_step |].
  apply tracked_catch; [apply tracked_attempt | intros e].
  repeat tracked_step.
Qed.

Lemma tracked_consume caller chunks failure : forall received fullContent,
  tracked (consume caller chunks failure received fullContent).
Proof.
  induction chunks as [| chunk rest IH]; intros received fullContent; simpl.
  - destruct failure; tracked_step.
  - repeat tracked_step.
    destruct (caller _); [tracked_step |].
    destruct (StreamChunk.finished chunk) as [[|] |];
      [tracked_step | apply IH | apply IH].
Qed.

Lemma tracked_stream this u caller : tracked (stream this u caller).
Proof.
  unfold stream.
  tracked_step; [tracked_step |].
  apply tracked_bind; [apply tracked_prepare | intros messages].
  tracked_step; [tracked_step |].
  apply tracked_catch; [| intros e; repeat tracked_step].
  unfold attempt_stream.
  tracked_step; [tracked_step |].
  apply tracked_bind; [apply tracked_consume | intros [fullContent |]];
    [| tracked_step].
  tracked_step; [| repeat tracked_step].
  destruct (JS.truthy_string fullContent); repeat tracked_step.
Qed.

(** *** The first request of a [chat] *)

Lemma chat_first_failure this u s e :
  first_answer this s u = Throws e ->
  chat this u s
  = (Throws e,
     mkState (SimpleDictMemory.addMessage (user_message this s u) (memory s))
             (toolRegistry s)
             (trace s
                ++ [EmitChatStart u]
                ++ added_events [user_message this s u]
                ++ [EmitLlmRequest (outbound this s u)
                      (Tools.getOpenAITools (toolRegistry s));
                    CallChat (outbound this s u) (offered_tools s);
                    EmitChatError e])
             (S (llm_calls s))
             (clock_reads (at_attempt this s u))).
Proof.
  intros Hfirst. rewrite chat_unfold. unfold se_catch.
  rewrite (attempt_first_failure this (outbound this s u)
             (Tools.getOpenAITools (toolRegistry s)) (at_attempt this s u) e
             Hfirst).
  unfold se_bind, emit, se_modify, se_throw. projections.
  apply state_eq; [reflexivity |].
  unfold at_attempt, prepared. projections.
  rewrite <- !app_assoc. reflexivity.
Qed.


(** Every [chat] begins in the same way: the user's message is appended,
    and the first request carries the outbound list and the tools. *)
Lemma chat_begins_trace this u s :
  exists rest,
    trace (snd (chat this u s))
    = trace s
        ++ [EmitChatStart u]
        ++ added_events [user_message this s u]
        ++ [EmitLlmRequest (outbound this s u)
              (Tools.getOpenAITools (toolRegistry s));
            CallChat (outbound this s u) (offered_tools s)]
        ++ rest.
Proof.
  assert (Hrest : forall response,
            tracked (se_bind (emit (EmitLlmResponse response))
                       (fun _ =>
                          se_bind
                            match LLMResponse.toolCalls response with
                            | Some (c :: cs) =>
                                resolve_tools this response (c :: cs)
                            | _ => se_ret (LLMResponse.content response, [])
                            end
                            (fun final => conclude this response final)))).
  { intros response.
    apply tracked_bind; [apply tracked_emit; reflexivity | intros _].
    apply tracked_bind; [| intros final; apply tracked_conclude].
    destruct (LLMResponse.toolCalls response) as [[| c cs] |];
      [apply tracked_ret | apply tracked_resolve_tools | apply tracked_ret]. }
  destruct (first_answer this s u) as [response | e] eqn:Hfirst.
  - rewrite chat_unfold. unfold se_catch, attempt.
    erewrite se_bind_returns; [| reflexivity].
    erewrite se_bind_returns;
      [| rewrite llm_chat_run; projections;
         change (provider_chat _ _ _ _) with (first_answer this s u);
         rewrite Hfirst; reflexivity].
    match goal with
    | |- context [se_bind _ _ ?st] =>
        destruct (Hrest response st) as (new & Htrace & _)
    end.
    match type of Htrace with
    | trace (snd ?run) = _ => destruct run as [[a | e] s']
    end; simpl in Htrace.
    + exists (new). simpl. rewrite Htrace.
      unfold at_attempt, prepared. projections.
      rewrite <- !app_assoc. reflexivity.
    + exists (new ++ [EmitChatError e]).
      unfold se_bind, emit, se_modify, se_throw. simpl. rewrite Htrace.
      unfold at_attempt, prepared. projections.
      rewrite <- !app_assoc. reflexivity.
  - exists [EmitChatError e].
    rewrite (chat_first_failure this u s e Hfirst). reflexivity.
Qed.

Lemma chat_begins this u s :
  exists rest,
    events_of (chat this u) s
    = [EmitChatStart u]
        ++ added_events [user_message this s u]
        ++ [EmitLlmRequest (outbound this s u)
              (Tools.getOpenAITools (toolRegistry s));
            CallChat (outbound this s u) (offered_tools s)]
        ++ rest.
Proof.
  destruct (chat_begins_trace this u s) as (rest & Htrace).
  exists rest. apply events_of_extension. exact Htrace.
Qed.

(** When the assembled history has no system message, the list of the
    first request has exactly one, in front. *)
Lemma outbound_one_system_message this u s :
  has_system (assembled_history this s u) = false ->
  one_system_message_first (outbound this s u).
Proof.
  intros Hnone. unfold outbound, one_system_message_first. rewrite Hnone.
  simpl. split.
  - unfold system_count. simpl. f_equal.
    unfold has_system in Hnone.
    induction (assembled_history this s u) as [| m rest IH];
      [reflexivity |].
    simpl in Hnone. apply orb_false_iff in Hnone as [Hm Hrest].
    simpl. rewrite Hm. apply IH. exact Hrest.
  - eexists. eexists. split; reflexivity.
Qed.

Lemma first_request_has_the_system_prompt this u s :
  has_system (assembled_history this s u) = false ->
  one_system_message_first (outbound this s u)
  /\ exists later,
       requests (events_of (chat this u) s)
       = (outbound this s u, offered_tools s) :: later.
Proof.
  intros Hnone. split; [apply outbound_one_system_message; exact Hnone |].
  destruct (chat_begins this u s) as (rest & Hevents).
  exists (requests rest). rewrite Hevents.
  rewrite !requests_app, added_events_requests. reflexivity.
Qed.

(** *** Messages that are not system messages *)

Lemma addMessage_keeps (P : Message.t -> Prop) m mem :
  Forall P (SimpleDictMemory.messages mem) -> P m ->
  Forall P (SimpleDictMemory.messages (SimpleDictMemory.addMessage m mem)).
Proof.
  intros Hmem Hm.
  assert (Hpushed : Forall P (SimpleDictMemory.messages mem ++ [m])).
  { apply Forall_app. split; [exact Hmem | constructor; [exact Hm | constructor]]. }
  unfold SimpleDictMemory.addMessage.
  destruct (SimpleDictMemory.maxMessages mem <? _); simpl;
    [apply Forall_drop |]; exact Hpushed.
Qed.

Lemma addAll_keeps (P : Message.t -> Prop) ms : forall mem,
  Forall P (SimpleDictMemory.messages mem) -> Forall P ms ->
  Forall P (SimpleDictMemory.messages (SimpleDictMemory.addAll ms mem)).
Proof.
  induction ms as [| m ms IH]; intros mem Hmem Hms; [exact Hmem |].
  inversion Hms; subst.
  change (SimpleDictMemory.addAll (m :: ms) mem)
    with (SimpleDictMemory.addAll ms (SimpleDictMemory.addMessage m mem)).
  apply IH; [apply addMessage_keeps |]; assumption.
Qed.

Lemma list_filter_keeps {A : Type} (P : A -> Prop) f (l : list A) :
  Forall P l -> Forall P (List.filter f l).
Proof.
  induction 1 as [| x l Hx _ IH]; simpl; [constructor |].
  destruct (f x); [constructor |]; assumption.
Qed.

Lemma recent_keeps (P : Message.t -> Prop) this messages :
  Forall P messages -> Forall P (recent_with_system this messages).
Proof.
  intros H. unfold recent_with_system.
  destruct (maxMemoryMessages this <? _); [| exact H].
  apply Forall_app. split.
  - apply list_filter_keeps. exact H.
  - unfold JS.slice_from. apply Forall_drop, list_filter_keeps. exact H.
Qed.

Lemma no_system_has_system messages :
  no_system_message messages -> has_system messages = false.
Proof.
  induction 1 as [| m rest Hm _ IH]; [reflexivity |].
  unfold has_system in *. simpl. rewrite Hm. exact IH.
Qed.

Lemma no_system_count messages :
  no_system_message messages -> system_count messages = 0%nat.
Proof.
  induction 1 as [| m rest Hm _ IH]; [reflexivity |].
  unfold system_count in *. simpl. rewrite Hm. exact IH.
Qed.


(** *** [stream] *)

Lemma string_app_nil_r (a : string) : a +:+ "" = a.
Proof.
  induction a as [| x a IH]; [reflexivity |].
  change (String x a +:+ "") with (String x (a +:+ "")).
  rewrite IH. reflexivity.
Qed.

Lemma string_app_assoc (a b c : string) : (a +:+ b) +:+ c = a +:+ (b +:+ c).
Proof.
  induction a as [| x a IH]; [reflexivity |].
  change ((String x a +:+ b) +:+ c) with (String x ((a +:+ b) +:+ c)).
  rewrite IH. reflexivity.
Qed.

Lemma chunk_events_yields chunks : yields (chunk_events chunks) = chunks.
Proof.
  induction chunks as [| c rest IH]; simpl; [reflexivity | f_equal; exact IH].
Qed.

Lemma chunk_events_appends chunks : appends (chunk_events chunks) = [].
Proof.
  induction chunks as [| c rest IH]; simpl; [reflexivity | exact IH].
Qed.

Lemma added_events_yields ms : yields (added_events ms) = [].
Proof. induction ms as [| m ms IH]; simpl; [reflexivity | exact IH]. Qed.

Lemma received_all chunks :
  has_finished_chunk chunks = false -> received chunks = chunks.
Proof.
  induction chunks as [| chunk rest IH]; [reflexivity |].
  simpl. destruct (StreamChunk.finished chunk) as [[|] |]; simpl;
    try discriminate; intros H; rewrite (IH H); reflexivity.
Qed.

(** What the content is after a chunk. *)
Lemma content_after chunk fullContent :
  match StreamChunk.content chunk with
  | Some text =>
      if JS.truthy_string text then fullContent +:+ text else fullContent
  | None => fullContent
  end
  = fullContent +:+ match StreamChunk.content chunk with
                    | Some text => text
                    | None => ""
                    end.
Proof.
  destruct (StreamChunk.content chunk) as [[| x text] |];
    cbn [JS.truthy_string]; rewrite ?string_app_nil_r; reflexivity.
Qed.

(** The loop, when the caller stays and the loop is left without an
    exception: the stream ends, or a chunk is finished. *)
Lemma consume_done caller chunks failure : forall seen fullContent s,
  leaves caller seen chunks = false ->
  failure = None \/ has_finished_chunk chunks = true ->
  consume caller chunks failure seen fullContent s
  = (Returns (Some (fullContent +:+ deltas (received chunks))),
     mkState (memory s) (toolRegistry s)
             (trace s ++ chunk_events (received chunks))
             (llm_calls s) (clock_reads s)).
Proof.
  induction chunks as [| chunk rest IH];
    intros seen fullContent s Hstays Hleft.
  - destruct Hleft as [-> | Hcut]; [| discriminate].
    simpl. unfold se_ret. rewrite string_app_nil_r, app_nil_r.
    destruct s; reflexivity.
  - cbn [consume received deltas leaves] in *.
    erewrite se_bind_returns; [| reflexivity].
    erewrite se_bind_returns; [| reflexivity].
    rewrite content_after.
    destruct (caller (seen ++ [chunk])); [discriminate |].
    assert (Hrest : failure = None \/ has_finished_chunk rest = true
                    \/ StreamChunk.finished chunk = Some true).
    { destruct Hleft as [-> | Hcut]; [left; reflexivity | right].
      simpl in Hcut.
      destruct (StreamChunk.finished chunk) as [[|] |]; simpl in Hcut;
        [right; reflexivity | left; exact Hcut | left; exact Hcut]. }
    destruct (StreamChunk.finished chunk) as [[|] |].
    + unfold se_ret. projections. cbn [deltas chunk_events flat_map].
      destruct (StreamChunk.content chunk) as [text |];
        rewrite ?string_app_nil_r;
        (apply state_eq; [reflexivity | rewrite <- !app_assoc; reflexivity]).
    + rewrite IH; [| exact Hstays
                   | destruct Hrest as [H | [H | H]];
                     [left; exact H | right; exact H | discriminate]].
      projections. cbn [deltas chunk_events flat_map].
      destruct (StreamChunk.content chunk) as [text |];
        rewrite ?string_app_assoc;
        (apply state_eq; [reflexivity | rewrite <- !app_assoc; reflexivity]).
    + rewrite IH; [| exact Hstays
                   | destruct Hrest as [H | [H | H]];
                     [left; exact H | right; exact H | discriminate]].
      projections. cbn [deltas chunk_events flat_map].
      destruct (StreamChunk.content chunk) as [text |];
        rewrite ?string_app_assoc;
        (apply state_eq; [reflexivity | rewrite <- !app_assoc; reflexivity]).
Qed.

(** The loop, when the caller stays and the stream breaks before any chunk
    is finished. *)
Lemma consume_broken caller chunks e : forall seen fullContent s,
  leaves caller seen chunks = false ->
  has_finished_chunk chunks = false ->
  consume caller chunks (Some e) seen fullContent s
  = (Throws e,
     mkState (memory s) (toolRegistry s)
             (trace s ++ chunk_events chunks)
             (llm_calls s) (clock_reads s)).
Proof.
  induction chunks as [| chunk rest IH];
    intros seen fullContent s Hstays Hnone.
  - simpl. unfold se_throw. rewrite app_nil_r. destruct s; reflexivity.
  - cbn [consume leaves] in *.
    erewrite se_bind_returns; [| reflexivity].
    erewrite se_bind_returns; [| reflexivity].
    destruct (caller (seen ++ [chunk])); [discriminate |].
    simpl in Hnone.
    destruct (StreamChunk.finished chunk) as [[|] |]; simpl in Hnone;
      try discriminate;
      rewrite (IH _ _ _ Hstays Hnone); projections;
      cbn [chunk_events flat_map];
      (apply state_eq; [reflexivity | rewrite <- !app_assoc; reflexivity]).
Qed.

(** The loop, when the caller leaves at a chunk. *)
Lemma consume_left caller chunks failure : forall seen fullContent s,
  leaves caller seen chunks = true ->
  consume caller chunks failure seen fullContent s
  = (Returns None,
     mkState (memory s) (toolRegistry s)
             (trace s ++ chunk_events (delivered caller seen chunks))
             (llm_calls s) (clock_reads s)).
Proof.
  induction chunks as [| chunk rest IH];
    intros seen fullContent s Hleaves; [discriminate |].
  cbn [consume leaves delivered] in *.
  erewrite se_bind_returns; [| reflexivity].
  erewrite se_bind_returns; [| reflexivity].
  destruct (caller (seen ++ [chunk])).
  - unfold se_ret. projections. cbn [chunk_events flat_map].
    apply state_eq; [reflexivity | rewrite <- !app_assoc; reflexivity].
  - destruct (StreamChunk.finished chunk) as [[|] |];
      try discriminate;
      rewrite (IH _ _ _ Hleaves); projections;
      cbn [chunk_events flat_map];
      (apply state_eq; [reflexivity | rewrite <- !app_assoc; reflexivity]).
Qed.

(** The chunks that a caller is given when it leaves end with the one at
    which it leaves. *)
Lemma delivered_ends caller chunks : forall seen,
  leaves caller seen chunks = true ->
  exists before chunk, delivered caller seen chunks = before ++ [chunk].
Proof.
  induction chunks as [| chunk rest IH]; intros seen Hleaves;
    [discriminate |].
  cbn [leaves delivered] in *.
  destruct (caller (seen ++ [chunk])); [exists [], chunk; reflexivity |].
  destruct (StreamChunk.finished chunk) as [[|] |]; try discriminate;
    destruct (IH _ Hleaves) as (before & last & Hlast);
    exists (chunk :: before), last; rewrite Hlast; reflexivity.
Qed.

(** A caller that never leaves. *)
Lemma reads_to_the_end_stays chunks : forall seen,
  leaves reads_to_the_end seen chunks = false.
Proof.
  induction chunks as [| chunk rest IH]; intros seen; [reflexivity |].
  simpl. destruct (StreamChunk.finished chunk) as [[|] |];
    [reflexivity | apply IH | apply IH].
Qed.

Lemma stream_unfold this u caller s :
  stream this u caller s
  = se_catch (attempt_stream this caller (outbound this s u)
                             (Tools.getOpenAITools (toolRegistry s)))
             (fun error => se_bind (emit (EmitStreamError error))
                                   (fun _ => se_throw error))
             (prepared this
                (mkState (memory s) (toolRegistry s)
                         (trace s ++ [EmitStreamStart u])
                         (llm_calls s) (clock_reads s))
                u).
Proof.
  unfold stream.
  erewrite se_bind_returns; [| reflexivity].
  rewrite (se_bind_returns _ _ _ _ _ (prepare_run this u _)).
  erewrite se_bind_returns; [| reflexivity].
  reflexivity.
Qed.

(** A whole [stream] whose caller stays and whose loop is left without an
    exception. *)
Lemma stream_run_done this u caller s chunks failure :
  provided_stream this s u = (chunks, failure) ->
  leaves caller [] chunks = false ->
  failure = None \/ has_finished_chunk chunks = true ->
  let p :=
    prepared this
      (mkState (memory s) (toolRegistry s) (trace s ++ [EmitStreamStart u])
               (llm_calls s) (clock_reads s))
      u in
  let fullContent := deltas (received chunks) in
  let committed :=
    if JS.truthy_string fullContent
    then [Message.mk (Some Assistant) (Some fullContent) None None
                     (clock this (clock_reads p))]
    else [] in
  stream this u caller s
  = (Returns Done,
     mkState (SimpleDictMemory.addAll (user_message this s u :: committed)
                                      (memory s))
             (toolRegistry s)
             (trace s
                ++ [EmitStreamStart u]
                ++ added_events [user_message this s u]
                ++ [CallStream (outbound this s u) (offered_tools s)]
                ++ chunk_events (received chunks)
                ++ added_events committed
                ++ [EmitStreamComplete])
             (S (llm_calls s))
             (if JS.truthy_string fullContent
              then S (clock_reads p) else clock_reads p)).
Proof.
  intros Hstream Hstays Hleft p fullContent committed.
  rewrite stream_unfold. fold p. unfold se_catch, attempt_stream.
  erewrite se_bind_returns; [| reflexivity].
  change (provider_stream (llm this) (llm_calls p) (outbound this s u)
            (tools_argument (Tools.getOpenAITools (toolRegistry s))))
    with (provided_stream this s u).
  rewrite Hstream. cbn [fst snd].
  rewrite (se_bind_returns _ _ _ _ _
             (consume_done caller chunks failure [] "" _ Hstays Hleft)).
  change ("" +:+ deltas (received chunks)) with fullContent.
  subst committed.
  destruct (JS.truthy_string fullContent).
  - erewrite se_bind_returns;
      [| erewrite se_bind_returns; [| reflexivity]; apply addMessage_run].
    unfold se_bind, emit, se_modify, se_ret. projections.
    apply state_eq; [reflexivity |].
    unfold p, prepared. projections. rewrite <- !app_assoc. reflexivity.
  - erewrite se_bind_returns; [| reflexivity].
    unfold se_bind, emit, se_modify, se_ret. projections.
    apply state_eq; [reflexivity |].
    unfold p, prepared. projections. rewrite <- !app_assoc. reflexivity.
Qed.

(** A whole [stream] whose caller stays and whose stream breaks before a
    chunk is finished. *)
Lemma stream_run_broken this u caller s chunks e :
  provided_stream this s u = (chunks, Some e) ->
  leaves caller [] chunks = false ->
  has_finished_chunk chunks = false ->
  stream this u caller s
  = (Throws e,
     mkState (SimpleDictMemory.addMessage (user_message this s u) (memory s))
             (toolRegistry s)
             (trace s
                ++ [EmitStreamStart u]
                ++ added_events [user_message this s u]
                ++ [CallStream (outbound this s u) (offered_tools s)]
                ++ chunk_events chunks
                ++ [EmitStreamError e])
             (S (llm_calls s))
             (clock_reads
                (prepared this
                   (mkState (memory s) (toolRegistry s)
                            (trace s ++ [EmitStreamStart u])
                            (llm_calls s) (clock_reads s))
                   u))).
Proof.
  intros Hstream Hstays Hnone.
  rewrite stream_unfold. unfold se_catch, attempt_stream.
  erewrite se_bind_returns; [| reflexivity].
  match goal with
  | |- context [provider_stream (llm this) ?n (outbound this s u) ?t] =>
      change (provider_stream (llm this) n (outbound this s u) t)
        with (provided_stream this s u)
  end.
  rewrite Hstream. cbn [fst snd].
  erewrite se_bind_throws; [| apply consume_broken; assumption].
  unfold se_bind, emit, se_modify, se_throw. projections.
  apply state_eq; [reflexivity |].
  unfold prepared. projections. rewrite <- !app_assoc. reflexivity.
Qed.

(** A whole [stream] whose caller leaves at a chunk. *)
Lemma stream_run_left this u caller s chunks failure :
  provided_stream this s u = (chunks, failure) ->
  leaves caller [] chunks = true ->
  stream this u caller s
  = (Returns ClosedByCaller,
     mkState (SimpleDictMemory.addMessage (user_message this s u) (memory s))
             (toolRegistry s)
             (trace s
                ++ [EmitStreamStart u]
                ++ added_events [user_message this s u]
                ++ [CallStream (outbound this s u) (offered_tools s)]
                ++ chunk_events (delivered caller [] chunks))
             (S (llm_calls s))
             (clock_reads
                (prepared this
                   (mkState (memory s) (toolRegistry s)
                            (trace s ++ [EmitStreamStart u])
                            (llm_calls s) (clock_reads s))
                   u))).
Proof.
  intros Hstream Hleaves.
  rewrite stream_unfold. unfold se_catch, attempt_stream.
  erewrite se_bind_returns; [| reflexivity].
  match goal with
  | |- context [provider_stream (llm this) ?n (outbound this s u) ?t] =>
      change (provider_stream (llm this) n (outbound this s u) t)
        with (provided_stream this s u)
  end.
  rewrite Hstream. cbn [fst snd].
  erewrite se_bind_returns; [| apply consume_left; exact Hleaves].
  unfold se_ret. projections.
  apply state_eq; [reflexivity |].
  unfold prepared. projections. rewrite <- !app_assoc. reflexivity.
Qed.

(** The three ways in which a [stream] goes, given the provider's stream
    and the caller. *)
Lemma stream_cases caller chunks (failure : option Thrown) :
  leaves caller [] chunks = true
  \/ (leaves caller [] chunks = false
      /\ (failure = None \/ has_finished_chunk chunks = true))
  \/ (leaves caller [] chunks = false
      /\ has_finished_chunk chunks = false
      /\ exists e, failure = Some e).
Proof.
  destruct (leaves caller [] chunks); [left; reflexivity | right].
  destruct failure as [e |]; [| left; split; [| left]; reflexivity].
  destruct (has_finished_chunk chunks).
  - left. split; [| right]; reflexivity.
  - right. split; [reflexivity |]. split; [reflexivity |].
    exists e. reflexivity.
Qed.

(** *** A new message is the last one *)


End AgentFacts.

(** ** The agent: tool calls, follow-up, errors, system prompt *)

Section ToolRound.
Import LLM Agent AgentFacts.

Variables (this : Agent) (userMessage : string) (s : State).
Variables (response : LLMResponse.t) (c : LLMToolCall.t)
          (cs : list LLMToolCall.t) (tcs : list ToolCall.t).

(** The provider answers the first request with the tool calls [c :: cs];
    their arguments parse, which gives [tcs]; the results of the tools can
    be turned into messages. *)
Hypothesis Hfirst : first_answer this s userMessage = Returns response.
Hypothesis Hcalls : LLMResponse.toolCalls response = Some (c :: cs).
Hypothesis Hconv : convertToolCalls (c :: cs) = Returns tcs.
Hypothesis Hser : Forall (serialisable (toolRegistry s)) tcs.

Lemma tail_is_quiet (tail : list Event)
    (final : Exc (string * list ToolCall.t)) :
  match final with
  | Returns f =>
      exists (agentResponse : AgentResponse.t) (final_message : Message.t),
        tail = added_events [final_message]
                 ++ [EmitChatComplete agentResponse]
  | Throws e => tail = [EmitChatError e]
  end ->
  executions tail = [] /\ requests tail = []
  /\ executions (calls tail) = [] /\ requests (calls tail) = [].
Proof using Type.
  destruct final as [f | e].
  - intros (agentResponse & final_message & ->). repeat split; reflexivity.
  - intros ->. repeat split; reflexivity.
Qed.


(** C1.  The claim: whenever the assembled history has no system message,
    the list passed to the provider has exactly one, in front.  The first
    request of a [chat] is built in that way, and so is the request of
    [stream]; the follow-up request of a tool round is not: it is sent
    with the history as [getMessages()] gives it, and the system prompt,
    which is never stored, is missing.  Here: a memory without system
    message and a tool round; the first request has its one system message
    in front, the follow-up request has none. *)
Theorem followup_request_lacks_the_system_prompt :
  no_system_message (SimpleDictMemory.messages (memory s)) ->
  followup_without_system_prompt this s userMessage.
Proof using Hfirst Hcalls Hconv Hser.
  intros Hmemory.
  destruct (chat_tool_round_events this userMessage s response c cs tcs
              Hfirst Hcalls Hconv Hser)
    as (msgs & updated & tail & Hanswers & _ & Hupdated & Hevents & _
        & Houtcome).
  assert (Hquiet : executions tail = [] /\ requests tail = []
                   /\ executions (calls tail) = []
                   /\ requests (calls tail) = []).
  { apply (tail_is_quiet tail
             (followup_outcome tcs
                (provider_chat (llm this) (S (llm_calls s)) updated None))).
    destruct (followup_outcome tcs _) as [final | e].
    - destruct Houtcome as (agentResponse & final_message & H).
      exists agentResponse, final_message. apply H.
    - apply Houtcome. }
  destruct Hquiet as (_ & Hreq & _).
  assert (Hhistory : has_system (assembled_history this s userMessage) = false).
  { apply no_system_has_system. unfold assembled_history.
    apply recent_keeps, addMessage_keeps; [exact Hmemory | reflexivity]. }
  split; [exact Hhistory |].
  exists updated. split; [| split].
  - rewrite Hevents, requests_app, tool_round_requests, Hreq. reflexivity.
  - apply outbound_one_system_message. exact Hhistory.
  - apply no_system_count. rewrite Hupdated.
    apply recent_keeps, addAll_keeps; [exact Hmemory |].
    constructor; [reflexivity |]. constructor; [reflexivity |].
    clear - Hanswers. induction Hanswers as [| tc m ? ? [Hrole _] _ IH];
      constructor; [| exact IH].
    unfold Message.is_system. rewrite Hrole. reflexivity.
Qed.

End ToolRound.

Section ToolCalls.
Import LLM Agent AgentFacts.


End ToolCalls.


(** The tool calls of that [chat], in the order in which they were
    executed: the second one is for a tool that is not registered, and is
    executed as well. *)
Example chained_executions :
  Agent.executions
    (events_of (Agent.chat (Samples.agent_of MoreSamples.chained_provider)
                           "weather?")
               Samples.fresh)
  = [Samples.tokyo_tool_call; MoreSamples.time_tool_call]
  /\ map Message.content
         (Agent.appends
            (events_of
               (Agent.chat (Samples.agent_of MoreSamples.chained_provider)
                           "weather?")
               Samples.fresh))
     = [Some "weather?"; Some "Let me see.";
        Some (JS.dq "'Sunny, 22C'"); Some "Tool 'get_time' not found";
        Some "And Paris?"].
Proof. vm_compute. split; reflexivity. Qed.


(** The follow-up response of that provider asks for one more tool call:
    [chat] returns it after the two of the first response, and has
    executed these two only. *)
Example followup_calls_are_returned :
  option_map AgentResponse.toolCalls
    match fst (Agent.chat (Samples.agent_of MoreSamples.chained_provider)
                          "weather?" Samples.fresh) with
    | Returns agentResponse => Some agentResponse
    | Throws _ => None
    end
  = Some [Samples.tokyo_tool_call; MoreSamples.time_tool_call;
          MoreSamples.paris_tool_call].
Proof. vm_compute. reflexivity. Qed.

Lemma followup_request_lacks_the_system_prompt_witness :
  followup_without_system_prompt Samples.weather_agent Samples.fresh
                                 "weather?".
Proof.
  apply (followup_request_lacks_the_system_prompt
           Samples.weather_agent "weather?" Samples.fresh
           (LLM.LLMResponse.mk "" None (Some [Samples.tokyo_call]))
           Samples.tokyo_call [] [Samples.tokyo_tool_call]).
  - vm_compute. reflexivity.
  - reflexivity.
  - vm_compute. reflexivity.
  - constructor; [| constructor].
    intros startTime endTime. eexists. eexists. split; reflexivity.
  - constructor.
Defined.

(** The two requests of that [chat], by the roles of their messages. *)
Example weather_requests :
  map (fun request => map Message.role (fst request))
      (Agent.requests
         (events_of (Agent.chat Samples.weather_agent "weather?")
                    Samples.fresh))
  = [[Some System; Some User]; [Some User; Some Assistant; Some Tool]].
Proof. vm_compute. reflexivity. Qed.



(** What the caller gets in that case: the [SyntaxError]. *)
Example garbled_arguments_throw :
  fst (Agent.chat Samples.garbled_agent "weather?" Samples.fresh)
  = Throws Json.SyntaxError.
Proof. vm_compute. reflexivity. Qed.

(** ** The agent: errors of the provider *)

Section ProviderError.
Import LLM Agent AgentFacts.



End ProviderError.


(** After a tool round whose follow-up request fails, the user's message,
    the assistant message and the tool message are in the memory, when it
    has room for them; in a memory of two messages, the last two are. *)
Example failed_followup_keeps_the_tool_round :
  fst (Agent.chat (Samples.agent_of Samples.failing_followup_provider)
                  "weather?" Samples.fresh)
  = Throws (ErrorObject "503")
  /\ map Message.role
         (SimpleDictMemory.messages
            (Agent.memory
               (snd (Agent.chat
                       (Samples.agent_of Samples.failing_followup_provider)
                       "weather?" Samples.fresh))))
     = [Some User; Some Assistant; Some Tool].
Proof. vm_compute. split; reflexivity. Qed.

Example failed_followup_in_a_small_memory :
  map Message.role
      (SimpleDictMemory.messages
         (Agent.memory
            (snd (Agent.chat
                    (Samples.agent_of Samples.failing_followup_provider)
                    "weather?" MoreSamples.small))))
  = [Some Assistant; Some Tool].
Proof. vm_compute. reflexivity. Qed.

(** ** The agent: streaming *)

Section Streaming.
Import LLM Agent AgentFacts.

Lemma chunk_events_not_complete chunks :
  ~ In EmitStreamComplete (chunk_events chunks).
Proof.
  induction chunks as [| c rest IH]; simpl; [tauto |].
  intros [H | [H | H]]; [discriminate | discriminate | exact (IH H)].
Qed.

(** What holds of a [stream] that its caller has left. *)
Lemma left_stream this userMessage s caller chunks failure :
  provided_stream this s userMessage = (chunks, failure) ->
  leaves caller [] chunks = true ->
  stream_is_left this s userMessage caller chunks.
Proof.
  intros Hstream Hleaves.
  pose proof (stream_run_left this userMessage caller s chunks failure
                Hstream Hleaves) as Hrun.
  unfold stream_is_left.
  rewrite (events_of_run _ _ _ _ _ _ _ _ Hrun), Hrun.
  split; [reflexivity |]. split; [| split; [| split; [reflexivity |]]].
  - rewrite !yields_app, chunk_events_yields, added_events_yields.
    reflexivity.
  - rewrite !appends_app, chunk_events_appends, added_events_appends.
    reflexivity.
  - destruct (delivered_ends caller chunks [] Hleaves)
      as (before & chunk & Hlast).
    rewrite Hlast.
    exists ([EmitStreamStart userMessage]
              ++ added_events [user_message this s userMessage]
              ++ [CallStream (outbound this s userMessage) (offered_tools s)]
              ++ chunk_events before ++ [EmitStreamChunk chunk]), chunk.
    split.
    + unfold chunk_events. rewrite List.flat_map_app. simpl.
      rewrite <- !app_assoc. reflexivity.
    + intros Hin. rewrite !List.in_app_iff in Hin.
      pose proof (chunk_events_not_complete before) as Hchunks.
      simpl in Hin. intuition discriminate.
Qed.

(** What holds of a [stream] that has run to its end. *)
Lemma done_stream this userMessage s caller chunks failure :
  provided_stream this s userMessage = (chunks, failure) ->
  leaves caller [] chunks = false ->
  failure = None \/ has_finished_chunk chunks = true ->
  stream_forwards_and_commits this s userMessage caller chunks.
Proof.
  intros Hstream Hstays Hleft.
  pose proof (stream_run_done this userMessage caller s chunks failure
                Hstream Hstays Hleft) as Hrun.
  cbv zeta in Hrun. unfold stream_forwards_and_commits.
  split; [rewrite Hrun; reflexivity |].
  rewrite (events_of_run _ _ _ _ _ _ _ _ Hrun).
  split.
  - rewrite !yields_app, chunk_events_yields, !added_events_yields.
    simpl. apply app_nil_r.
  - eexists.
    rewrite !appends_app, chunk_events_appends, !added_events_appends.
    simpl. rewrite app_nil_r. reflexivity.
Qed.


End Streaming.


(** Scenario D of the specification: three chunks, the last one finished;
    the message that is committed says Hello, when the caller reads on
    after the finished chunk. *)
Example hello_is_committed :
  map Message.content
      (Agent.appends
         (events_of (Agent.stream Samples.weather_agent "hi"
                                  Agent.reads_to_the_end)
                    Samples.fresh))
  = [Some "hi"; Some "Hello"].
Proof. vm_compute. reflexivity. Qed.

(** The same stream, read by the loop of the package's documentation,
    which leaves at the finished chunk: the three chunks were yielded, and
    the user's message is the only message in the memory. *)
Example hello_is_not_committed :
  map Message.content
      (Agent.appends
         (events_of (Agent.stream Samples.weather_agent "hi"
                                  Agent.leaves_when_finished)
                    Samples.fresh))
  = [Some "hi"]
  /\ Agent.yields
       (events_of (Agent.stream Samples.weather_agent "hi"
                                Agent.leaves_when_finished)
                  Samples.fresh)
     = Samples.hello_chunks.
Proof. vm_compute. split; reflexivity. Qed.


(** ** The tool registry *)

Section Registry.
Import Tools.

Lemma map_get_map_set k k0 v (m : list (string * Tool)) :
  map_get k (map_set k0 v m)
  = if String.eqb k k0 then Some v else map_get k m.
Proof.
  induction m as [| [k' v'] rest IH]; simpl.
  - reflexivity.
  - destruct (String.eqb_spec k0 k') as [-> | Hne]; simpl.
    + destruct (String.eqb k k'); reflexivity.
    + rewrite IH.
      destruct (String.eqb_spec k k') as [-> | Hne']; [| reflexivity].
      destruct (String.eqb_spec k' k0) as [-> | _]; congruence.
Qed.

Lemma getTool_registerTool tool registry name :
  getTool name (registerTool tool registry)
  = if String.eqb name (Tools.name tool) then Some tool
    else getTool name registry.
Proof. apply map_get_map_set. Qed.

Lemma registered_snoc ts t :
  registered (ts ++ [t]) = registerTool t (registered ts).
Proof. unfold registered. rewrite fold_left_app. reflexivity. Qed.

Lemma map_set_keys k v (m : list (string * Tool)) x :
  In x (List.map fst (map_set k v m)) -> x = k \/ In x (List.map fst m).
Proof.
  induction m as [| [k' v'] rest IH]; simpl.
  - intros [<- | []]. left. reflexivity.
  - destruct (String.eqb_spec k k') as [-> | Hne]; simpl.
    + intros [<- | H]; [left; reflexivity | right; right; exact H].
    + intros [<- | H]; [right; left; reflexivity |].
      destruct (IH H) as [-> | H'];
        [left; reflexivity | right; right; exact H'].
Qed.

Lemma map_set_well_keyed t (m : list (string * Tool)) :
  well_keyed m -> well_keyed (map_set (Tools.name t) t m).
Proof.
  intros [Hkeys Hnodup]. split.
  - clear Hnodup. induction Hkeys as [| [k' v'] rest Hk Hrest IH]; simpl.
    + constructor; [reflexivity | constructor].
    + destruct (String.eqb (Tools.name t) k'); constructor;
        solve [assumption | reflexivity].
  - clear Hkeys. induction m as [| [k' v'] rest IH]; simpl.
    + constructor; [intros [] | constructor].
    + inversion Hnodup as [| ? ? Hnotin Hrest]; subst.
      destruct (String.eqb_spec (Tools.name t) k') as [-> | Hne]; simpl.
      * constructor; assumption.
      * constructor; [| apply IH; exact Hrest].
        intros Hin. apply map_set_keys in Hin as [-> | Hin]; congruence.
Qed.

Lemma registered_well_keyed ts : well_keyed (tools (registered ts)).
Proof.
  induction ts as [| t ts IH] using rev_ind.
  - split; constructor.
  - rewrite registered_snoc. apply map_set_well_keyed. exact IH.
Qed.

Lemma map_get_in k v (m : list (string * Tool)) :
  map_get k m = Some v -> In (k, v) m.
Proof.
  induction m as [| [k' v'] rest IH]; simpl; [discriminate |].
  destruct (String.eqb_spec k k') as [-> | Hne].
  - intros [= ->]. left. reflexivity.
  - intros H. right. apply IH. exact H.
Qed.

Lemma in_map_get k v (m : list (string * Tool)) :
  List.NoDup (List.map fst m) -> In (k, v) m -> map_get k m = Some v.
Proof.
  induction m as [| [k' v'] rest IH]; simpl; [intros _ [] |].
  intros Hnodup Hin. inversion Hnodup as [| ? ? Hnotin Hrest]; subst.
  destruct Hin as [[= -> ->] | Hin].
  - rewrite String.eqb_refl. reflexivity.
  - destruct (String.eqb_spec k k') as [-> | Hne].
    + exfalso. apply Hnotin. apply (in_map fst) in Hin. exact Hin.
    + apply IH; assumption.
Qed.

End Registry.

(** X1.  Whatever tools were registered, [getTool(name)] gives the tool of
    that name that was registered last, and [undefined] when none was:
    registering a name again replaces the tool. *)
Theorem last_registration_wins (ts : list Tools.Tool) (name : string) :
  Tools.getTool name (registered ts)
  = List.find (fun t => String.eqb name (Tools.name t)) (rev ts).
Proof.
  induction ts as [| t ts IH] using rev_ind.
  - reflexivity.
  - rewrite registered_snoc, getTool_registerTool, rev_app_distr. simpl.
    rewrite IH. reflexivity.
Qed.

(** X2.  [listTools()] lists no name twice, and it lists exactly the tools
    that [getTool] finds: a tool is listed if and only if [getTool] gives
    it for its own name. *)
Theorem listTools_lists_what_getTool_finds (ts : list Tools.Tool) :
  List.NoDup (List.map Tools.name (Tools.listTools (registered ts)))
  /\ forall t,
       In t (Tools.listTools (registered ts))
       <-> Tools.getTool (Tools.name t) (registered ts) = Some t.
Proof.
  destruct (registered_well_keyed ts) as [Hkeys Hnodup].
  unfold Tools.listTools, Tools.getTool.
  split.
  - rewrite List.map_map.
    replace (List.map (fun x => Tools.name (snd x))
                      (Tools.tools (registered ts)))
      with (List.map fst (Tools.tools (registered ts))); [exact Hnodup |].
    apply List.map_ext_in. intros kv Hin.
    rewrite List.Forall_forall in Hkeys. apply Hkeys. exact Hin.
  - intros t. split.
    + intros Hin. apply List.in_map_iff in Hin as ([k t'] & Ht & Hin).
      simpl in Ht. subst t'. apply in_map_get; [exact Hnodup |].
      rewrite List.Forall_forall in Hkeys. specialize (Hkeys _ Hin).
      simpl in Hkeys. subst k. exact Hin.
    + intros Hget. apply map_get_in in Hget.
      apply (in_map snd) in Hget. exact Hget.
Qed.

(** X3.  The two formats in which the registry describes its tools say
    the same: [getOpenAITools()] and [getAnthropicTools()] have one entry
    for each tool that [listTools()] lists, in the same order, with the
    name, the description and the parameters of that tool (under
    [function] for OpenAI, and as [input_schema] for Anthropic). *)
Theorem both_formats_describe_the_tools (registry : Tools.ToolRegistry) :
  List.map openai_entry (Tools.getOpenAITools registry)
  = List.map tool_entry (Tools.listTools registry)
  /\ List.map anthropic_entry (Tools.getAnthropicTools registry)
     = List.map tool_entry (Tools.listTools registry).
Proof.
  unfold Tools.getOpenAITools, Tools.getAnthropicTools.
  rewrite !List.map_map.
  split; apply List.map_ext; intros tool; reflexivity.
Qed.

(** ** [createTool] and the time-out *)

Lemma timer_delay_default : Tools.timer_delay 30 = 30000.
Proof. reflexivity. Qed.

(** X4.  A tool made by [createTool] without a time-out, or with the
    time-out 0, is given 30 seconds: once registered, a call whose handler
    hands back a pending promise gets the time-out error when the event
    loop was at its timers once 30000 milliseconds had passed and before
    the promise settled, and what the promise settles to otherwise. *)
Theorem created_tool_waits_thirty_seconds
    (name description : string) (handler : json -> Tools.HandlerRun)
    (parameters : option json) (timeout : option Z)
    (registry : Tools.ToolRegistry) (toolCall : ToolCall.t)
    (startTime endTime t : Z) (s : Tools.Settlement) (timers : option Z) :
  timeout = None \/ timeout = Some 0 ->
  ToolCall.name toolCall = name ->
  handler (ToolCall.arguments toolCall) = Tools.PendingAtReturn t s timers ->
  Tools.executeTool
    (Tools.registerTool
       (Tools.createTool name description handler parameters timeout)
       registry)
    toolCall startTime endTime
  = if match timers with Some c => 30000 <=? c | None => false end
    then Returns (failed toolCall "Tool execution timeout" startTime endTime)
    else match s with
         | Tools.Fulfilled v =>
             Returns (succeeded toolCall v startTime endTime)
         | Tools.Rejected e =>
             exc_bind (error_text e)
                      (fun text =>
                         Returns (failed toolCall text startTime endTime))
         end.
Proof.
  intros Htimeout Hname Hrun.
  unfold Tools.executeTool.
  rewrite getTool_registerTool, Hname.
  unfold Tools.createTool. cbn [Tools.name]. rewrite String.eqb_refl.
  cbn [Tools.timeout Tools.function].
  replace (match timeout with
           | Some t0 => if t0 =? 0 then 30 else t0
           | None => 30
           end) with 30
    by (destruct Htimeout as [-> | ->]; reflexivity).
  rewrite Hrun, timer_delay_default. unfold Tools.race, Tools.timer_ran.
  destruct timers as [c |]; [destruct (30000 <=? c) |];
    try destruct s; reflexivity.
Qed.

Lemma created_tool_waits_thirty_seconds_witness :
  Tools.executeTool
    (Tools.registerTool
       (Tools.createTool "patient" "answers after forty seconds"
          (fun _ => Tools.PendingAtReturn
                      40000 (Tools.Fulfilled (Data (JString "late")))
                      (Some 39999))
          None (Some 0))
       Tools.empty)
    Samples.patient_call 0 30001
  = Returns (failed Samples.patient_call "Tool execution timeout" 0 30001).
Proof.
  apply (created_tool_waits_thirty_seconds
           "patient" "answers after forty seconds"
           (fun _ => Tools.PendingAtReturn
                       40000 (Tools.Fulfilled (Data (JString "late")))
                       (Some 39999))
           None (Some 0) Tools.empty Samples.patient_call 0 30001 40000
           (Tools.Fulfilled (Data (JString "late"))) (Some 39999)).
  - right. reflexivity.
  - reflexivity.
  - reflexivity.
Defined.

(** ** Memory: sessions, limits, clearing *)

Lemma add_log_maxMessages log : forall mem,
  DictMemory.maxMessages (add_log log mem) = DictMemory.maxMessages mem.
Proof.
  induction log as [| [sid m] log IH]; intros mem; [reflexivity |].
  unfold add_log in *. simpl. rewrite IH.
  apply DictMemoryFacts.dict_addMessage_maxMessages.
Qed.

Lemma add_log_positive sid log : forall mem history,
  0 < DictMemory.maxMessages mem ->
  DictMemory.stored sid mem
  = keep_last (Z.to_nat (DictMemory.maxMessages mem)) history ->
  DictMemory.stored sid (add_log log mem)
  = keep_last (Z.to_nat (DictMemory.maxMessages mem))
              (history ++ messages_of sid log).
Proof.
  induction log as [| [sid' m] log IH]; intros mem history Hpos Hinv.
  - unfold messages_of. simpl. rewrite app_nil_r. exact Hinv.
  - change (add_log ((sid', m) :: log) mem)
      with (add_log log (DictMemory.addMessage sid' m mem)).
    unfold messages_of. cbn [List.filter fst].
    rewrite <- (DictMemoryFacts.dict_addMessage_maxMessages sid' m mem).
    destruct (String.eqb_spec sid' sid) as [-> | Hne].
    + cbn [List.map snd].
      replace (history ++ m :: List.map snd
                 (List.filter (fun entry => String.eqb (fst entry) sid) log))
        with ((history ++ [m]) ++ messages_of sid log)
        by (rewrite <- app_assoc; reflexivity).
      apply IH.
      * rewrite DictMemoryFacts.dict_addMessage_maxMessages. exact Hpos.
      * rewrite DictMemoryFacts.dict_addMessage_maxMessages,
          DictMemoryFacts.dict_addMessage_positive by exact Hpos.
        rewrite Hinv. apply keep_last_snoc.
    + apply IH.
      * rewrite DictMemoryFacts.dict_addMessage_maxMessages. exact Hpos.
      * rewrite DictMemoryFacts.dict_addMessage_maxMessages,
          DictMemoryFacts.dict_addMessage_other by exact Hne.
        exact Hinv.
Qed.

(** X5.  A [DictMemory] of capacity at least one, whatever the order in
    which messages were added to its sessions: each session holds the most
    recent of its own messages, at most [maxMessages] of them, in the order
    they were added; the messages of the other sessions neither show up
    in it nor take room in it. *)
Theorem sessions_are_bounded_and_apart
    (cap : Z) (log : list (string * Message.t)) (sessionId : string) :
  0 < cap ->
  DictMemory.getMessages sessionId None (add_log log (DictMemory.new cap))
  = keep_last (Z.to_nat cap) (messages_of sessionId log)
  /\ DictMemory.getSessionCount sessionId (add_log log (DictMemory.new cap))
     = Z.min cap (Z.of_nat (length (messages_of sessionId log))).
Proof.
  intros Hpos.
  assert (E : DictMemory.stored sessionId (add_log log (DictMemory.new cap))
              = keep_last (Z.to_nat cap) (messages_of sessionId log)).
  { apply (add_log_positive sessionId log (DictMemory.new cap) []);
      [exact Hpos |].
    unfold DictMemory.stored, DictMemory.new. simpl.
    rewrite lookup_empty. reflexivity. }
  split; [exact E |].
  unfold DictMemory.getSessionCount. rewrite E, keep_last_length. lia.
Qed.

Lemma sessions_are_bounded_and_apart_witness :
  let m (n : Z) := Message.mk (Some User) (Some "hi") None None n in
  let log := [("a", m 1); ("b", m 2); ("a", m 3); ("a", m 4)] in
  DictMemory.getMessages "a" None (add_log log (DictMemory.new 2))
  = keep_last (Z.to_nat 2) (messages_of "a" log)
  /\ DictMemory.getSessionCount "a" (add_log log (DictMemory.new 2))
     = Z.min 2 (Z.of_nat (length (messages_of "a" log))).
Proof.
  apply (sessions_are_bounded_and_apart 2
           [("a", Message.mk (Some User) (Some "hi") None None 1);
            ("b", Message.mk (Some User) (Some "hi") None None 2);
            ("a", Message.mk (Some User) (Some "hi") None None 3);
            ("a", Message.mk (Some User) (Some "hi") None None 4)] "a").
  lia.
Defined.

(** X6.  A [SimpleDictMemory] of capacity at least one holds the most
    recent of the messages it was given, at most [maxMessages] of them, in
    the order they were added; [clear] empties it and keeps the
    capacity. *)
Theorem simple_memory_keeps_the_most_recent
    (cap : Z) (before after : list Message.t) :
  0 < cap ->
  SimpleDictMemory.getMessages
    (SimpleDictMemory.addAll after (SimpleDictMemory.new cap))
  = keep_last (Z.to_nat cap) after
  /\ SimpleDictMemory.getMessages
       (SimpleDictMemory.addAll after
          (SimpleDictMemory.clear
             (SimpleDictMemory.addAll before (SimpleDictMemory.new cap))))
     = keep_last (Z.to_nat cap) after.
Proof.
  intros Hpos. split.
  - apply SimpleDictMemoryFacts.simple_bounded_when_positive. exact Hpos.
  - unfold SimpleDictMemory.getMessages, SimpleDictMemory.clear.
    rewrite SimpleDictMemoryFacts.simple_addAll_maxMessages.
    apply SimpleDictMemoryFacts.simple_bounded_when_positive. exact Hpos.
Qed.

Lemma simple_memory_keeps_the_most_recent_witness :
  let m (n : Z) := Message.mk (Some User) (Some "hi") None None n in
  SimpleDictMemory.getMessages
    (SimpleDictMemory.addAll [m 2; m 3; m 4] (SimpleDictMemory.new 2))
  = keep_last (Z.to_nat 2) [m 2; m 3; m 4]
  /\ SimpleDictMemory.getMessages
       (SimpleDictMemory.addAll [m 2; m 3; m 4]
          (SimpleDictMemory.clear
             (SimpleDictMemory.addAll [m 1] (SimpleDictMemory.new 2))))
     = keep_last (Z.to_nat 2) [m 2; m 3; m 4].
Proof.
  apply (simple_memory_keeps_the_most_recent 2
           [Message.mk (Some User) (Some "hi") None None 1]
           [Message.mk (Some User) (Some "hi") None None 2;
            Message.mk (Some User) (Some "hi") None None 3;
            Message.mk (Some User) (Some "hi") None None 4]).
  lia.
Defined.

(** X7.  [getMessages(sessionId, limit)] with a positive [limit] gives the
    last [limit] messages of the session, all of them when there are
    fewer; with the limit 0 it gives the whole session, as it does without
    a limit: [slice(-0)] is [slice(0)]. *)
Theorem limit_keeps_the_last_messages
    (sessionId : string) (limit : Z) (mem : DictMemory.t) :
  0 <= limit ->
  DictMemory.getMessages sessionId (Some limit) mem
  = if limit =? 0
    then DictMemory.getMessages sessionId None mem
    else keep_last (Z.to_nat limit) (DictMemory.getMessages sessionId None mem).
Proof.
  intros Hlimit. unfold DictMemory.getMessages.
  destruct (Z.eqb_spec limit 0) as [-> | Hne].
  - apply slice_from_zero.
  - apply slice_from_negative. lia.
Qed.

Lemma limit_keeps_the_last_messages_witness :
  let m (n : Z) := Message.mk (Some User) (Some "hi") None None n in
  let mem := add_log [("a", m 1); ("a", m 2); ("a", m 3)] DictMemory.default in
  DictMemory.getMessages "a" (Some 0) mem
  = if 0 =? 0
    then DictMemory.getMessages "a" None mem
    else keep_last (Z.to_nat 0) (DictMemory.getMessages "a" None mem).
Proof.
  apply (limit_keeps_the_last_messages "a" 0
           (add_log [("a", Message.mk (Some User) (Some "hi") None None 1);
                     ("a", Message.mk (Some User) (Some "hi") None None 2);
                     ("a", Message.mk (Some User) (Some "hi") None None 3)]
                    DictMemory.default)).
  lia.
Defined.

(** X8.  [clearSession(sessionId)] forgets the session and no other: its
    count is 0, the other sessions keep their messages, and with a
    capacity that is not negative the next message added to it is its
    only message. *)
Theorem cleared_session_starts_again
    (sessionId : string) (message : Message.t) (mem : DictMemory.t) :
  0 <= DictMemory.maxMessages mem ->
  DictMemory.getSessionCount sessionId (DictMemory.clearSession sessionId mem)
  = 0
  /\ DictMemory.getMessages sessionId None
       (DictMemory.addMessage sessionId message
          (DictMemory.clearSession sessionId mem))
     = [message]
  /\ forall other limit,
       other <> sessionId ->
       DictMemory.getMessages other limit
         (DictMemory.clearSession sessionId mem)
       = DictMemory.getMessages other limit mem.
Proof.
  intros Hcap.
  assert (Hgone : DictMemory.stored sessionId
                    (DictMemory.clearSession sessionId mem) = []).
  { unfold DictMemory.stored, DictMemory.clearSession. simpl.
    rewrite lookup_delete_eq. reflexivity. }
  split; [| split].
  - unfold DictMemory.getSessionCount. rewrite Hgone. reflexivity.
  - unfold DictMemory.getMessages.
    rewrite DictMemoryFacts.dict_addMessage_stored, Hgone.
    change (DictMemory.maxMessages (DictMemory.clearSession sessionId mem))
      with (DictMemory.maxMessages mem).
    cbn [app length]. change (Z.of_nat 1) with 1.
    destruct (Z.ltb_spec (DictMemory.maxMessages mem) 1) as [Hlt | Hge];
      [| reflexivity].
    replace (DictMemory.maxMessages mem) with 0 by lia. reflexivity.
  - intros other limit Hne.
    assert (Hsame : DictMemory.stored other
                      (DictMemory.clearSession sessionId mem)
                    = DictMemory.stored other mem).
    { unfold DictMemory.stored, DictMemory.clearSession. simpl.
      rewrite lookup_delete_ne by congruence. reflexivity. }
    unfold DictMemory.getMessages. rewrite Hsame. reflexivity.
Qed.

Lemma cleared_session_starts_again_witness :
  let m (n : Z) := Message.mk (Some User) (Some "hi") None None n in
  let mem := add_log [("a", m 1); ("b", m 2)] DictMemory.default in
  DictMemory.getSessionCount "a" (DictMemory.clearSession "a" mem) = 0
  /\ DictMemory.getMessages "a" None
       (DictMemory.addMessage "a" (m 3) (DictMemory.clearSession "a" mem))
     = [m 3]
  /\ forall other limit,
       other <> "a" ->
       DictMemory.getMessages other limit (DictMemory.clearSession "a" mem)
       = DictMemory.getMessages other limit mem.
Proof.
  apply (cleared_session_starts_again "a"
           (Message.mk (Some User) (Some "hi") None None 3)
           (add_log [("a", Message.mk (Some User) (Some "hi") None None 1);
                     ("b", Message.mk (Some User) (Some "hi") None None 2)]
                    DictMemory.default)).
  rewrite add_log_maxMessages. simpl. lia.
Defined.

(** ** Memory: the backends that can be made *)

(** X9.  [createMemoryBackend] makes a backend for the types [memory]
    and [dict] only, and what it makes is a new [DictMemory] with the
    capacity 1000, in which no session has a message; for [sqlite] the
    constructor of [SQLiteMemory] throws, and every other type is
    refused as unsupported. *)
Theorem only_the_dict_backend_is_made
    (backendType : string) (backend : MemoryBackend) :
  createMemoryBackend backendType = Returns backend ->
  (backendType = "memory" \/ backendType = "dict")
  /\ backend = DictBackend (DictMemory.new 1000)
  /\ forall sessionId,
       DictMemory.getSessionCount sessionId (DictMemory.new 1000) = 0.
Proof.
  unfold createMemoryBackend.
  destruct (String.eqb_spec backendType "memory") as [-> | Hmemory];
    [intros [= <-]; repeat split; left; reflexivity |].
  destruct (String.eqb_spec backendType "dict") as [-> | Hdict];
    [intros [= <-]; repeat split; right; reflexivity |].
  cbn [orb].
  destruct (String.eqb backendType "sqlite"); discriminate.
Qed.

Lemma only_the_dict_backend_is_made_witness :
  ("dict" = "memory" \/ "dict" = "dict")
  /\ DictBackend DictMemory.default = DictBackend (DictMemory.new 1000)
  /\ forall sessionId,
       DictMemory.getSessionCount sessionId (DictMemory.new 1000) = 0.
Proof.
  apply (only_the_dict_backend_is_made "dict" (DictBackend DictMemory.default)).
  reflexivity.
Defined.

(** What the other types give. *)
Example sqlite_backend_is_not_implemented :
  createMemoryBackend "sqlite"
  = Throws (ErrorObject
              "SQLite memory backend not yet implemented for TypeScript")
  /\ createMemoryBackend "vector"
     = Throws (ErrorObject "Unsupported backend type: vector").
Proof. split; reflexivity. Qed.

(** ** The agent: the window of [getMessages] *)

Section Window.
Import Agent.

Lemma filter_idem {A : Type} (f : A -> bool) (l : list A) :
  List.filter f (List.filter f l) = List.filter f l.
Proof.
  induction l as [| x l IH]; simpl; [reflexivity |].
  destruct (f x) eqn:E; simpl; rewrite ?E, IH; reflexivity.
Qed.

Lemma filter_none {A : Type} (f : A -> bool) (l : list A) :
  Forall (fun x => f x = false) l -> List.filter f l = [].
Proof.
  induction 1 as [| x l Hx _ IH]; simpl; [reflexivity |].
  rewrite Hx. exact IH.
Qed.


Lemma others_are_not_system messages :
  Forall (fun m => Message.is_system m = false) (other_messages messages).
Proof.
  unfold other_messages. apply List.Forall_forall. intros m Hin.
  apply List.filter_In in Hin as [_ H]. apply negb_true_iff. exact H.
Qed.

Lemma split_by_role_length messages :
  (length (system_messages messages) + length (other_messages messages)
   = length messages)%nat.
Proof.
  unfold system_messages, other_messages.
  induction messages as [| m rest IH]; simpl; [reflexivity |].
  destruct (Message.is_system m); simpl; lia.
Qed.

Lemma recent_with_system_cut this messages :
  (maxMemoryMessages this <? Z.of_nat (length messages)) = true ->
  recent_with_system this messages
  = system_messages messages
      ++ JS.slice_from (- maxMemoryMessages this
                        + Z.of_nat (length (system_messages messages)))
                       (other_messages messages).
Proof. intros H. unfold recent_with_system. rewrite H. reflexivity. Qed.

End Window.

(** X10.  [getMessages()] never drops a system message: whatever the
    window, the system messages of the history are all in the list it
    gives, in their order. *)
Theorem window_keeps_every_system_message
    (this : Agent.Agent) (messages : list Message.t) :
  system_messages (Agent.recent_with_system this messages)
  = system_messages messages.
Proof.
  unfold Agent.recent_with_system.
  destruct (Agent.maxMemoryMessages this <? _); [| reflexivity].
  unfold system_messages. rewrite List.filter_app, filter_idem.
  rewrite (filter_none Message.is_system (JS.slice_from _ _)).
  - apply app_nil_r.
  - unfold JS.slice_from. apply Forall_drop.
    apply (others_are_not_system messages).
Qed.



(** X12.  When the history is longer than [maxMemoryMessages] and as many
    of its messages are system messages, nothing is dropped: the start of
    the slice is [-maxMemoryMessages + systemMessages.length], which is 0,
    and [getMessages()] gives the system messages followed by all the
    others, more than [maxMemoryMessages] in all. *)
Theorem window_is_passed_when_system_messages_fill_it
    (this : Agent.Agent) (messages : list Message.t) :
  Agent.maxMemoryMessages this = Z.of_nat (system_count messages) ->
  Agent.maxMemoryMessages this < Z.of_nat (length messages) ->
  Agent.recent_with_system this messages
  = system_messages messages ++ other_messages messages
  /\ Agent.maxMemoryMessages this
     < Z.of_nat (length (Agent.recent_with_system this messages)).
Proof.
  intros Hfull Hlong.
  assert (E : Agent.recent_with_system this messages
              = system_messages messages ++ other_messages messages).
  { rewrite recent_with_system_cut by (apply Z.ltb_lt; exact Hlong).
    f_equal. unfold system_count in Hfull.
    fold (system_messages messages) in Hfull.
    replace (- Agent.maxMemoryMessages this
             + Z.of_nat (length (system_messages messages))) with (- 0) by lia.
    apply slice_from_zero. }
  split; [exact E |].
  rewrite E, length_app, split_by_role_length. exact Hlong.
Qed.

Lemma window_is_passed_when_system_messages_fill_it_witness :
  let this := Agent.new "agent-1" None Samples.silent_provider None (Some 1)
                None Samples.ticking in
  let messages :=
    [Message.mk (Some User) (Some "one") None None 0;
     Message.mk (Some System) (Some "Be brief.") None None 1;
     Message.mk (Some User) (Some "two") None None 2] in
  Agent.recent_with_system this messages
  = system_messages messages ++ other_messages messages
  /\ Agent.maxMemoryMessages this
     < Z.of_nat (length (Agent.recent_with_system this messages)).
Proof.
  apply (window_is_passed_when_system_messages_fill_it
           (Agent.new "agent-1" None Samples.silent_provider None (Some 1)
              None Samples.ticking)
           [Message.mk (Some User) (Some "one") None None 0;
            Message.mk (Some System) (Some "Be brief.") None None 1;
            Message.mk (Some User) (Some "two") None None 2]).
  - reflexivity.
  - vm_compute. reflexivity.
Defined.

(** ** The agent: an exchange without tools, and what [chat] reports *)

Section PlainExchange.
Import LLM Agent AgentFacts.

Lemma attempt_plain this messages tools p response :
  provider_chat (llm this) (llm_calls p) messages (tools_argument tools)
  = Returns response ->
  no_tool_calls response ->
  attempt this messages tools p
  = conclude this response (LLMResponse.content response, [])
      (mkState (memory p) (toolRegistry p)
               (trace p ++ [EmitLlmRequest messages tools;
                            CallChat messages (tools_argument tools);
                            EmitLlmResponse response])
               (S (llm_calls p)) (clock_reads p)).
Proof.
  intros Hanswer Hnone. unfold attempt.
  erewrite se_bind_returns; [| reflexivity].
  erewrite se_bind_returns;
    [| rewrite llm_chat_run; projections; rewrite Hanswer; reflexivity].
  erewrite se_bind_returns; [| reflexivity].
  erewrite se_bind_returns;
    [| destruct Hnone as [-> | ->]; reflexivity].
  projections. f_equal. f_equal. rewrite <- !app_assoc. reflexivity.
Qed.

Lemma chat_plain this u s response :
  first_answer this s u = Returns response ->
  no_tool_calls response ->
  let p := at_attempt this s u in
  let answer :=
    Message.mk (Some Assistant) (Some (LLMResponse.content response))
               None None (clock this (clock_reads p)) in
  exists agentResponse,
    chat this u s
    = (Returns agentResponse,
       mkState (SimpleDictMemory.addAll [user_message this s u; answer]
                                        (memory s))
               (toolRegistry s)
               (trace s
                  ++ [EmitChatStart u;
                      CallAddMessage (user_message this s u);
                      EmitMessageAdded (user_message this s u);
                      EmitLlmRequest (outbound this s u)
                        (Tools.getOpenAITools (toolRegistry s));
                      CallChat (outbound this s u) (offered_tools s);
                      EmitLlmResponse response;
                      CallAddMessage answer;
                      EmitMessageAdded answer;
                      EmitChatComplete agentResponse])
               (S (llm_calls s)) (S (clock_reads p)))
    /\ AgentResponse.content agentResponse = LLMResponse.content response
    /\ AgentResponse.toolCalls agentResponse = [].
Proof.
  intros Hfirst Hnone p answer.
  rewrite chat_unfold. unfold se_catch. fold p.
  rewrite (attempt_plain this (outbound this s u)
             (Tools.getOpenAITools (toolRegistry s)) p response Hfirst Hnone).
  match goal with
  | |- context [conclude this response ?final ?st] =>
      destruct (conclude_run this response final st)
        as (agentResponse & Hrun & Hcontent & HtoolCalls)
  end.
  rewrite Hrun. exists agentResponse.
  split; [| split; assumption].
  projections. apply state_eq.
  - reflexivity.
  - unfold p, at_attempt, prepared, added_events. projections.
    cbn [flat_map]. rewrite <- !app_assoc. reflexivity.
Qed.

Lemma conclude_fields this response final s r s' :
  conclude this response final s = (Returns r, s') ->
  AgentResponse.usage r = reported_usage response
  /\ AgentResponse.finishReason r = "stop"
  /\ AgentResponse.metadata r
     = AgentResponse.mk_metadata
         (id this) (name this)
         (Z.of_nat (length (SimpleDictMemory.getMessages (memory s')))).
Proof.
  unfold conclude.
  erewrite se_bind_returns; [| reflexivity].
  erewrite se_bind_returns; [| apply addMessage_run].
  erewrite se_bind_returns; [| reflexivity].
  unfold se_bind, emit, se_modify, se_ret. projections.
  intros [= <- <-]. repeat split.
Qed.

Lemma attempt_returns this messages tools p r p' :
  attempt this messages tools p = (Returns r, p') ->
  exists response final p2,
    provider_chat (llm this) (llm_calls p) messages (tools_argument tools)
    = Returns response
    /\ conclude this response final p2 = (Returns r, p').
Proof.
  unfold attempt.
  erewrite se_bind_returns; [| reflexivity].
  unfold se_bind at 1. rewrite llm_chat_run. projections.
  destruct (provider_chat (llm this) (llm_calls p) messages
              (tools_argument tools)) as [response | e]; [| discriminate].
  erewrite se_bind_returns; [| reflexivity].
  unfold se_bind at 1.
  destruct (match LLMResponse.toolCalls response with
            | Some (c :: cs) => resolve_tools this response (c :: cs)
            | _ => se_ret (LLMResponse.content response, [])
            end _) as [[final | e] p2]; [| discriminate].
  intros H. exists response, final, p2. split; [reflexivity | exact H].
Qed.

End PlainExchange.

(** X13.  When the provider answers the first request without tool calls
    ([toolCalls] missing or empty), [chat] is one exchange: the user's
    message is appended, one request is sent (with the tools of the
    registry), the content of the answer is appended as the assistant's
    message and returned with no tool calls; no tool is executed and no
    second request is sent. *)
Theorem answer_without_tools_is_one_exchange
    (this : Agent.Agent) (userMessage : string) (s : Agent.State)
    (response : LLM.LLMResponse.t) :
  first_answer this s userMessage = Returns response ->
  no_tool_calls response ->
  plain_exchange this s userMessage response.
Proof.
  intros Hfirst Hnone.
  destruct (chat_plain this userMessage s response Hfirst Hnone)
    as (agentResponse & Hrun & Hcontent & HtoolCalls).
  exists agentResponse,
    (Agent.clock_reads (at_attempt this s userMessage)).
  cbv zeta. rewrite Hrun.
  split; [reflexivity |]. split; [exact Hcontent |].
  split; [exact HtoolCalls |]. split; [| reflexivity].
  apply (AgentFacts.events_of_run _ _ _ _ _ _ _ _ Hrun).
Qed.

Lemma answer_without_tools_is_one_exchange_witness :
  plain_exchange (Samples.agent_of MoreSamples.counting_provider)
                 Samples.fresh "hello"
                 (LLM.LLMResponse.mk "Hello!"
                    (Some (LLM.LLMResponse.mk_usage (Some 12) (Some 3) None))
                    None).
Proof.
  apply (answer_without_tools_is_one_exchange
           (Samples.agent_of MoreSamples.counting_provider) "hello"
           Samples.fresh
           (LLM.LLMResponse.mk "Hello!"
              (Some (LLM.LLMResponse.mk_usage (Some 12) (Some 3) None))
              None)).
  - vm_compute. reflexivity.
  - left. reflexivity.
Defined.

(** X14.  Whenever [chat] returns, with or without a tool round: the
    usage it reports is that of the first response of the provider (a
    missing count is 0, and the follow-up response adds nothing to it),
    [finishReason] is [stop], and [metadata] holds the agent's id and name
    and the number of messages in the memory at that moment. *)
Theorem response_reports_the_first_usage
    (this : Agent.Agent) (userMessage : string) (s : Agent.State)
    (agentResponse : AgentResponse.t) :
  fst (Agent.chat this userMessage s) = Returns agentResponse ->
  bookkeeping this s userMessage agentResponse.
Proof.
  rewrite AgentFacts.chat_unfold. unfold se_catch.
  destruct (Agent.attempt this (outbound this s userMessage)
              (Tools.getOpenAITools (Agent.toolRegistry s))
              (at_attempt this s userMessage)) as [[r | e] p'] eqn:Hattempt.
  - cbn [fst]. intros [= ->].
    destruct (attempt_returns _ _ _ _ _ _ Hattempt)
      as (response & final & p2 & Hanswer & Hconclude).
    exists response. split; [exact Hanswer |].
    rewrite AgentFacts.chat_unfold. unfold se_catch. rewrite Hattempt.
    cbn [snd]. apply (conclude_fields _ _ _ _ _ _ Hconclude).
  - unfold se_bind, Agent.emit, se_modify, se_throw. simpl. discriminate.
Qed.

Lemma response_reports_the_first_usage_witness :
  bookkeeping Samples.weather_agent Samples.fresh "weather?"
    (AgentResponse.mk "It is sunny." [Samples.tokyo_tool_call]
       (AgentResponse.mk_metadata "agent-1" "NiflheimAgent" 4) None "stop").
Proof.
  apply (response_reports_the_first_usage
           Samples.weather_agent "weather?" Samples.fresh
           (AgentResponse.mk "It is sunny." [Samples.tokyo_tool_call]
              (AgentResponse.mk_metadata "agent-1" "NiflheimAgent" 4)
              None "stop")).
  vm_compute. reflexivity.
Defined.

(** ** The agent: a tool round in front of a provider that validates *)


Lemma recent_with_system_short (agent : Agent.Agent)
    (messages : list Message.t) :
  Z.of_nat (length messages) <= Agent.maxMemoryMessages agent ->
  Agent.recent_with_system agent messages = messages.
Proof.
  intros Hshort. unfold Agent.recent_with_system.
  destruct (Z.ltb_spec (Agent.maxMemoryMessages agent)
                       (Z.of_nat (length messages)));
    [lia | reflexivity].
Qed.

Section RefusedFollowup.
Import LLM Agent AgentFacts.

Variables (this : Agent) (userMessage : string) (s : State).
Variables (response : LLMResponse.t) (c : LLMToolCall.t)
          (cs : list LLMToolCall.t) (tcs : list ToolCall.t).

(** The provider checks its messages as the adapters of [llm/base.ts] do;
    it answers the first request with tool calls and an empty content, as
    the OpenAI adapter does for an answer whose content is [null]. *)
Hypothesis Hvalidates : validates (llm this).
Hypothesis Hfirst : first_answer this s userMessage = Returns response.
Hypothesis Hcalls : LLMResponse.toolCalls response = Some (c :: cs).
Hypothesis Hempty : LLMResponse.content response = "".
Hypothesis Hconv : convertToolCalls (c :: cs) = Returns tcs.
Hypothesis Hser : Forall (serialisable (toolRegistry s)) tcs.
Hypothesis Hroom : has_room this s (2 + length tcs).


End RefusedFollowup.


(** ** The agent: a stream that breaks, and what [stream] never does *)

Section StreamRuns.
Import LLM Agent AgentFacts.

Lemma chunk_events_executions chunks : executions (chunk_events chunks) = [].
Proof.
  induction chunks as [| c rest IH]; simpl; [reflexivity | exact IH].
Qed.

Lemma chunk_events_requests chunks : requests (chunk_events chunks) = [].
Proof.
  induction chunks as [| c rest IH]; simpl; [reflexivity | exact IH].
Qed.

Lemma chunk_events_stream_requests chunks :
  stream_requests (chunk_events chunks) = [].
Proof.
  induction chunks as [| c rest IH]; simpl; [reflexivity | exact IH].
Qed.

Lemma added_events_stream_requests ms :
  stream_requests (added_events ms) = [].
Proof. induction ms as [| m ms IH]; simpl; [reflexivity | exact IH]. Qed.

Lemma stream_requests_app (t1 t2 : list Event) :
  stream_requests (t1 ++ t2) = stream_requests t1 ++ stream_requests t2.
Proof. apply List.flat_map_app. Qed.

End StreamRuns.

(** X16.  When the stream of the provider breaks with an exception before
    any chunk is finished, and the caller has not left by then, [stream]
    throws that exception after it has yielded every chunk it received;
    the content received so far is not committed: the user's message is
    the only message appended; the last event is [stream:error], and
    [stream:complete] is not emitted. *)
Theorem broken_stream_commits_nothing
    (this : Agent.Agent) (userMessage : string) (s : Agent.State)
    (caller : Agent.Caller) (chunks : list LLM.StreamChunk.t) (e : Thrown) :
  provided_stream this s userMessage = (chunks, Some e) ->
  has_finished_chunk chunks = false ->
  leaves caller [] chunks = false ->
  stream_breaks this s userMessage caller chunks e.
Proof.
  intros Hstream Hnone Hstays.
  pose proof (AgentFacts.stream_run_broken this userMessage caller s chunks e
                Hstream Hstays Hnone)
    as Hrun.
  unfold stream_breaks.
  rewrite (AgentFacts.events_of_run _ _ _ _ _ _ _ _ Hrun), Hrun.
  split; [reflexivity |]. split; [| split; [| split; [reflexivity | split]]].
  - rewrite !AgentFacts.yields_app, AgentFacts.chunk_events_yields,
      AgentFacts.added_events_yields.
    simpl. apply app_nil_r.
  - rewrite !AgentFacts.appends_app, AgentFacts.chunk_events_appends,
      AgentFacts.added_events_appends.
    reflexivity.
  - eexists. rewrite !app_assoc. reflexivity.
  - intros Hin. rewrite !List.in_app_iff in Hin.
    pose proof (chunk_events_not_complete chunks) as Hchunks.
    simpl in Hin. intuition discriminate.
Qed.

Lemma broken_stream_commits_nothing_witness :
  stream_breaks (Samples.agent_of MoreSamples.breaking_provider)
                Samples.fresh "hi" Agent.reads_to_the_end
                [LLM.StreamChunk.mk (Some "Hel") None None None;
                 LLM.StreamChunk.mk (Some "lo") None None None]
                (ErrorObject "connection reset").
Proof.
  apply (broken_stream_commits_nothing
           (Samples.agent_of MoreSamples.breaking_provider) "hi" Samples.fresh
           Agent.reads_to_the_end
           [LLM.StreamChunk.mk (Some "Hel") None None None;
            LLM.StreamChunk.mk (Some "lo") None None None]
           (ErrorObject "connection reset")).
  - reflexivity.
  - reflexivity.
  - reflexivity.
Defined.

(** X17.  A finished chunk ends the stream for the agent: what the
    provider's stream does after it, be it an exception, is not seen, and
    [stream] does not throw.  When the caller asks for another chunk after
    the finished one, [stream] runs to its end, having yielded the chunks
    up to and with the finished one and committed their content; when the
    caller leaves at a chunk, be it the finished one, [stream] is closed
    there and nothing is committed. *)
Theorem finished_chunk_hides_a_later_failure
    (this : Agent.Agent) (userMessage : string) (s : Agent.State)
    (caller : Agent.Caller) (chunks : list LLM.StreamChunk.t)
    (failure : option Thrown) :
  provided_stream this s userMessage = (chunks, failure) ->
  has_finished_chunk chunks = true ->
  if leaves caller [] chunks
  then stream_is_left this s userMessage caller chunks
  else stream_forwards_and_commits this s userMessage caller chunks.
Proof.
  intros Hstream Hcut.
  destruct (leaves caller [] chunks) eqn:Hleaves.
  - apply (left_stream _ _ _ _ _ failure); assumption.
  - apply (done_stream _ _ _ _ _ failure); [assumption .. | right; exact Hcut].
Qed.

Lemma finished_chunk_hides_a_later_failure_witness :
  stream_forwards_and_commits
    (Samples.agent_of MoreSamples.late_failure_provider) Samples.fresh "hi"
    Agent.reads_to_the_end
    [LLM.StreamChunk.mk (Some "Hello") None (Some true) None]
  /\ stream_is_left
       (Samples.agent_of MoreSamples.late_failure_provider) Samples.fresh
       "hi" Agent.leaves_when_finished
       [LLM.StreamChunk.mk (Some "Hello") None (Some true) None].
Proof.
  split.
  - apply (finished_chunk_hides_a_later_failure
             (Samples.agent_of MoreSamples.late_failure_provider) "hi"
             Samples.fresh Agent.reads_to_the_end
             [LLM.StreamChunk.mk (Some "Hello") None (Some true) None]
             (Some (ErrorObject "connection reset"))).
    + reflexivity.
    + reflexivity.
  - apply (finished_chunk_hides_a_later_failure
             (Samples.agent_of MoreSamples.late_failure_provider) "hi"
             Samples.fresh Agent.leaves_when_finished
             [LLM.StreamChunk.mk (Some "Hello") None (Some true) None]
             (Some (ErrorObject "connection reset"))).
    + reflexivity.
    + reflexivity.
Defined.

(** X18.  [stream] asks the provider for one stream, with the list and
    the tools that [chat] would send first, and does nothing else with
    the provider or the tools: it sends no [chat] request and executes no
    tool, whatever the chunks carry, tool calls included, however the
    stream ends, and whether the caller reads it to its end or leaves. *)
Theorem stream_runs_no_tool
    (this : Agent.Agent) (userMessage : string) (s : Agent.State)
    (caller : Agent.Caller) :
  stream_requests (events_of (Agent.stream this userMessage caller) s)
  = [(outbound this s userMessage, offered_tools s)]
  /\ Agent.requests (events_of (Agent.stream this userMessage caller) s) = []
  /\ Agent.executions (events_of (Agent.stream this userMessage caller) s)
     = [].
Proof.
  destruct (provided_stream this s userMessage) as [chunks failure]
    eqn:Hstream.
  destruct (AgentFacts.stream_cases caller chunks failure)
    as [Hleaves | [(Hstays & Hleft) | (Hstays & Hnone & e & ->)]].
  - pose proof (AgentFacts.stream_run_left this userMessage caller s chunks
                  failure Hstream Hleaves) as Hrun.
    rewrite (AgentFacts.events_of_run _ _ _ _ _ _ _ _ Hrun).
    rewrite !stream_requests_app, !AgentFacts.requests_app,
      !AgentFacts.executions_app,
      chunk_events_stream_requests, chunk_events_requests,
      chunk_events_executions,
      !added_events_stream_requests, !AgentFacts.added_events_requests,
      !AgentFacts.added_events_executions.
    repeat split; reflexivity.
  - pose proof (AgentFacts.stream_run_done this userMessage caller s chunks
                  failure Hstream Hstays Hleft) as Hrun.
    cbv zeta in Hrun.
    rewrite (AgentFacts.events_of_run _ _ _ _ _ _ _ _ Hrun).
    rewrite !stream_requests_app, !AgentFacts.requests_app,
      !AgentFacts.executions_app,
      chunk_events_stream_requests, chunk_events_requests,
      chunk_events_executions,
      !added_events_stream_requests, !AgentFacts.added_events_requests,
      !AgentFacts.added_events_executions.
    repeat split; reflexivity.
  - pose proof (AgentFacts.stream_run_broken this userMessage caller s chunks
                  e Hstream Hstays Hnone) as Hrun.
    rewrite (AgentFacts.events_of_run _ _ _ _ _ _ _ _ Hrun).
    rewrite !stream_requests_app, !AgentFacts.requests_app,
      !AgentFacts.executions_app,
      chunk_events_stream_requests, chunk_events_requests,
      chunk_events_executions,
      !added_events_stream_requests, !AgentFacts.added_events_requests,
      !AgentFacts.added_events_executions.
    repeat split; reflexivity.
Qed.

(** ** The agent: clearing the history, registering a tool, a new agent *)

Lemma first_request_of_chat this u s :
  exists later,
    Agent.requests (events_of (Agent.chat this u) s)
    = (outbound this s u, offered_tools s) :: later.
Proof.
  destruct (AgentFacts.chat_begins this u s) as (rest & Hevents).
  exists (Agent.requests rest). rewrite Hevents.
  rewrite !AgentFacts.requests_app, AgentFacts.added_events_requests.
  reflexivity.
Qed.

(** X19.  [clearHistory()] empties the memory and leaves the tools: with
    a capacity that is not negative and a window of at least one message,
    the first request of the next [chat] carries the system prompt and
    the new message of the user, and nothing of what was said before. *)
Theorem chat_after_clearHistory_starts_over
    (this : Agent.Agent) (userMessage : string) (s : Agent.State) :
  0 <= SimpleDictMemory.maxMessages (Agent.memory s) ->
  1 <= Agent.maxMemoryMessages this ->
  starts_over this s userMessage.
Proof.
  intros Hcap Hwindow. unfold starts_over. cbv zeta.
  set (cleared := snd (Agent.clearHistory s)).
  assert (Hmemory : Agent.memory cleared
                    = SimpleDictMemory.clear (Agent.memory s))
    by reflexivity.
  split; [| split; [reflexivity |]].
  - unfold Agent.getMessages. rewrite Hmemory.
    apply recent_with_system_short. simpl. lia.
  - destruct (first_request_of_chat this userMessage cleared) as (later & H).
    exists later. rewrite H. f_equal. f_equal.
    unfold outbound, assembled_history. rewrite Hmemory.
    change (user_message this cleared userMessage)
      with (user_message this s userMessage).
    assert (Hone : SimpleDictMemory.getMessages
                     (SimpleDictMemory.addMessage
                        (user_message this s userMessage)
                        (SimpleDictMemory.clear (Agent.memory s)))
                   = [user_message this s userMessage]).
    { unfold SimpleDictMemory.getMessages, SimpleDictMemory.addMessage,
        SimpleDictMemory.clear.
      cbn [SimpleDictMemory.messages SimpleDictMemory.maxMessages app length].
      change (Z.of_nat 1) with 1.
      destruct (Z.ltb_spec (SimpleDictMemory.maxMessages (Agent.memory s)) 1)
        as [Hlt | Hge]; [| reflexivity].
      replace (SimpleDictMemory.maxMessages (Agent.memory s)) with 0 by lia.
      reflexivity. }
    rewrite Hone, recent_with_system_short by (simpl; lia).
    reflexivity.
Qed.

Lemma chat_after_clearHistory_starts_over_witness :
  starts_over Samples.weather_agent
    (snd (Agent.chat Samples.weather_agent "weather?" Samples.fresh))
    "and tomorrow?".
Proof.
  apply (chat_after_clearHistory_starts_over
           Samples.weather_agent "and tomorrow?"
           (snd (Agent.chat Samples.weather_agent "weather?" Samples.fresh))).
  - vm_compute. discriminate.
  - vm_compute. discriminate.
Defined.

Lemma map_set_in k v (m : list (string * Tools.Tool)) :
  In (k, v) (Tools.map_set k v m).
Proof.
  induction m as [| [k' v'] rest IH]; simpl; [left; reflexivity |].
  destruct (String.eqb k k'); [left; reflexivity | right; exact IH].
Qed.

(** X20.  A tool registered with the agent is offered to the provider by
    the next [chat]: [getTool] finds it under its name, and the first
    request has a list of tools, one entry for each tool of the registry,
    of which one describes the tool in the format of OpenAI's functions,
    with its name, its description and its parameters. *)
Theorem registered_tool_is_offered
    (this : Agent.Agent) (userMessage : string) (s : Agent.State)
    (tool : Tools.Tool) :
  offers this s userMessage tool.
Proof.
  unfold offers. cbv zeta.
  set (s' := snd (Agent.registerTool tool s)).
  assert (Hregistry : Agent.toolRegistry s'
                      = Tools.registerTool tool (Agent.toolRegistry s))
    by reflexivity.
  split.
  - rewrite Hregistry, getTool_registerTool, String.eqb_refl. reflexivity.
  - destruct (first_request_of_chat this userMessage s') as (later & H).
    assert (Hin : In tool (Tools.listTools (Agent.toolRegistry s'))).
    { rewrite Hregistry. unfold Tools.listTools, Tools.registerTool.
      cbn [Tools.tools].
      apply (in_map snd _ (Tools.name tool, tool)). apply map_set_in. }
    unfold offered_tools, Tools.getOpenAITools in H.
    destruct (Tools.listTools (Agent.toolRegistry s')) as [| t ts] eqn:Hlist;
      [destruct Hin |].
    eexists. exists later. eexists.
    split; [exact H |].
    split; [apply List.length_map |].
    split; [apply (in_map _ _ tool); exact Hin |].
    unfold describes. repeat split; reflexivity.
Qed.

(** X21.  A new agent with the default memory begins the first request of
    its first [chat] with the system message, whose content is the
    prompt it was made with, or [You are a helpful AI assistant.] when it
    was made without a prompt or with the empty string. *)
Theorem new_agent_sends_its_system_prompt
    (id : string) (name : option string) (llm : Agent.Provider)
    (systemPrompt : option string) (maxMemoryMessages : option Z)
    (enableStreaming : option bool) (clock : nat -> Z)
    (toolRegistry : option Tools.ToolRegistry) (userMessage : string) :
  begins_with_prompt
    (Agent.new id name llm systemPrompt maxMemoryMessages enableStreaming
               clock)
    (Agent.initial None toolRegistry) userMessage
    match systemPrompt with
    | Some (String c rest) => String c rest
    | _ => "You are a helpful AI assistant."
    end.
Proof.
  set (this := Agent.new id name llm systemPrompt maxMemoryMessages
                         enableStreaming clock).
  set (s := Agent.initial None toolRegistry).
  destruct (first_request_of_chat this userMessage s) as (later & Hfirst).
  assert (Hnone : has_system (assembled_history this s userMessage) = false).
  { apply AgentFacts.no_system_has_system. unfold assembled_history.
    apply AgentFacts.recent_keeps, AgentFacts.addMessage_keeps;
      [constructor | reflexivity]. }
  unfold outbound in Hfirst. rewrite Hnone in Hfirst. cbn [negb] in Hfirst.
  eexists. eexists. exists later.
  split; [exact Hfirst |]. split; [reflexivity |].
  unfold system_message, this, Agent.new.
  cbn [Message.content Agent.systemPrompt].
  destruct systemPrompt as [[| c rest] |]; reflexivity.
Qed.

(** ** The agent: what no run does *)

Section Adds.
Import LLM Agent AgentFacts.

Lemma adds_weaken {A : Type} (Q Q' : list Event -> Prop) (c : SE State A) :
  (forall new, Q new -> Q' new) -> adds Q c -> adds Q' c.
Proof.
  intros Himpl Hc s. destruct (Hc s) as (new & Htrace & HQ).
  exists new. split; [exact Htrace | apply Himpl; exact HQ].
Qed.

(** The events of a sequence are those of its first part, or those of its
    first part and then those of its second part. *)
Lemma adds_bind {A B : Type} (Q1 Q2 Q : list Event -> Prop)
    (c : SE State A) (k : A -> SE State B) :
  adds Q1 c -> (forall a, adds Q2 (k a)) ->
  (forall n1, Q1 n1 -> Q n1) ->
  (forall n1 n2, Q1 n1 -> Q2 n2 -> Q (n1 ++ n2)) ->
  adds Q (se_bind c k).
Proof.
  intros Hc Hk Hstop Hboth s. unfold se_bind.
  destruct (Hc s) as (n1 & Ht1 & HQ1).
  destruct (c s) as [[a | e] s1]; simpl in Ht1.
  - destruct (Hk a s1) as (n2 & Ht2 & HQ2).
    exists (n1 ++ n2). rewrite Ht2, Ht1, app_assoc.
    split; [reflexivity | apply Hboth; assumption].
  - exists n1. simpl. split; [exact Ht1 | apply Hstop; exact HQ1].
Qed.

Lemma adds_catch {A : Type} (Q1 Q2 Q : list Event -> Prop)
    (c : SE State A) (h : Thrown -> SE State A) :
  adds Q1 c -> (forall e, adds Q2 (h e)) ->
  (forall n1, Q1 n1 -> Q n1) ->
  (forall n1 n2, Q1 n1 -> Q2 n2 -> Q (n1 ++ n2)) ->
  adds Q (se_catch c h).
Proof.
  intros Hc Hh Hstop Hboth s. unfold se_catch.
  destruct (Hc s) as (n1 & Ht1 & HQ1).
  destruct (c s) as [[a | e] s1]; simpl in Ht1.
  - exists n1. simpl. split; [exact Ht1 | apply Hstop; exact HQ1].
  - destruct (Hh e s1) as (n2 & Ht2 & HQ2).
    exists (n1 ++ n2). rewrite Ht2, Ht1, app_assoc.
    split; [reflexivity | apply Hboth; assumption].
Qed.

Lemma adds_events {A : Type} (Q : list Event -> Prop) (c : SE State A) new :
  (forall s, trace (snd (c s)) = trace s ++ new) -> Q new -> adds Q c.
Proof. intros Htrace HQ s. exists new. split; [apply Htrace | exact HQ]. Qed.

(** A property of the events that holds of no event and of two runs put
    together holds of everything that is made of such runs. *)
Section Closed.
Variable Q : list Event -> Prop.
Hypothesis Qnil : Q [].
Hypothesis Qapp : forall n1 n2, Q n1 -> Q n2 -> Q (n1 ++ n2).

Lemma closed_nothing {A : Type} (c : SE State A) :
  (forall s, trace (snd (c s)) = trace s) -> adds Q c.
Proof using Qnil.
  intros H. apply (adds_events Q c []); [| exact Qnil].
  intros s. rewrite H, app_nil_r. reflexivity.
Qed.

Lemma closed_bind {A B : Type} (c : SE State A) (k : A -> SE State B) :
  adds Q c -> (forall a, adds Q (k a)) -> adds Q (se_bind c k).
Proof using Qapp.
  intros Hc Hk. apply (adds_bind Q Q); auto.
Qed.

Lemma closed_catch {A : Type} (c : SE State A) (h : Thrown -> SE State A) :
  adds Q c -> (forall e, adds Q (h e)) -> adds Q (se_catch c h).
Proof using Qapp.
  intros Hc Hh. apply (adds_catch Q Q); auto.
Qed.

Lemma closed_for {A : Type} (xs : list A) (body : A -> SE State unit) :
  (forall x, adds Q (body x)) -> adds Q (se_for xs body).
Proof using Qnil Qapp.
  intros Hbody. induction xs as [| x xs IH]; simpl.
  - apply closed_nothing. reflexivity.
  - apply closed_bind; [apply Hbody | intros _; exact IH].
Qed.

(** The parts of [chat] and [stream], given what is needed of the events
    of [addMessage], of a tool call and of a chunk, and of the single
    events that are emitted. *)
Hypothesis Qadded :
  forall m, Message.is_system m = false -> Q (added_events [m]).
Hypothesis Qemit : forall e, is_call e = false -> Q [e].
Hypothesis Qexecute : forall tc, Q [CallExecuteTool tc].
Hypothesis Qstream : forall messages tools, Q [CallStream messages tools].

Lemma closed_emit e : is_call e = false -> adds Q (emit e).
Proof using Qemit.
  intros He. apply (adds_events Q _ [e]); [reflexivity | apply Qemit, He].
Qed.

Lemma closed_addMessage m :
  Message.is_system m = false -> adds Q (addMessage m).
Proof using Qadded.
  intros Hm. apply (adds_events Q _ (added_events [m])); [| apply Qadded, Hm].
  intros s. rewrite addMessage_run. reflexivity.
Qed.

Lemma closed_tool_events this registry tcs : forall reading,
  Q (tool_events this registry reading tcs).
Proof using Qnil Qapp Qemit Qexecute.
  induction tcs as [| tc rest IH]; intros reading; [exact Qnil |].
  cbn [tool_events].
  apply (Qapp [_]); [apply Qemit; reflexivity |].
  apply (Qapp [_]); [apply Qexecute |].
  destruct (Tools.executeTool registry tc _ _); [| exact Qnil].
  apply (Qapp [_]); [apply Qemit; reflexivity | apply IH].
Qed.

Lemma closed_executeToolCalls this tcs : adds Q (executeToolCalls this tcs).
Proof using Qnil Qapp Qemit Qexecute.
  intros s. destruct (executeToolCalls_keeps this tcs s) as (Htrace & _).
  exists (tool_events this (toolRegistry s) (clock_reads s) tcs).
  split; [exact Htrace | apply closed_tool_events].
Qed.

Ltac closed_step :=
  first
    [ apply closed_nothing; reflexivity
    | apply closed_emit; reflexivity
    | apply closed_addMessage; reflexivity
    | apply closed_executeToolCalls
    | apply closed_bind; [| intros ?]
    | apply closed_catch; [| intros ?] ].

Lemma closed_prepare this u : adds Q (prepare this u).
Proof using Qnil Qapp Qadded Qemit.
  unfold prepare. repeat closed_step.
  destruct (negb _); repeat closed_step.
Qed.

Lemma closed_tool_messages this results :
  adds Q (se_for results (add_tool_message this)).
Proof using Qnil Qapp Qadded Qemit.
  apply closed_for. intros result. unfold add_tool_message.
  repeat closed_step.
Qed.

Lemma closed_conclude this response final :
  adds Q (conclude this response final).
Proof using Qnil Qapp Qadded Qemit.
  unfold conclude. repeat closed_step.
Qed.

Lemma closed_consume caller chunks failure : forall received fullContent,
  adds Q (consume caller chunks failure received fullContent).
Proof using Qnil Qapp Qemit.
  induction chunks as [| chunk rest IH]; intros received fullContent; simpl.
  - destruct failure; closed_step.
  - closed_step; [closed_step |].
    closed_step; [closed_step |].
    destruct (caller _); [closed_step |].
    destruct (StreamChunk.finished chunk) as [[|] |];
      [closed_step | apply IH | apply IH].
Qed.

(** [stream], which makes no [chat] request. *)
Lemma closed_stream this u caller : adds Q (stream this u caller).
Proof using Qnil Qapp Qadded Qemit Qstream.
  unfold stream.
  closed_step; [closed_step |].
  closed_step; [apply closed_prepare |].
  closed_step; [closed_step |].
  closed_step; [| repeat closed_step].
  unfold attempt_stream.
  closed_step; [eapply adds_events; [reflexivity | apply Qstream] |].
  apply closed_bind; [apply closed_consume | intros [fullContent |]];
    [| closed_step].
  closed_step; [| repeat closed_step].
  destruct (JS.truthy_string _); repeat closed_step.
Qed.

(** [chat], given also what is needed of a request. *)
Hypothesis Qchat : forall messages tools, Q [CallChat messages tools].

Lemma closed_llm_chat this messages tools :
  adds Q (llm_chat this messages tools).
Proof using Qchat.
  apply (adds_events Q _ [CallChat messages tools]);
    [reflexivity | apply Qchat].
Qed.

Lemma closed_resolve_tools this response calls :
  adds Q (resolve_tools this response calls).
Proof using Qnil Qapp Qadded Qemit Qexecute Qchat.
  unfold resolve_tools.
  closed_step; [closed_step |].
  closed_step; [closed_step |].
  closed_step; [closed_step |].
  closed_step; [closed_step |].
  closed_step; [apply closed_tool_messages |].
  closed_step; [closed_step |].
  closed_step; [apply closed_llm_chat |].
  closed_step; [| closed_step].
  destruct (LLMResponse.toolCalls _); closed_step.
Qed.

Lemma closed_chat this u : adds Q (chat this u).
Proof using Qnil Qapp Qadded Qemit Qexecute Qchat.
  unfold chat.
  closed_step; [closed_step |].
  closed_step; [apply closed_prepare |].
  closed_step; [closed_step |].
  closed_step; [| repeat closed_step].
  unfold attempt.
  closed_step; [closed_step |].
  closed_step; [apply closed_llm_chat |].
  closed_step; [closed_step |].
  closed_step; [| apply closed_conclude].
  destruct (LLMResponse.toolCalls _) as [[| c cs] |];
    [closed_step | apply closed_resolve_tools | closed_step].
Qed.

End Closed.

(** *** No system message is appended *)

Lemma quiet_app n1 n2 :
  appends_no_system n1 -> appends_no_system n2 ->
  appends_no_system (n1 ++ n2).
Proof.
  unfold appends_no_system, no_system_message. intros H1 H2.
  rewrite appends_app. apply Forall_app. split; assumption.
Qed.

Lemma quiet_event e : appended e = [] -> appends_no_system [e].
Proof.
  intros He. unfold appends_no_system, appends. simpl. rewrite He.
  constructor.
Qed.

Lemma quiet_added m :
  Message.is_system m = false -> appends_no_system (added_events [m]).
Proof.
  intros Hm. unfold appends_no_system. rewrite added_events_appends.
  constructor; [exact Hm | constructor].
Qed.

Lemma quiet_chat this u : adds appends_no_system (chat this u).
Proof.
  apply closed_chat.
  - constructor.
  - exact quiet_app.
  - exact quiet_added.
  - intros e He. apply quiet_event. destruct e; try reflexivity; discriminate.
  - intros tc. apply quiet_event. reflexivity.
  - intros messages tools. apply quiet_event. reflexivity.
Qed.

Lemma quiet_stream this u caller :
  adds appends_no_system (stream this u caller).
Proof.
  apply closed_stream.
  - constructor.
  - exact quiet_app.
  - exact quiet_added.
  - intros e He. apply quiet_event. destruct e; try reflexivity; discriminate.
  - intros messages tools. apply quiet_event. reflexivity.
Qed.

(** The memory after a run whose appended messages are not system
    messages has no system message, when it had none. *)
Lemma memory_stays_without_system {A : Type} (c : SE State A) s :
  tracked c -> adds appends_no_system c ->
  no_system_message (SimpleDictMemory.messages (memory s)) ->
  no_system_message (SimpleDictMemory.messages (memory (snd (c s)))).
Proof.
  intros Htracked Hquiet Hmemory.
  destruct (Htracked s) as (new & Htrace & Hmem & _).
  destruct (Hquiet s) as (new' & Htrace' & Hnone).
  rewrite Htrace in Htrace'. apply app_inv_head in Htrace'. subst new'.
  rewrite Hmem. apply addAll_keeps; assumption.
Qed.

(** *** Requests are counted *)

Lemma count_bind {A B : Type} (n1 n2 n : nat)
    (c : SE State A) (k : A -> SE State B) :
  (n1 + n2 <= n)%nat ->
  adds (sends_at_most n1) c -> (forall a, adds (sends_at_most n2) (k a)) ->
  adds (sends_at_most n) (se_bind c k).
Proof.
  intros Hsum Hc Hk.
  apply (adds_bind (sends_at_most n1) (sends_at_most n2)); try assumption.
  - unfold sends_at_most. intros new H. lia.
  - unfold sends_at_most. intros new1 new2 H1 H2.
    rewrite requests_app, length_app. lia.
Qed.

Lemma count_catch {A : Type} (n1 n2 n : nat)
    (c : SE State A) (h : Thrown -> SE State A) :
  (n1 + n2 <= n)%nat ->
  adds (sends_at_most n1) c -> (forall e, adds (sends_at_most n2) (h e)) ->
  adds (sends_at_most n) (se_catch c h).
Proof.
  intros Hsum Hc Hh.
  apply (adds_catch (sends_at_most n1) (sends_at_most n2)); try assumption.
  - unfold sends_at_most. intros new H. lia.
  - unfold sends_at_most. intros new1 new2 H1 H2.
    rewrite requests_app, length_app. lia.
Qed.

Lemma none_app n1 n2 :
  sends_at_most 0 n1 -> sends_at_most 0 n2 -> sends_at_most 0 (n1 ++ n2).
Proof.
  unfold sends_at_most. intros H1 H2. rewrite requests_app, length_app. lia.
Qed.

Lemma none_event e : requested e = [] -> sends_at_most 0 [e].
Proof.
  intros He. unfold sends_at_most, requests. simpl. rewrite He.
  simpl. lia.
Qed.

Lemma none_added m : sends_at_most 0 (added_events [m]).
Proof. unfold sends_at_most. simpl. lia. Qed.

Lemma none_emitted e : is_call e = false -> sends_at_most 0 [e].
Proof.
  intros He. apply none_event. destruct e; try reflexivity; discriminate.
Qed.

Lemma one_request this messages tools :
  adds (sends_at_most 1) (llm_chat this messages tools).
Proof.
  apply (adds_events _ _ [CallChat messages tools]); [reflexivity |].
  unfold sends_at_most. simpl. lia.
Qed.

Ltac none_step :=
  first
    [ apply closed_nothing; [apply Nat.le_0_l | reflexivity]
    | apply closed_emit; [exact none_emitted | reflexivity]
    | apply closed_prepare;
        [apply Nat.le_0_l | exact none_app | intros; apply none_added
        | exact none_emitted]
    | apply closed_conclude;
        [apply Nat.le_0_l | exact none_app | intros; apply none_added
        | exact none_emitted]
    | apply closed_tool_messages;
        [apply Nat.le_0_l | exact none_app | intros; apply none_added
        | exact none_emitted]
    | apply closed_executeToolCalls;
        [apply Nat.le_0_l | exact none_app | exact none_emitted
        | intros; apply none_event; reflexivity]
    | apply closed_addMessage; [intros; apply none_added | reflexivity] ].

Lemma resolve_tools_sends_one this response calls :
  adds (sends_at_most 1) (resolve_tools this response calls).
Proof.
  unfold resolve_tools.
  apply (count_bind 0 1); [lia | none_step | intros ?].
  apply (count_bind 0 1); [lia | none_step | intros ?].
  apply (count_bind 0 1); [lia | none_step | intros ?].
  apply (count_bind 0 1); [lia | none_step | intros ?].
  apply (count_bind 0 1); [lia | none_step | intros ?].
  apply (count_bind 0 1); [lia | none_step | intros ?].
  apply (count_bind 1 0); [lia | apply one_request | intros ?].
  apply (count_bind 0 0); [lia | | intros ?; none_step].
  destruct (LLMResponse.toolCalls _); none_step.
Qed.

Lemma chat_sends_two this u : adds (sends_at_most 2) (chat this u).
Proof.
  unfold chat.
  apply (count_bind 0 2); [lia | none_step | intros ?].
  apply (count_bind 0 2); [lia | none_step | intros ?].
  apply (count_bind 0 2); [lia | none_step | intros ?].
  apply (count_catch 2 0); [lia | | intros ?].
  - unfold attempt.
    apply (count_bind 0 2); [lia | none_step | intros ?].
    apply (count_bind 1 1); [lia | apply one_request | intros ?].
    apply (count_bind 0 1); [lia | none_step | intros ?].
    apply (count_bind 1 0); [lia | | intros ?; none_step].
    destruct (LLMResponse.toolCalls _) as [[| c cs] |];
      [apply (adds_weaken (sends_at_most 0));
         [unfold sends_at_most; intros; lia | none_step]
      | apply resolve_tools_sends_one
      | apply (adds_weaken (sends_at_most 0));
         [unfold sends_at_most; intros; lia | none_step]].
  - apply (count_bind 0 0); [lia | none_step | intros ?; none_step].
Qed.

End Adds.

(** X22.  The system prompt that [chat] and [stream] put in front of
    their request is never stored: no message that they append is a
    system message, whatever the provider, the tools and the caller of
    [stream] do, so that a memory without system message stays without
    one. *)
Theorem system_prompt_is_never_stored
    (this : Agent.Agent) (userMessage : string) (s : Agent.State)
    (caller : Agent.Caller) :
  no_system_message
    (Agent.appends (events_of (Agent.chat this userMessage) s))
  /\ no_system_message
       (Agent.appends (events_of (Agent.stream this userMessage caller) s))
  /\ (no_system_message (SimpleDictMemory.messages (Agent.memory s)) ->
      no_system_message
        (SimpleDictMemory.messages
           (Agent.memory (snd (Agent.chat this userMessage s))))
      /\ no_system_message
           (SimpleDictMemory.messages
              (Agent.memory (snd (Agent.stream this userMessage caller s))))).
Proof.
  split; [| split].
  - destruct (quiet_chat this userMessage s) as (new & Htrace & Hnone).
    rewrite (AgentFacts.events_of_extension _ _ _ Htrace). exact Hnone.
  - destruct (quiet_stream this userMessage caller s)
      as (new & Htrace & Hnone).
    rewrite (AgentFacts.events_of_extension _ _ _ Htrace). exact Hnone.
  - intros Hmemory. split.
    + apply memory_stays_without_system;
        [apply AgentFacts.tracked_chat | apply quiet_chat | exact Hmemory].
    + apply memory_stays_without_system;
        [apply AgentFacts.tracked_stream | apply quiet_stream | exact Hmemory].
Qed.

(** X23.  A [chat] sends one request to the provider, or two, and never
    more, whatever the answers are, whether the arguments of the tool
    calls parse or not, and whether [chat] returns or throws: the
    follow-up response is never followed up. *)
Theorem chat_sends_one_or_two_requests
    (this : Agent.Agent) (userMessage : string) (s : Agent.State) :
  (1 <= length (Agent.requests (events_of (Agent.chat this userMessage) s))
   <= 2)%nat.
Proof.
  split.
  - destruct (first_request_of_chat this userMessage s) as (later & H).
    rewrite H. simpl. lia.
  - destruct (chat_sends_two this userMessage s) as (new & Htrace & Hcount).
    rewrite (AgentFacts.events_of_extension _ _ _ Htrace). exact Hcount.
Qed.

(** ** Adapters: the lines of a streamed body *)

Section Lines.

Lemma split_newline_not_nil (s : string) : JS.split_newline s <> [].
Proof.
  destruct s as [| c r]; simpl; [discriminate |].
  destruct (Ascii.eqb c JS.newline); [discriminate |].
  destruct (JS.split_newline r); discriminate.
Qed.

Lemma removelast_cons {A : Type} (x : A) (l : list A) :
  l <> [] -> List.removelast (x :: l) = x :: List.removelast l.
Proof. destruct l; [congruence | reflexivity]. Qed.

Lemma last_cons {A : Type} (x d : A) (l : list A) :
  l <> [] -> List.last (x :: l) d = List.last l d.
Proof. destruct l; [congruence | reflexivity]. Qed.

Lemma last_app_right {A : Type} (l1 l2 : list A) (d : A) :
  l2 <> [] -> List.last (l1 ++ l2) d = List.last l2 d.
Proof.
  intros Hne. induction l1 as [| x l1 IH]; [reflexivity |].
  change ((x :: l1) ++ l2) with (x :: (l1 ++ l2)).
  rewrite last_cons; [exact IH |].
  destruct l1; [exact Hne | discriminate].
Qed.

(** Splitting a text in two: the complete lines of the first part, and
    then the lines of what the first part left unfinished and the second
    part. *)
Lemma split_newline_app (a b : string) :
  JS.split_newline (a +:+ b)
  = complete_lines_of a ++ JS.split_newline (unfinished_line_of a +:+ b).
Proof.
  unfold complete_lines_of, unfinished_line_of.
  induction a as [| c r IH]; [reflexivity |].
  change (String c r +:+ b) with (String c (r +:+ b)).
  cbn [JS.split_newline]. rewrite IH.
  pose proof (split_newline_not_nil r) as Hr.
  destruct (Ascii.eqb c JS.newline) eqn:Hc.
  - rewrite removelast_cons, last_cons by exact Hr. reflexivity.
  - destruct (JS.split_newline r) as [| p [| p' ps]] eqn:Hsplit;
      [congruence | |].
    + cbn [List.removelast List.last app].
      change (String c p +:+ b) with (String c (p +:+ b)).
      cbn [JS.split_newline]. rewrite Hc.
      pose proof (split_newline_not_nil (p +:+ b)) as Hpb.
      destruct (JS.split_newline (p +:+ b)); [congruence | reflexivity].
    + rewrite !removelast_cons, !last_cons by discriminate.
      reflexivity.
Qed.

Lemma complete_lines_app (a b : string) :
  complete_lines_of (a +:+ b)
  = complete_lines_of a ++ complete_lines_of (unfinished_line_of a +:+ b).
Proof.
  unfold complete_lines_of at 1. rewrite split_newline_app.
  apply List.removelast_app. apply split_newline_not_nil.
Qed.

Lemma unfinished_line_app (a b : string) :
  unfinished_line_of (a +:+ b)
  = unfinished_line_of (unfinished_line_of a +:+ b).
Proof.
  unfold unfinished_line_of at 1. rewrite split_newline_app.
  apply last_app_right. apply split_newline_not_nil.
Qed.

(** No piece of a split has a newline. *)
Lemma split_newline_pieces (s : string) :
  Forall (fun p => JS.split_newline p = [p]) (JS.split_newline s).
Proof.
  induction s as [| c r IH]; simpl.
  - constructor; [reflexivity | constructor].
  - destruct (Ascii.eqb c JS.newline) eqn:Hc.
    + constructor; [reflexivity | exact IH].
    + destruct (JS.split_newline r) as [| p ps];
        [constructor; [| constructor] |].
      * simpl. rewrite Hc. reflexivity.
      * inversion IH as [| ? ? Hp Hps]; subst. constructor; [| exact Hps].
        simpl. rewrite Hc, Hp. reflexivity.
Qed.

Lemma unfinished_line_has_no_newline (s : string) :
  JS.split_newline (unfinished_line_of s) = [unfinished_line_of s].
Proof.
  unfold unfinished_line_of.
  pose proof (split_newline_pieces s) as Hall.
  pose proof (split_newline_not_nil s) as Hne.
  induction Hall as [| p ps Hp Hps IH]; [congruence |].
  destruct ps as [| p' ps']; [exact Hp |].
  rewrite last_cons by discriminate. apply IH. discriminate.
Qed.

Lemma concat_cons (v : string) (rest : list string) :
  String.concat "" (v :: rest) = v +:+ String.concat "" rest.
Proof.
  destruct rest as [| v' rest]; simpl.
  - symmetry. apply AgentFacts.string_app_nil_r.
  - reflexivity.
Qed.

Lemma read_loop_lines (handle : string -> SE LLM.Wire unit) failure reads :
  forall buffer w,
    JS.split_newline buffer = [buffer] ->
    LLM.read_loop handle reads failure buffer w
    = se_bind (se_for (complete_lines_of (buffer +:+ String.concat "" reads))
                      handle)
              (fun _ => end_of_body failure) w.
Proof.
  induction reads as [| value rest IH]; intros buffer w Hbuffer.
  - cbn [LLM.read_loop String.concat].
    rewrite AgentFacts.string_app_nil_r.
    unfold complete_lines_of. rewrite Hbuffer. reflexivity.
  - cbn [LLM.read_loop]. unfold LLM.complete_lines.
    fold (complete_lines_of (buffer +:+ value)).
    fold (unfinished_line_of (buffer +:+ value)).
    rewrite concat_cons, <- AgentFacts.string_app_assoc.
    rewrite (complete_lines_app (buffer +:+ value) (String.concat "" rest)).
    unfold se_bind.
    rewrite (se_for_app (complete_lines_of (buffer +:+ value))).
    destruct (se_for (complete_lines_of (buffer +:+ value)) handle w)
      as [[[] | e] w']; [| reflexivity].
    rewrite IH by apply unfinished_line_has_no_newline.
    reflexivity.
Qed.

Lemma read_loop_body_lines (handle : string -> SE LLM.Wire unit)
    (response : LLM.Response) (reads : list string) (w : LLM.Wire) :
  LLM.body_reads response = Some reads ->
  LLM.read_body handle response w
  = se_bind (se_for (complete_lines_of (LLM.body_text response)) handle)
            (fun _ => end_of_body (LLM.failure response)) w.
Proof.
  intros Hbody. unfold LLM.read_body, LLM.body_text. rewrite Hbody.
  rewrite read_loop_lines by reflexivity. reflexivity.
Qed.

End Lines.

(** X24.  Both [stream] methods handle the text of the body line by line,
    whatever the reads into which the body is cut: the lines handled are
    the lines of the whole text that a newline ends, in their order, each
    one once; what follows the last newline is never handled; and when a
    read fails, its exception is thrown after the lines that were
    complete. *)
Theorem stream_handles_the_complete_lines
    (handle : string -> SE LLM.Wire unit) (response : LLM.Response)
    (reads : list string) (w : LLM.Wire) :
  LLM.body_reads response = Some reads ->
  LLM.read_body handle response w
  = se_bind (se_for (complete_lines_of (LLM.body_text response)) handle)
            (fun _ => end_of_body (LLM.failure response)) w.
Proof.
  intros Hbody. unfold LLM.read_body, LLM.body_text. rewrite Hbody.
  rewrite read_loop_lines by reflexivity. reflexivity.
Qed.

Lemma stream_handles_the_complete_lines_witness :
  LLM.read_body LLM.OpenAILLM.handle_line Samples.body_in_two_reads
                LLM.no_traffic
  = se_bind (se_for (complete_lines_of
                       (LLM.body_text Samples.body_in_two_reads))
                    LLM.OpenAILLM.handle_line)
            (fun _ => end_of_body (LLM.failure Samples.body_in_two_reads))
            LLM.no_traffic.
Proof.
  apply (stream_handles_the_complete_lines
           LLM.OpenAILLM.handle_line Samples.body_in_two_reads
           ["data: [DONE]" +:+ String JS.newline "";
            Samples.delta_line +:+ String JS.newline ""]
           LLM.no_traffic).
  reflexivity.
Defined.

(** ** Adapters: what a line yields *)

Lemma wire_eta (w : LLM.Wire) : after_yielding [] w = w.
Proof.
  destruct w. unfold after_yielding. simpl. rewrite app_nil_r. reflexivity.
Qed.

Lemma after_yielding_app new1 new2 w :
  after_yielding new2 (after_yielding new1 w) = after_yielding (new1 ++ new2) w.
Proof. unfold after_yielding. simpl. rewrite app_assoc. reflexivity. Qed.

(** The line is skipped: the wire is left as it was. *)
Ltac skipped :=
  cbn [snd LLM.yielded LLM.no_traffic se_ret]; rewrite wire_eta; reflexivity.

Lemma openai_handle_line_run (line : string) (w : LLM.Wire) :
  LLM.OpenAILLM.handle_line line w
  = (Returns tt, after_yielding (openai_line_chunks line) w).
Proof.
  unfold openai_line_chunks, LLM.OpenAILLM.handle_line.
  destruct (String.eqb (JS.trim line) ""
            || String.eqb (JS.trim line) "data: [DONE]"); [skipped |].
  destruct (JS.startsWith "data: " (JS.trim line));
    [| skipped].
  unfold se_catch, se_bind, se_lift.
  destruct (Json.parse _) as [data | e];
    [| skipped].
  destruct (LLM.get "choices" (Some data)) as [choices | e];
    [| skipped].
  destruct (Json.truthy (opt_prop "content" _)),
           (Json.truthy (opt_prop "tool_calls" _)),
           (Json.truthy (opt_prop "finish_reason" _));
    unfold LLM.do_yield, se_modify, se_ret, after_yielding;
    destruct w; simpl; rewrite ?app_nil_r, <- ?app_assoc; reflexivity.
Qed.

Lemma anthropic_handle_line_run (line : string) (w : LLM.Wire) :
  LLM.AnthropicLLM.handle_line line w
  = (Returns tt, after_yielding (anthropic_line_chunks line) w).
Proof.
  unfold anthropic_line_chunks, LLM.AnthropicLLM.handle_line.
  destruct (String.eqb (JS.trim line) ""
            || negb (JS.startsWith "data: " (JS.trim line)));
    [skipped |].
  unfold se_catch, se_bind, se_lift.
  destruct (Json.parse _) as [data | e];
    [| skipped].
  destruct (LLM.get "type" (Some data)) as [type | e];
    [| skipped].
  destruct (match type with
            | Some (JString t) => String.eqb t "content_block_delta"
            | _ => false
            end && Json.truthy _),
           (match type with
            | Some (JString t) => String.eqb t "message_stop"
            | _ => false
            end);
    unfold LLM.do_yield, se_modify, se_ret, after_yielding;
    destruct w; simpl; rewrite ?app_nil_r, <- ?app_assoc; reflexivity.
Qed.

Lemma se_for_yields (handle : string -> SE LLM.Wire unit)
    (chunks : string -> list LLM.WireChunk) :
  (forall line w,
     handle line w = (Returns tt, after_yielding (chunks line) w)) ->
  forall lines w,
    se_for lines handle w
    = (Returns tt, after_yielding (flat_map chunks lines) w).
Proof.
  intros Hline lines. induction lines as [| line rest IH]; intros w.
  - simpl. unfold se_ret. rewrite wire_eta. reflexivity.
  - cbn [se_for flat_map]. unfold se_bind. rewrite Hline, IH.
    rewrite after_yielding_app. reflexivity.
Qed.

(** X25.  Handling a line of a stream never throws and never sends a
    request, for either adapter: all it does is to yield chunks, and
    which ones depends on the line alone; at most three for OpenAI
    (content, tool calls, finished) and two for Anthropic.  A line that
    does not start with [data: ] once trimmed, or whose payload is not
    JSON, yields nothing: it is skipped without a trace. *)
Theorem lines_only_yield (line : string) (w : LLM.Wire) :
  LLM.OpenAILLM.handle_line line w
  = (Returns tt, after_yielding (openai_line_chunks line) w)
  /\ LLM.AnthropicLLM.handle_line line w
     = (Returns tt, after_yielding (anthropic_line_chunks line) w)
  /\ (length (openai_line_chunks line) <= 3)%nat
  /\ (length (anthropic_line_chunks line) <= 2)%nat
  /\ (carries_no_data line ->
      openai_line_chunks line = [] /\ anthropic_line_chunks line = []).
Proof.
  split; [apply openai_handle_line_run |].
  split; [apply anthropic_handle_line_run |].
  split; [| split].
  - unfold openai_line_chunks, LLM.OpenAILLM.handle_line.
    destruct (_ || _); [simpl; lia |].
    destruct (JS.startsWith _ _); [| simpl; lia].
    unfold se_catch, se_bind, se_lift.
    destruct (Json.parse _) as [data | e]; [| simpl; lia].
    destruct (LLM.get "choices" (Some data)) as [choices | e]; [| simpl; lia].
    destruct (Json.truthy (opt_prop "content" _)),
             (Json.truthy (opt_prop "tool_calls" _)),
             (Json.truthy (opt_prop "finish_reason" _)); simpl; lia.
  - unfold anthropic_line_chunks, LLM.AnthropicLLM.handle_line.
    destruct (_ || _); [simpl; lia |].
    unfold se_catch, se_bind, se_lift.
    destruct (Json.parse _) as [data | e]; [| simpl; lia].
    destruct (LLM.get "type" (Some data)) as [type | e]; [| simpl; lia].
    destruct (_ && _), (match type with
                        | Some (JString t) => String.eqb t "message_stop"
                        | _ => false
                        end); simpl; lia.
  - unfold carries_no_data, payload, openai_line_chunks,
      anthropic_line_chunks, LLM.OpenAILLM.handle_line,
      LLM.AnthropicLLM.handle_line.
    intros [Hstart | [e Hparse]].
    + rewrite Hstart. cbn [negb]. rewrite orb_true_r.
      destruct (_ || _); split; reflexivity.
    + unfold se_catch, se_bind, se_lift. rewrite Hparse.
      destruct (String.eqb (JS.trim line) ""),
               (String.eqb (JS.trim line) "data: [DONE]"),
               (JS.startsWith "data: " (JS.trim line)); split; reflexivity.
Qed.

(** ** Adapters: a whole call *)

(** X26.  A stream over a response that is fine (the messages are valid,
    the status is ok, the body can be read to its end): [stream] returns
    without an exception, for either adapter; it has sent one request,
    and it has yielded the chunks of the complete lines of the body, line
    by line in their order, and nothing else. *)
Theorem stream_of_a_good_response
    (fetch : LLM.Request -> Exc LLM.Response) (this : LLM.BaseLLM)
    (messages : list Message.t) (tools : option (list json))
    (response : LLM.Response) (reads : list string) (w : LLM.Wire) :
  LLM.validateMessages messages = Returns tt ->
  (forall r, fetch r = Returns response) ->
  LLM.ok response = true ->
  LLM.body_reads response = Some reads ->
  LLM.failure response = None ->
  LLM.OpenAILLM.stream fetch this messages tools w
  = (Returns tt,
     after_request (openai_request this messages tools true)
       (flat_map openai_line_chunks
                 (complete_lines_of (LLM.body_text response))) w)
  /\ LLM.AnthropicLLM.stream fetch this messages tools w
     = (Returns tt,
        after_request (anthropic_request this messages tools true)
          (flat_map anthropic_line_chunks
                    (complete_lines_of (LLM.body_text response))) w).
Proof.
  intros Hvalid Hfetch Hok Hbody Hfailure.
  unfold LLM.OpenAILLM.stream, LLM.AnthropicLLM.stream.
  split.
  - erewrite AgentFacts.se_bind_returns;
      [| unfold se_lift; rewrite Hvalid; reflexivity].
    erewrite AgentFacts.se_bind_returns;
      [| unfold LLM.do_fetch; rewrite Hfetch; reflexivity].
    rewrite Hok. cbn [negb].
    rewrite (read_loop_body_lines _ response reads) by assumption.
    rewrite Hfailure. unfold se_bind, end_of_body, se_ret.
    rewrite (se_for_yields _ _ openai_handle_line_run). reflexivity.
  - erewrite AgentFacts.se_bind_returns;
      [| unfold se_lift; rewrite Hvalid; reflexivity].
    erewrite AgentFacts.se_bind_returns;
      [| unfold LLM.do_fetch; rewrite Hfetch; reflexivity].
    rewrite Hok. cbn [negb].
    rewrite (read_loop_body_lines _ response reads) by assumption.
    rewrite Hfailure. unfold se_bind, end_of_body, se_ret.
    rewrite (se_for_yields _ _ anthropic_handle_line_run). reflexivity.
Qed.

Lemma stream_of_a_good_response_witness :
  let fetch (_ : LLM.Request) := Returns Samples.body_in_two_reads in
  let lines :=
    complete_lines_of (LLM.body_text Samples.body_in_two_reads) in
  LLM.OpenAILLM.stream fetch MoreSamples.gpt MoreSamples.greeting None
                       LLM.no_traffic
  = (Returns tt,
     after_request (openai_request MoreSamples.gpt MoreSamples.greeting
                                   None true)
                   (flat_map openai_line_chunks lines) LLM.no_traffic)
  /\ LLM.AnthropicLLM.stream fetch MoreSamples.gpt MoreSamples.greeting None
                             LLM.no_traffic
     = (Returns tt,
        after_request (anthropic_request MoreSamples.gpt MoreSamples.greeting
                                         None true)
                      (flat_map anthropic_line_chunks lines) LLM.no_traffic).
Proof.
  apply (stream_of_a_good_response
           (fun _ => Returns Samples.body_in_two_reads)
           MoreSamples.gpt MoreSamples.greeting None
           Samples.body_in_two_reads
           ["data: [DONE]" +:+ String JS.newline "";
            Samples.delta_line +:+ String JS.newline ""]
           LLM.no_traffic).
  - reflexivity.
  - reflexivity.
  - reflexivity.
  - reflexivity.
  - reflexivity.
Defined.

(** X27.  When the answer to the request has a status that is not ok (the
    messages being valid), each of the four methods throws, after one
    request and without having yielded anything: the error of its
    provider, which names the status and carries the text of the body;
    or, when the body cannot be read to its end, what the read that
    failed throws. *)
Theorem failed_request_is_reported
    (fetch : LLM.Request -> Exc LLM.Response) (this : LLM.BaseLLM)
    (messages : list Message.t) (tools : option (list json))
    (response : LLM.Response) (w : LLM.Wire) :
  LLM.validateMessages messages = Returns tt ->
  (forall r, fetch r = Returns response) ->
  LLM.ok response = false ->
  LLM.OpenAILLM.chat fetch this messages tools w
  = (Throws (reported LLM.OpenAILLM.api_error response),
     after_request (openai_request this messages tools false) [] w)
  /\ LLM.OpenAILLM.stream fetch this messages tools w
     = (Throws (reported LLM.OpenAILLM.api_error response),
        after_request (openai_request this messages tools true) [] w)
  /\ LLM.AnthropicLLM.chat fetch this messages tools w
     = (Throws (reported LLM.AnthropicLLM.api_error response),
        after_request (anthropic_request this messages tools false) [] w)
  /\ LLM.AnthropicLLM.stream fetch this messages tools w
     = (Throws (reported LLM.AnthropicLLM.api_error response),
        after_request (anthropic_request this messages tools true) [] w).
Proof.
  intros Hvalid Hfetch Hok.
  unfold LLM.OpenAILLM.chat, LLM.OpenAILLM.stream, LLM.AnthropicLLM.chat,
    LLM.AnthropicLLM.stream, LLM.OpenAILLM.makeRequest,
    LLM.AnthropicLLM.makeRequest, se_bind, se_lift, LLM.do_fetch, se_throw,
    after_request, reported, LLM.response_text.
  rewrite Hvalid, !Hfetch, Hok, app_nil_r. cbn [negb].
  destruct (LLM.body_reads response) as [reads |],
           (LLM.failure response) as [e |];
    repeat split; reflexivity.
Qed.

Lemma failed_request_is_reported_witness :
  LLM.OpenAILLM.chat (fun _ => Returns MoreSamples.too_many_requests)
                     MoreSamples.gpt MoreSamples.greeting None LLM.no_traffic
  = (Throws (ErrorObject "OpenAI API error: 429 - slow down"),
     after_request
       (openai_request MoreSamples.gpt MoreSamples.greeting None false) []
       LLM.no_traffic)
  /\ LLM.AnthropicLLM.stream
       (fun _ => Returns MoreSamples.too_many_requests_cut)
       MoreSamples.gpt MoreSamples.greeting None LLM.no_traffic
     = (Throws (ErrorObject "connection reset"),
        after_request
          (anthropic_request MoreSamples.gpt MoreSamples.greeting None true)
          [] LLM.no_traffic).
Proof.
  split.
  - apply (failed_request_is_reported
             (fun _ => Returns MoreSamples.too_many_requests)
             MoreSamples.gpt MoreSamples.greeting None
             MoreSamples.too_many_requests LLM.no_traffic).
    + reflexivity.
    + reflexivity.
    + reflexivity.
  - apply (failed_request_is_reported
             (fun _ => Returns MoreSamples.too_many_requests_cut)
             MoreSamples.gpt MoreSamples.greeting None
             MoreSamples.too_many_requests_cut LLM.no_traffic).
    + reflexivity.
    + reflexivity.
    + reflexivity.
Defined.

(** ** Adapters: what a request carries *)

Lemma find_app_last {A : Type} (f : A -> bool) (l : list A) (x : A) :
  List.find f (l ++ [x])
  = match List.find f l with
    | Some y => Some y
    | None => if f x then Some x else None
    end.
Proof.
  induction l as [| y l IH]; simpl; [reflexivity |].
  destruct (f y); [reflexivity | exact IH].
Qed.

Lemma is_system_role (m : Message.t) :
  Message.is_system m = true <-> Message.role m = Some System.
Proof.
  unfold Message.is_system.
  destruct (Message.role m) as [[] |]; split; congruence.
Qed.

(** The loop of the Anthropic adapter, said at once. *)
Lemma convert_spec (messages : list Message.t) : forall init,
  LLM.AnthropicLLM.convert messages init
  = (List.map anthropic_message (other_messages messages),
     match last_system_message messages with
     | Some m => Message.content m
     | None => init
     end).
Proof.
  unfold last_system_message, other_messages.
  induction messages as [| msg rest IH]; intros init; [reflexivity |].
  cbn [LLM.AnthropicLLM.convert rev List.filter].
  rewrite find_app_last.
  destruct (Message.is_system msg) eqn:Hsys.
  - apply is_system_role in Hsys. rewrite Hsys, IH. cbn [negb].
    destruct (List.find Message.is_system (rev rest)); reflexivity.
  - assert (Hrole : Message.role msg <> Some System).
    { intros H. apply is_system_role in H. congruence. }
    cbn [negb List.map]. unfold anthropic_message at 1.
    destruct (Message.role msg) as [[] |]; try congruence;
      rewrite IH; destruct (List.find Message.is_system (rev rest));
      reflexivity.
Qed.

Lemma validated_messages_have_content (messages : list Message.t) :
  LLM.validateMessages messages = Returns tt ->
  Forall (fun m => JS.truthy_opt_string (Message.content m) = true) messages.
Proof.
  intros H. destruct messages as [| m0 rest0]; [discriminate |].
  unfold LLM.validateMessages in H.
  induction (m0 :: rest0) as [| m rest IH]; [constructor |].
  simpl in H. destruct (Message.role m); [| discriminate].
  destruct (JS.truthy_opt_string (Message.content m)) eqn:E; [| discriminate].
  constructor; [exact E | apply IH; exact H].
Qed.

(** X28.  The Anthropic adapter sets the system messages apart: of the
    (valid) messages, those that are not system messages are sent in
    their order as [messages], with the role [assistant] for the
    assistant and [user] for every other role, tool messages included;
    the content of the last system message is sent as [system], the
    earlier system messages are dropped, and there is no [system] when
    the list has no system message. *)
Theorem anthropic_request_sets_the_system_message_apart
    (this : LLM.BaseLLM) (messages : list Message.t)
    (tools : option (list json)) (stream : bool) :
  LLM.validateMessages messages = Returns tt ->
  Json.prop "messages"
            (LLM.AnthropicLLM.request_data this messages tools stream)
  = Some (JArray (List.map anthropic_message (other_messages messages)))
  /\ Json.prop "system"
               (LLM.AnthropicLLM.request_data this messages tools stream)
     = match last_system_message messages with
       | Some m => option_map JString (Message.content m)
       | None => None
       end.
Proof.
  intros Hvalid. unfold LLM.AnthropicLLM.request_data.
  rewrite convert_spec.
  assert (Hcontent : match last_system_message messages with
                     | Some m => JS.truthy_opt_string (Message.content m) = true
                     | None => True
                     end).
  { unfold last_system_message.
    destruct (List.find Message.is_system (rev messages)) as [m |] eqn:Hfind;
      [| exact I].
    apply List.find_some in Hfind as [Hin _]. apply List.in_rev in Hin.
    pose proof (validated_messages_have_content messages Hvalid) as Hall.
    rewrite List.Forall_forall in Hall. apply Hall. exact Hin. }
  destruct (last_system_message messages) as [m |].
  - rewrite Hcontent.
    destruct (Message.content m) as [text |]; [| discriminate Hcontent].
    destruct stream, tools as [[| tool more] |]; split; reflexivity.
  - destruct stream, tools as [[| tool more] |]; split; reflexivity.
Qed.

Lemma anthropic_request_sets_the_system_message_apart_witness :
  Json.prop "messages"
            (LLM.AnthropicLLM.request_data
               MoreSamples.claude MoreSamples.two_system_messages None false)
  = Some (JArray (List.map anthropic_message
                    (other_messages MoreSamples.two_system_messages)))
  /\ Json.prop "system"
               (LLM.AnthropicLLM.request_data
                  MoreSamples.claude MoreSamples.two_system_messages None
                  false)
     = match last_system_message MoreSamples.two_system_messages with
       | Some m => option_map JString (Message.content m)
       | None => None
       end.
Proof.
  apply (anthropic_request_sets_the_system_message_apart
           MoreSamples.claude MoreSamples.two_system_messages None false).
  reflexivity.
Defined.

(** The request of that list, as the text that goes out. *)
Example request_with_two_system_messages :
  Json.stringify
    (LLM.AnthropicLLM.request_data
       MoreSamples.claude MoreSamples.two_system_messages None false)
  = JS.dq ("{'model':'claude-3-opus','messages':["
           +:+ "{'role':'user','content':'weather?'},"
           +:+ "{'role':'user','content':'Sunny'}],"
           +:+ "'max_tokens':4096,'temperature':0.7,"
           +:+ "'system':'Be kind.'}").
Proof. vm_compute. reflexivity. Qed.

Lemma same_messages_same_json (a b : list Message.t) :
  Forall2 same_role_and_content a b ->
  List.map LLM.OpenAILLM.message_json a
  = List.map LLM.OpenAILLM.message_json b
  /\ forall init,
       LLM.AnthropicLLM.convert a init = LLM.AnthropicLLM.convert b init.
Proof.
  induction 1 as [| x y a b [Hrole Hcontent] _ [IHo IHa]].
  - split; reflexivity.
  - split.
    + simpl. unfold LLM.OpenAILLM.message_json at 1 3.
      rewrite Hrole, Hcontent, IHo. reflexivity.
    + intros init. cbn [LLM.AnthropicLLM.convert].
      rewrite Hrole, Hcontent.
      destruct (Message.role y) as [[] |]; rewrite IHa; reflexivity.
Qed.

(** X29.  What goes out of a message is its role and its content, for
    either adapter: two lists whose messages agree on these two give the
    same request, so that the tool calls of an assistant message, the
    [toolCallId] of a tool message and the time stamps never reach the
    provider. *)
Theorem requests_carry_role_and_content
    (this : LLM.BaseLLM) (a b : list Message.t)
    (tools : option (list json)) (stream : bool) :
  Forall2 same_role_and_content a b ->
  LLM.OpenAILLM.request_data this a tools stream
  = LLM.OpenAILLM.request_data this b tools stream
  /\ LLM.AnthropicLLM.request_data this a tools stream
     = LLM.AnthropicLLM.request_data this b tools stream.
Proof.
  intros Hsame. destruct (same_messages_same_json a b Hsame) as [Ho Ha].
  unfold LLM.OpenAILLM.request_data, LLM.AnthropicLLM.request_data.
  rewrite Ho, Ha. split; reflexivity.
Qed.

Lemma requests_carry_role_and_content_witness :
  LLM.OpenAILLM.request_data
    MoreSamples.gpt MoreSamples.full_messages None false
  = LLM.OpenAILLM.request_data
      MoreSamples.gpt MoreSamples.bare_messages None false
  /\ LLM.AnthropicLLM.request_data
       MoreSamples.gpt MoreSamples.full_messages None false
     = LLM.AnthropicLLM.request_data
         MoreSamples.gpt MoreSamples.bare_messages None false.
Proof.
  apply (requests_carry_role_and_content
           MoreSamples.gpt MoreSamples.full_messages MoreSamples.bare_messages
           None false).
  repeat constructor.
Defined.

(** ** Adapters: the answer of [OpenAILLM.chat] *)

Lemma openai_chat_run
    (fetch : LLM.Request -> Exc LLM.Response) (this : LLM.BaseLLM)
    (messages : list Message.t) (tools : option (list json))
    (response : LLM.Response) (body : json) (w : LLM.Wire) :
  LLM.validateMessages messages = Returns tt ->
  (forall r, fetch r = Returns response) ->
  LLM.ok response = true ->
  LLM.failure response = None ->
  Json.parse (LLM.body_text response) = Returns body ->
  LLM.OpenAILLM.chat fetch this messages tools w
  = (exc_bind (LLM.get "choices" (Some body)) (fun choices =>
     exc_bind (LLM.get0 choices) (fun choice =>
       let message := Json.opt_prop "message" choice in
       Returns (LLM.OpenAILLM.mkRaw
                  (LLM.OpenAILLM.or_empty (Json.opt_prop "content" message))
                  (let usage := Json.prop "usage" body in
                   if Json.truthy usage
                   then Some (Json.opt_prop "prompt_tokens" usage,
                              Json.opt_prop "completion_tokens" usage,
                              Json.opt_prop "total_tokens" usage)
                   else None)
                  (Json.opt_prop "tool_calls" message)))),
     after_request (openai_request this messages tools false) [] w).
Proof.
  intros Hvalid Hfetch Hok Hread Hparse.
  assert (Hjson : LLM.response_json response = Returns body).
  { unfold LLM.response_json, LLM.response_text. rewrite Hread.
    destruct (LLM.body_reads response); exact Hparse. }
  unfold LLM.OpenAILLM.chat, LLM.OpenAILLM.makeRequest, se_bind, se_lift,
    LLM.do_fetch, se_ret, after_request.
  rewrite Hvalid, Hfetch, Hok, Hjson, app_nil_r. cbn [negb].
  destruct (LLM.get "choices" (Some body)) as [choices | e]; [| reflexivity].
  cbn [exc_bind].
  destruct (LLM.get0 choices) as [choice | e]; reflexivity.
Qed.

(** X30.  [OpenAILLM.chat] on an answer that is JSON (status ok, messages
    valid, the body read to its end) reads the first choice only.  When the answer has no [choices]
    at all, [chat] throws; when [choices] is an empty array, it returns
    the empty content and no tool calls; and when the content of the
    first choice's message is missing, [null] or empty, it returns the
    empty string as content, with the [tool_calls] of that message as
    they are. *)
Theorem openai_chat_reads_the_first_choice
    (fetch : LLM.Request -> Exc LLM.Response) (this : LLM.BaseLLM)
    (messages : list Message.t) (tools : option (list json))
    (response : LLM.Response) (body : json) (w : LLM.Wire) :
  LLM.validateMessages messages = Returns tt ->
  (forall r, fetch r = Returns response) ->
  LLM.ok response = true ->
  LLM.failure response = None ->
  Json.parse (LLM.body_text response) = Returns body ->
  reads_the_first_choice
    (fst (LLM.OpenAILLM.chat fetch this messages tools w)) body.
Proof.
  intros Hvalid Hfetch Hok Hread Hparse. unfold reads_the_first_choice.
  rewrite (openai_chat_run fetch this messages tools response body w
             Hvalid Hfetch Hok Hread Hparse).
  cbn [fst].
  assert (Hbody : forall v, Json.prop "choices" body = Some v ->
                            LLM.get "choices" (Some body) = Returns (Some v)).
  { intros v Hv. destruct body; try discriminate Hv.
    unfold LLM.get. rewrite Hv. reflexivity. }
  split; [| split].
  - intros Hnone. unfold LLM.get.
    destruct body; try (eexists; reflexivity).
    rewrite Hnone. cbn [exc_bind LLM.get0]. eexists. reflexivity.
  - intros Hempty. rewrite (Hbody _ Hempty). cbn [exc_bind LLM.get0].
    eexists. split; [reflexivity |]. split; reflexivity.
  - intros choice more Hchoices Hfalsy. rewrite (Hbody _ Hchoices).
    cbn [exc_bind LLM.get0 Json.index0 List.hd_error].
    eexists. split; [reflexivity |]. split; [| reflexivity].
    cbn [LLM.OpenAILLM.raw_content]. unfold LLM.OpenAILLM.or_empty.
    unfold falsy in Hfalsy. rewrite Hfalsy.
    destruct (Json.opt_prop "content" _); reflexivity.
Qed.

Lemma openai_chat_reads_the_first_choice_witness :
  reads_the_first_choice
    (fst (LLM.OpenAILLM.chat (fun _ => Returns MoreSamples.tool_answer)
            MoreSamples.gpt MoreSamples.greeting None LLM.no_traffic))
    MoreSamples.tool_answer_json.
Proof.
  apply (openai_chat_reads_the_first_choice
           (fun _ => Returns MoreSamples.tool_answer)
           MoreSamples.gpt MoreSamples.greeting None
           MoreSamples.tool_answer MoreSamples.tool_answer_json
           LLM.no_traffic).
  - reflexivity.
  - reflexivity.
  - reflexivity.
  - reflexivity.
  - vm_compute. reflexivity.
Defined.

(** An answer that asks for a tool, its content [null]: the content that
    [chat] returns is the empty string. *)
Example null_content_becomes_empty :
  exc_bind (fst (LLM.OpenAILLM.chat (fun _ => Returns MoreSamples.tool_answer)
                   MoreSamples.gpt MoreSamples.greeting None LLM.no_traffic))
           (fun r => Returns (LLM.OpenAILLM.raw_content r))
  = Returns (JString "").
Proof. vm_compute. reflexivity. Qed.
